(** * Document parser: classification and structured extraction engine

    A shallow embedding of [src/document_parser.py] (class [DocumentParser])
    and proofs about its text cleaner, its pattern extractor, the state of
    its trainable classifier, the orchestrator [parse_document] and the
    evaluator [evaluate_model].

    Python strings are sequences of Unicode code points and are modelled as
    lists of [N]; dictionaries whose insertion order is observable are
    association lists; the model artifact store is a finite map from paths
    to artifacts. *)

From Stdlib Require Import List NArith ZArith Lia Bool String Ascii.
From Stdlib Require Import Permutation.
From Stdlib Require Import Floats.SpecFloat.
From stdpp Require Import gmap.
Import ListNotations.

(** ** Unicode text *)

Module Text.

Definition text := list N.

(** An ASCII literal of the source as a list of code points. *)
Definition str (s : string) : text :=
  List.map N_of_ascii (list_ascii_of_string s).

Definition chr (a : ascii) : N := N_of_ascii a.

Fixpoint text_eqb (a b : text) : bool :=
  match a, b with
  | [], [] => true
  | x :: a', y :: b' => (x =? y)%N && text_eqb a' b'
  | _, _ => false
  end.

Definition in_ranges (tbl : list (N * N)) (c : N) : bool :=
  existsb (fun r => (fst r <=? c)%N && (c <=? snd r)%N) tbl.

(** Code points for which [str.isspace] holds; the regex class [\s] and
    [str.strip] both use this table. *)
Definition space_ranges : list (N * N) :=
  [(9, 13); (28, 32); (133, 133); (160, 160); (5760, 5760);
   (8192, 8202); (8232, 8233); (8239, 8239); (8287, 8287); (12288, 12288)]%N.

(** Code points of category Nd ([str.isdecimal]); the regex class [\d]. *)
Definition decimal_ranges : list (N * N) :=
  [(48, 57); (1632, 1641); (1776, 1785); (1984, 1993); (2406, 2415);
   (2534, 2543); (2662, 2671); (2790, 2799); (2918, 2927); (3046, 3055);
   (3174, 3183); (3302, 3311); (3430, 3439); (3558, 3567); (3664, 3673);
   (3792, 3801); (3872, 3881); (4160, 4169); (4240, 4249); (6112, 6121);
   (6160, 6169); (6470, 6479); (6608, 6617); (6784, 6793); (6800, 6809);
   (6992, 7001); (7088, 7097); (7232, 7241); (7248, 7257); (42528, 42537);
   (43216, 43225); (43264, 43273); (43472, 43481); (43504, 43513); (43600, 43609);
   (44016, 44025); (65296, 65305); (66720, 66729); (68912, 68921); (69734, 69743);
   (69872, 69881); (69942, 69951); (70096, 70105); (70384, 70393); (70736, 70745);
   (70864, 70873); (71248, 71257); (71360, 71369); (71472, 71481); (71904, 71913);
   (72016, 72025); (72784, 72793); (73040, 73049); (73120, 73129); (92768, 92777);
   (92864, 92873); (93008, 93017); (120782, 120831); (123200, 123209); (123632, 123641);
   (125264, 125273); (130032, 130041)]%N.

(** Code points for which [str.isalnum] holds; the regex class [\w] is this
    table plus the underscore. *)
Definition alnum_ranges : list (N * N) :=
  [(48, 57); (65, 90); (97, 122); (170, 170); (178, 179);
   (181, 181); (185, 186); (188, 190); (192, 214); (216, 246);
   (248, 705); (710, 721); (736, 740); (748, 748); (750, 750);
   (880, 884); (886, 887); (890, 893); (895, 895); (902, 902);
   (904, 906); (908, 908); (910, 929); (931, 1013); (1015, 1153);
   (1162, 1327); (1329, 1366); (1369, 1369); (1376, 1416); (1488, 1514);
   (1519, 1522); (1568, 1610); (1632, 1641); (1646, 1647); (1649, 1747);
   (1749, 1749); (1765, 1766); (1774, 1788); (1791, 1791); (1808, 1808);
   (1810, 1839); (1869, 1957); (1969, 1969); (1984, 2026); (2036, 2037);
   (2042, 2042); (2048, 2069); (2074, 2074); (2084, 2084); (2088, 2088);
   (2112, 2136); (2144, 2154); (2160, 2183); (2185, 2190); (2208, 2249);
   (2308, 2361); (2365, 2365); (2384, 2384); (2392, 2401); (2406, 2415);
   (2417, 2432); (2437, 2444); (2447, 2448); (2451, 2472); (2474, 2480);
   (2482, 2482); (2486, 2489); (2493, 2493); (2510, 2510); (2524, 2525);
   (2527, 2529); (2534, 2545); (2548, 2553); (2556, 2556); (2565, 2570);
   (2575, 2576); (2579, 2600); (2602, 2608); (2610, 2611); (2613, 2614);
   (2616, 2617); (2649, 2652); (2654, 2654); (2662, 2671); (2674, 2676);
   (2693, 2701); (2703, 2705); (2707, 2728); (2730, 2736); (2738, 2739);
   (2741, 2745); (2749, 2749); (2768, 2768); (2784, 2785); (2790, 2799);
   (2809, 2809); (2821, 2828); (2831, 2832); (2835, 2856); (2858, 2864);
   (2866, 2867); (2869, 2873); (2877, 2877); (2908, 2909); (2911, 2913);
   (2918, 2927); (2929, 2935); (2947, 2947); (2949, 2954); (2958, 2960);
   (2962, 2965); (2969, 2970); (2972, 2972); (2974, 2975); (2979, 2980);
   (2984, 2986); (2990, 3001); (3024, 3024); (3046, 3058); (3077, 3084);
   (3086, 3088); (3090, 3112); (3114, 3129); (3133, 3133); (3160, 3162);
   (3165, 3165); (3168, 3169); (3174, 3183); (3192, 3198); (3200, 3200);
   (3205, 3212); (3214, 3216); (3218, 3240); (3242, 3251); (3253, 3257);
   (3261, 3261); (3293, 3294); (3296, 3297); (3302, 3311); (3313, 3314);
   (3332, 3340); (3342, 3344); (3346, 3386); (3389, 3389); (3406, 3406);
   (3412, 3414); (3416, 3425); (3430, 3448); (3450, 3455); (3461, 3478);
   (3482, 3505); (3507, 3515); (3517, 3517); (3520, 3526); (3558, 3567);
   (3585, 3632); (3634, 3635); (3648, 3654); (3664, 3673); (3713, 3714);
   (3716, 3716); (3718, 3722); (3724, 3747); (3749, 3749); (3751, 3760);
   (3762, 3763); (3773, 3773); (3776, 3780); (3782, 3782); (3792, 3801);
   (3804, 3807); (3840, 3840); (3872, 3891); (3904, 3911); (3913, 3948);
   (3976, 3980); (4096, 4138); (4159, 4169); (4176, 4181); (4186, 4189);
   (4193, 4193); (4197, 4198); (4206, 4208); (4213, 4225); (4238, 4238);
   (4240, 4249); (4256, 4293); (4295, 4295); (4301, 4301); (4304, 4346);
   (4348, 4680); (4682, 4685); (4688, 4694); (4696, 4696); (4698, 4701);
   (4704, 4744); (4746, 4749); (4752, 4784); (4786, 4789); (4792, 4798);
   (4800, 4800); (4802, 4805); (4808, 4822); (4824, 4880); (4882, 4885);
   (4888, 4954); (4969, 4988); (4992, 5007); (5024, 5109); (5112, 5117);
   (5121, 5740); (5743, 5759); (5761, 5786); (5792, 5866); (5870, 5880);
   (5888, 5905); (5919, 5937); (5952, 5969); (5984, 5996); (5998, 6000);
   (6016, 6067); (6103, 6103); (6108, 6108); (6112, 6121); (6128, 6137);
   (6160, 6169); (6176, 6264); (6272, 6276); (6279, 6312); (6314, 6314);
   (6320, 6389); (6400, 6430); (6470, 6509); (6512, 6516); (6528, 6571);
   (6576, 6601); (6608, 6618); (6656, 6678); (6688, 6740); (6784, 6793);
   (6800, 6809); (6823, 6823); (6917, 6963); (6981, 6988); (6992, 7001);
   (7043, 7072); (7086, 7141); (7168, 7203); (7232, 7241); (7245, 7293);
   (7296, 7304); (7312, 7354); (7357, 7359); (7401, 7404); (7406, 7411);
   (7413, 7414); (7418, 7418); (7424, 7615); (7680, 7957); (7960, 7965);
   (7968, 8005); (8008, 8013); (8016, 8023); (8025, 8025); (8027, 8027);
   (8029, 8029); (8031, 8061); (8064, 8116); (8118, 8124); (8126, 8126);
   (8130, 8132); (8134, 8140); (8144, 8147); (8150, 8155); (8160, 8172);
   (8178, 8180); (8182, 8188); (8304, 8305); (8308, 8313); (8319, 8329);
   (8336, 8348); (8450, 8450); (8455, 8455); (8458, 8467); (8469, 8469);
   (8473, 8477); (8484, 8484); (8486, 8486); (8488, 8488); (8490, 8493);
   (8495, 8505); (8508, 8511); (8517, 8521); (8526, 8526); (8528, 8585);
   (9312, 9371); (9450, 9471); (10102, 10131); (11264, 11492); (11499, 11502);
   (11506, 11507); (11517, 11517); (11520, 11557); (11559, 11559); (11565, 11565);
   (11568, 11623); (11631, 11631); (11648, 11670); (11680, 11686); (11688, 11694);
   (11696, 11702); (11704, 11710); (11712, 11718); (11720, 11726); (11728, 11734);
   (11736, 11742); (11823, 11823); (12293, 12295); (12321, 12329); (12337, 12341);
   (12344, 12348); (12353, 12438); (12445, 12447); (12449, 12538); (12540, 12543);
   (12549, 12591); (12593, 12686); (12690, 12693); (12704, 12735); (12784, 12799);
   (12832, 12841); (12872, 12879); (12881, 12895); (12928, 12937); (12977, 12991);
   (13312, 19903); (19968, 42124); (42192, 42237); (42240, 42508); (42512, 42539);
   (42560, 42606); (42623, 42653); (42656, 42735); (42775, 42783); (42786, 42888);
   (42891, 42954); (42960, 42961); (42963, 42963); (42965, 42969); (42994, 43009);
   (43011, 43013); (43015, 43018); (43020, 43042); (43056, 43061); (43072, 43123);
   (43138, 43187); (43216, 43225); (43250, 43255); (43259, 43259); (43261, 43262);
   (43264, 43301); (43312, 43334); (43360, 43388); (43396, 43442); (43471, 43481);
   (43488, 43492); (43494, 43518); (43520, 43560); (43584, 43586); (43588, 43595);
   (43600, 43609); (43616, 43638); (43642, 43642); (43646, 43695); (43697, 43697);
   (43701, 43702); (43705, 43709); (43712, 43712); (43714, 43714); (43739, 43741);
   (43744, 43754); (43762, 43764); (43777, 43782); (43785, 43790); (43793, 43798);
   (43808, 43814); (43816, 43822); (43824, 43866); (43868, 43881); (43888, 44002);
   (44016, 44025); (44032, 55203); (55216, 55238); (55243, 55291); (63744, 64109);
   (64112, 64217); (64256, 64262); (64275, 64279); (64285, 64285); (64287, 64296);
   (64298, 64310); (64312, 64316); (64318, 64318); (64320, 64321); (64323, 64324);
   (64326, 64433); (64467, 64829); (64848, 64911); (64914, 64967); (65008, 65019);
   (65136, 65140); (65142, 65276); (65296, 65305); (65313, 65338); (65345, 65370);
   (65382, 65470); (65474, 65479); (65482, 65487); (65490, 65495); (65498, 65500);
   (65536, 65547); (65549, 65574); (65576, 65594); (65596, 65597); (65599, 65613);
   (65616, 65629); (65664, 65786); (65799, 65843); (65856, 65912); (65930, 65931);
   (66176, 66204); (66208, 66256); (66273, 66299); (66304, 66339); (66349, 66378);
   (66384, 66421); (66432, 66461); (66464, 66499); (66504, 66511); (66513, 66517);
   (66560, 66717); (66720, 66729); (66736, 66771); (66776, 66811); (66816, 66855);
   (66864, 66915); (66928, 66938); (66940, 66954); (66956, 66962); (66964, 66965);
   (66967, 66977); (66979, 66993); (66995, 67001); (67003, 67004); (67072, 67382);
   (67392, 67413); (67424, 67431); (67456, 67461); (67463, 67504); (67506, 67514);
   (67584, 67589); (67592, 67592); (67594, 67637); (67639, 67640); (67644, 67644);
   (67647, 67669); (67672, 67702); (67705, 67742); (67751, 67759); (67808, 67826);
   (67828, 67829); (67835, 67867); (67872, 67897); (67968, 68023); (68028, 68047);
   (68050, 68096); (68112, 68115); (68117, 68119); (68121, 68149); (68160, 68168);
   (68192, 68222); (68224, 68255); (68288, 68295); (68297, 68324); (68331, 68335);
   (68352, 68405); (68416, 68437); (68440, 68466); (68472, 68497); (68521, 68527);
   (68608, 68680); (68736, 68786); (68800, 68850); (68858, 68899); (68912, 68921);
   (69216, 69246); (69248, 69289); (69296, 69297); (69376, 69415); (69424, 69445);
   (69457, 69460); (69488, 69505); (69552, 69579); (69600, 69622); (69635, 69687);
   (69714, 69743); (69745, 69746); (69749, 69749); (69763, 69807); (69840, 69864);
   (69872, 69881); (69891, 69926); (69942, 69951); (69956, 69956); (69959, 69959);
   (69968, 70002); (70006, 70006); (70019, 70066); (70081, 70084); (70096, 70106);
   (70108, 70108); (70113, 70132); (70144, 70161); (70163, 70187); (70272, 70278);
   (70280, 70280); (70282, 70285); (70287, 70301); (70303, 70312); (70320, 70366);
   (70384, 70393); (70405, 70412); (70415, 70416); (70419, 70440); (70442, 70448);
   (70450, 70451); (70453, 70457); (70461, 70461); (70480, 70480); (70493, 70497);
   (70656, 70708); (70727, 70730); (70736, 70745); (70751, 70753); (70784, 70831);
   (70852, 70853); (70855, 70855); (70864, 70873); (71040, 71086); (71128, 71131);
   (71168, 71215); (71236, 71236); (71248, 71257); (71296, 71338); (71352, 71352);
   (71360, 71369); (71424, 71450); (71472, 71483); (71488, 71494); (71680, 71723);
   (71840, 71922); (71935, 71942); (71945, 71945); (71948, 71955); (71957, 71958);
   (71960, 71983); (71999, 71999); (72001, 72001); (72016, 72025); (72096, 72103);
   (72106, 72144); (72161, 72161); (72163, 72163); (72192, 72192); (72203, 72242);
   (72250, 72250); (72272, 72272); (72284, 72329); (72349, 72349); (72368, 72440);
   (72704, 72712); (72714, 72750); (72768, 72768); (72784, 72812); (72818, 72847);
   (72960, 72966); (72968, 72969); (72971, 73008); (73030, 73030); (73040, 73049);
   (73056, 73061); (73063, 73064); (73066, 73097); (73112, 73112); (73120, 73129);
   (73440, 73458); (73648, 73648); (73664, 73684); (73728, 74649); (74752, 74862);
   (74880, 75075); (77712, 77808); (77824, 78894); (82944, 83526); (92160, 92728);
   (92736, 92766); (92768, 92777); (92784, 92862); (92864, 92873); (92880, 92909);
   (92928, 92975); (92992, 92995); (93008, 93017); (93019, 93025); (93027, 93047);
   (93053, 93071); (93760, 93846); (93952, 94026); (94032, 94032); (94099, 94111);
   (94176, 94177); (94179, 94179); (94208, 100343); (100352, 101589); (101632, 101640);
   (110576, 110579); (110581, 110587); (110589, 110590); (110592, 110882); (110928, 110930);
   (110948, 110951); (110960, 111355); (113664, 113770); (113776, 113788); (113792, 113800);
   (113808, 113817); (119520, 119539); (119648, 119672); (119808, 119892); (119894, 119964);
   (119966, 119967); (119970, 119970); (119973, 119974); (119977, 119980); (119982, 119993);
   (119995, 119995); (119997, 120003); (120005, 120069); (120071, 120074); (120077, 120084);
   (120086, 120092); (120094, 120121); (120123, 120126); (120128, 120132); (120134, 120134);
   (120138, 120144); (120146, 120485); (120488, 120512); (120514, 120538); (120540, 120570);
   (120572, 120596); (120598, 120628); (120630, 120654); (120656, 120686); (120688, 120712);
   (120714, 120744); (120746, 120770); (120772, 120779); (120782, 120831); (122624, 122654);
   (123136, 123180); (123191, 123197); (123200, 123209); (123214, 123214); (123536, 123565);
   (123584, 123627); (123632, 123641); (124896, 124902); (124904, 124907); (124909, 124910);
   (124912, 124926); (124928, 125124); (125127, 125135); (125184, 125251); (125259, 125259);
   (125264, 125273); (126065, 126123); (126125, 126127); (126129, 126132); (126209, 126253);
   (126255, 126269); (126464, 126467); (126469, 126495); (126497, 126498); (126500, 126500);
   (126503, 126503); (126505, 126514); (126516, 126519); (126521, 126521); (126523, 126523);
   (126530, 126530); (126535, 126535); (126537, 126537); (126539, 126539); (126541, 126543);
   (126545, 126546); (126548, 126548); (126551, 126551); (126553, 126553); (126555, 126555);
   (126557, 126557); (126559, 126559); (126561, 126562); (126564, 126564); (126567, 126570);
   (126572, 126578); (126580, 126583); (126585, 126588); (126590, 126590); (126592, 126601);
   (126603, 126619); (126625, 126627); (126629, 126633); (126635, 126651); (127232, 127244);
   (130032, 130041); (131072, 173791); (173824, 177976); (177984, 178205); (178208, 183969);
   (183984, 191456); (194560, 195101); (196608, 201546)]%N.

Definition isspace (c : N) : bool := in_ranges space_ranges c.
Definition isdecimal (c : N) : bool := in_ranges decimal_ranges c.
Definition isalnum (c : N) : bool := in_ranges alnum_ranges c.

(** [\w] of a Unicode pattern: alphanumeric or underscore. *)
Definition isword (c : N) : bool := isalnum c || (c =? 95)%N.

Definition is_ascii_upper (c : N) : bool := (65 <=? c)%N && (c <=? 90)%N.
Definition is_ascii_lower (c : N) : bool := (97 <=? c)%N && (c <=? 122)%N.

(** [str.lower] on one code point.  ASCII is exact.  Outside ASCII only two
    code points lower to something containing an ASCII character (U+0130 to
    [i] followed by U+0307, and the Kelvin sign U+212A to [k]); the others
    are kept as they are, which [endswith] against an ASCII suffix, the only
    consumer of [lower] in this program, cannot tell from their true image. *)
Definition lower_char (c : N) : text :=
  if is_ascii_upper c then [(c + 32)%N]
  else if (c =? 304)%N then [105; 775]%N
  else if (c =? 8490)%N then [107%N]
  else [c].

Definition lower (t : text) : text := flat_map lower_char t.

Fixpoint startswith (p t : text) : bool :=
  match p, t with
  | [], _ => true
  | a :: p', b :: t' => (a =? b)%N && startswith p' t'
  | _ :: _, [] => false
  end.

Definition endswith (t suffix : text) : bool :=
  startswith (rev suffix) (rev t).

(** [needle in t] *)
Fixpoint contains (needle t : text) : bool :=
  startswith needle t ||
  match t with
  | [] => false
  | _ :: t' => contains needle t'
  end.

(** [t.find(needle)], with [None] for Python's -1. *)
Fixpoint find_from (needle t : text) (i : nat) : option nat :=
  if startswith needle t then Some i
  else match t with
       | [] => None
       | _ :: t' => find_from needle t' (S i)
       end.

Definition find (t needle : text) : option nat := find_from needle t 0.

(** [t.replace(old, new)] for a non-empty [old]: left to right, without
    overlap.  The counter [skip] drops the rest of an occurrence that has
    just been replaced. *)
Fixpoint replace_from (old new t : text) (skip : nat) : text :=
  match skip, t with
  | _, [] => []
  | S n, _ :: t' => replace_from old new t' n
  | 0, c :: t' =>
      if startswith old t then new ++ replace_from old new t' (pred (length old))
      else c :: replace_from old new t' 0
  end.

Definition replace (t old new : text) : text := replace_from old new t 0.

Fixpoint lstrip (t : text) : text :=
  match t with
  | c :: t' => if isspace c then lstrip t' else t
  | [] => []
  end.

Definition rstrip (t : text) : text := rev (lstrip (rev t)).

(** [t.strip()] *)
Definition strip (t : text) : text := rstrip (lstrip t).

(** [t.split()] : maximal runs of non-whitespace. *)
Fixpoint split_ws_aux (t : text) (cur : text) : list text :=
  match t with
  | [] => match cur with [] => [] | _ => [rev cur] end
  | c :: t' =>
      if isspace c
      then match cur with [] => split_ws_aux t' [] | _ => rev cur :: split_ws_aux t' [] end
      else split_ws_aux t' (c :: cur)
  end.

Definition split_ws (t : text) : list text := split_ws_aux t [].

End Text.
Export Text.

(** ** Regular expressions: the fragment of Python's [re] the program uses *)

Module Re.

(** An item of a bracketed character set. *)
Inductive citem :=
| CChar (c : N)
| CRange (lo hi : N)
| CSpace            (* \s *)
| CDigit            (* \d *)
| CWord.            (* \w *)

Inductive regex :=
| Eps
| Lit (c : N)
| Dot
| Class (neg : bool) (items : list citem)
| Seq (r1 r2 : regex)
| Alt (r1 r2 : regex)
| Rep (greedy : bool) (lo : nat) (hi : option nat) (r : regex)
| Group (i : nat) (r : regex)     (* capturing group number i *)
| Look (r : regex)                (* (?=...) *)
| WordB                           (* \b *)
| EndZ.                           (* \Z *)

Record flags := { ignorecase : bool; dotall : bool }.

Definition no_flags := {| ignorecase := false; dotall := false |}.
Definition IGNORECASE := {| ignorecase := true; dotall := false |}.
Definition IGNORECASE_DOTALL := {| ignorecase := true; dotall := true |}.

(** Case folding as [re.IGNORECASE] sees it from an ASCII pattern: the ASCII
    letters, and the four non-ASCII code points that match an ASCII letter
    (U+0130 and U+0131 match [i], U+017F matches [s], U+212A matches [k]). *)
Definition fold_case (c : N) : N :=
  if is_ascii_upper c then (c + 32)%N
  else if (c =? 304)%N || (c =? 305)%N then 105%N
  else if (c =? 383)%N then 115%N
  else if (c =? 8490)%N then 107%N
  else c.

Definition ascii_upper (c : N) : N :=
  if is_ascii_lower c then (c - 32)%N else c.

Definition lit_match (fl : flags) (p x : N) : bool :=
  if ignorecase fl then (fold_case x =? fold_case p)%N else (x =? p)%N.

Definition in_range (lo hi x : N) : bool := (lo <=? x)%N && (x <=? hi)%N.

Definition item_match (fl : flags) (it : citem) (x : N) : bool :=
  match it with
  | CChar p => lit_match fl p x
  | CRange lo hi =>
      if ignorecase fl
      then in_range lo hi x || in_range lo hi (fold_case x)
           || in_range lo hi (ascii_upper (fold_case x))
      else in_range lo hi x
  | CSpace => isspace x
  | CDigit => isdecimal x
  | CWord => isword x
  end.

Definition class_match (fl : flags) (neg : bool) (items : list citem) (x : N) : bool :=
  xorb neg (existsb (fun it => item_match fl it x) items).

Definition dot_match (fl : flags) (x : N) : bool :=
  dotall fl || negb (x =? 10)%N.

(** The matcher state: the code point before the current position (for
    [\b]), the number of code points read since the start of the attempt,
    the text still to be read, and the groups captured so far, most recent
    first. *)
Definition captures := list (nat * text).

Record mstate := MState {
  st_prev : option N;
  st_pos : nat;
  st_rest : text;
  st_caps : captures
}.

Definition cont := mstate -> option mstate.

Definition is_word_opt (o : option N) : bool :=
  match o with Some c => isword c | None => false end.

Definition word_boundary (prev : option N) (rest : text) : bool :=
  xorb (is_word_opt prev) (is_word_opt (hd_error rest)).

Definition at_boundary (st : mstate) : bool :=
  word_boundary (st_prev st) (st_rest st).

(** The text read between two states of one match attempt. *)
Definition consumed (st st' : mstate) : text :=
  firstn (st_pos st' - st_pos st) (st_rest st).

Definition set_cap (i : nat) (w : text) (st : mstate) : mstate :=
  MState (st_prev st) (st_pos st) (st_rest st) ((i, w) :: st_caps st).

Definition one_char (ok : N -> bool) (st : mstate) (k : cont) : option mstate :=
  match st_rest st with
  | x :: s => if ok x then k (MState (Some x) (S (st_pos st)) s (st_caps st)) else None
  | [] => None
  end.

(** Repetition with backtracking.  A greedy repetition tries one more
    iteration before it tries to stop; a lazy one the other way round.  An
    iteration that reads nothing ends the repetition once the lower bound is
    met, as in [sre].  The fuel bounds the number of iterations by the length
    of the remaining text plus the lower bound. *)
Fixpoint rep_loop (fuel : nat) (body : mstate -> cont -> option mstate)
    (greedy : bool) (lo : nat) (hi : option nat) (st : mstate) (k : cont)
    : option mstate :=
  match fuel with
  | O => None
  | S f =>
      let more :=
        match hi with
        | Some O => None
        | _ =>
            body st (fun st' =>
              if (st_pos st <? st_pos st') || (1 <? lo)
              then rep_loop f body greedy (pred lo) (option_map pred hi) st' k
              else k st')
        end in
      let stop := if (lo =? 0) then k st else None in
      if greedy
      then match more with Some r => Some r | None => stop end
      else match stop with Some r => Some r | None => more end
  end.

(** Backtracking matcher in continuation-passing style: [m fl r st k] reads a
    match of [r] from [st] and hands the state after it to [k]; alternatives
    are tried left to right. *)
Fixpoint m (fl : flags) (r : regex) (st : mstate) (k : cont) : option mstate :=
  match r with
  | Eps => k st
  | Lit c => one_char (lit_match fl c) st k
  | Dot => one_char (dot_match fl) st k
  | Class neg items => one_char (class_match fl neg items) st k
  | Seq r1 r2 => m fl r1 st (fun st' => m fl r2 st' k)
  | Alt r1 r2 =>
      match m fl r1 st k with
      | Some res => Some res
      | None => m fl r2 st k
      end
  | Rep greedy lo hi r1 =>
      rep_loop (S (length (st_rest st) + lo)) (m fl r1) greedy lo hi st k
  | Group i r1 => m fl r1 st (fun st' => k (set_cap i (consumed st st') st'))
  | Look r1 =>
      match m fl r1 st Some with
      | Some st' => k (MState (st_prev st) (st_pos st) (st_rest st) (st_caps st'))
      | None => None
      end
  | WordB => if at_boundary st then k st else None
  | EndZ => match st_rest st with [] => k st | _ :: _ => None end
  end.

(** One match attempt at the current position: the length of the match and
    its captures. *)
Definition match_at (fl : flags) (r : regex) (prev : option N) (s : text)
    : option (nat * captures) :=
  match m fl r (MState prev 0 s []) Some with
  | Some st' => Some (st_pos st', st_caps st')
  | None => None
  end.

Fixpoint ngroups (r : regex) : nat :=
  match r with
  | Seq r1 r2 | Alt r1 r2 => ngroups r1 + ngroups r2
  | Rep _ _ _ r1 | Look r1 => ngroups r1
  | Group _ r1 => S (ngroups r1)
  | _ => 0
  end.

Fixpoint get_cap (i : nat) (caps : captures) : text :=
  match caps with
  | [] => []
  | (j, w) :: rest => if (i =? j) then w else get_cap i rest
  end.

(** What [re.findall] reports for one match: the whole match when the
    pattern has no group, the group when it has one, a tuple of the groups
    otherwise.  A group that took no part in the match reads as empty. *)
Inductive found :=
| FStr (s : text)
| FTuple (gs : list text).

Definition found_of (r : regex) (whole : text) (caps : captures) : found :=
  match ngroups r with
  | 0 => FStr whole
  | 1 => FStr (get_cap 1 caps)
  | n => FTuple (List.map (fun i => get_cap i caps) (seq 1 n))
  end.

(** Left-to-right scan for non-overlapping matches.  [skip] counts the code
    points of the last match that remain to be stepped over; after an empty
    match the scan moves on by one code point. *)
Fixpoint findall_from (fl : flags) (r : regex) (prev : option N) (s : text)
    (skip : nat) {struct s} : list found :=
  match skip with
  | S n =>
      match s with
      | [] => []
      | c :: t => findall_from fl r (Some c) t n
      end
  | O =>
      match match_at fl r prev s with
      | Some (len, caps) =>
          found_of r (firstn len s) caps ::
          match s with
          | [] => []
          | c :: t => findall_from fl r (Some c) t (pred len)
          end
      | None =>
          match s with
          | [] => []
          | c :: t => findall_from fl r (Some c) t 0
          end
      end
  end.

(** [re.findall(pattern, text, flags)] *)
Definition findall (fl : flags) (r : regex) (s : text) : list found :=
  findall_from fl r None s 0.

(** [re.sub(pattern, repl, text)] for a replacement without group
    references. *)
Fixpoint sub_from (fl : flags) (r : regex) (repl : text) (prev : option N)
    (s : text) (skip : nat) {struct s} : text :=
  match skip with
  | S n =>
      match s with
      | [] => []
      | c :: t => sub_from fl r repl (Some c) t n
      end
  | O =>
      match match_at fl r prev s with
      | Some (len, _) =>
          repl ++
          match s with
          | [] => []
          | c :: t =>
              if (len =? 0) then c :: sub_from fl r repl (Some c) t 0
              else sub_from fl r repl (Some c) t (pred len)
          end
      | None =>
          match s with
          | [] => []
          | c :: t => c :: sub_from fl r repl (Some c) t 0
          end
      end
  end.

Definition sub (fl : flags) (r : regex) (repl s : text) : text :=
  sub_from fl r repl None s 0.

(** *** Reading a pattern

    The patterns of the program are kept as the strings of the source and
    read by this parser, which covers the syntax they use: literals,
    escapes, [.], bracketed sets with ranges, groups [(...)], [(?:...)] and
    [(?=...)], alternation, and the quantifiers [*], [+], [?], [{m}],
    [{m,n}] with their lazy forms. *)

Definition is_chr (a : ascii) (c : N) : bool := (c =? chr a)%N.

Definition is_ascii_digit (c : N) : bool := (48 <=? c)%N && (c <=? 57)%N.

Fixpoint p_nat (s : text) (acc : nat) : nat * text :=
  match s with
  | c :: s' =>
      if is_ascii_digit c then p_nat s' (10 * acc + N.to_nat (c - 48)) else (acc, s)
  | [] => (acc, [])
  end.

(** An optional [?] after a quantifier makes it lazy; the result is the
    greedy flag. *)
Definition p_lazy (s : text) : bool * text :=
  match s with
  | c :: s' => if is_chr "?" c then (false, s') else (true, s)
  | [] => (true, [])
  end.

(** The bounds after an opening brace. *)
Definition p_bounds (s : text) : option (nat * option nat * text) :=
  let (lo, s1) := p_nat s 0 in
  match s1 with
  | c :: s2 =>
      if is_chr "}" c then Some (lo, Some lo, s2)
      else if is_chr "," c then
        match s2 with
        | d :: s3 =>
            if is_chr "}" d then Some (lo, None, s3)
            else let (hi, s4) := p_nat s2 0 in
                 match s4 with
                 | e :: s5 => if is_chr "}" e then Some (lo, Some hi, s5) else None
                 | [] => None
                 end
        | [] => None
        end
      else None
  | [] => None
  end.

Definition p_quant (a : regex) (s : text) : regex * text :=
  match s with
  | c :: s1 =>
      if is_chr "*" c then let (g, s2) := p_lazy s1 in (Rep g 0 None a, s2)
      else if is_chr "+" c then let (g, s2) := p_lazy s1 in (Rep g 1 None a, s2)
      else if is_chr "?" c then let (g, s2) := p_lazy s1 in (Rep g 0 (Some 1) a, s2)
      else if is_chr "{" c then
        match p_bounds s1 with
        | Some (lo, hi, s2) => let (g, s3) := p_lazy s2 in (Rep g lo hi a, s3)
        | None => (a, s)
        end
      else (a, s)
  | [] => (a, [])
  end.

Definition p_class_escape (c : N) : citem :=
  if is_chr "s" c then CSpace
  else if is_chr "d" c then CDigit
  else if is_chr "w" c then CWord
  else if is_chr "n" c then CChar 10
  else if is_chr "t" c then CChar 9
  else CChar c.

(** The items of a bracketed set, up to the closing bracket. *)
Fixpoint p_items (s : text) : option (list citem * text) :=
  match s with
  | [] => None
  | c :: s1 =>
      if is_chr "]" c then Some ([], s1)
      else
        let single (it : citem) (rest : option (list citem * text)) :=
          match rest with
          | Some (its, s') => Some (it :: its, s')
          | None => None
          end in
        if is_chr "\" c then
          match s1 with
          | e :: s2 => single (p_class_escape e) (p_items s2)
          | [] => None
          end
        else
          match s1 with
          | d :: s2 =>
              match s2 with
              | e :: s3 =>
                  if is_chr "-" d && negb (is_chr "]" e)
                  then single (CRange c e) (p_items s3)
                  else single (CChar c) (p_items s1)
              | [] => single (CChar c) (p_items s1)
              end
          | [] => None
          end
  end.

Definition p_escape (e : N) : regex :=
  if is_chr "s" e then Class false [CSpace]
  else if is_chr "d" e then Class false [CDigit]
  else if is_chr "w" e then Class false [CWord]
  else if is_chr "b" e then WordB
  else if is_chr "Z" e then EndZ
  else if is_chr "n" e then Lit 10
  else if is_chr "t" e then Lit 9
  else Lit e.

Definition mkseq (a r : regex) : regex :=
  match r with
  | Eps => a
  | _ => Seq a r
  end.

Definition expect_close (res : option (regex * text * nat)) (wrap : regex -> regex)
    : option (regex * text * nat) :=
  match res with
  | Some (r, c :: s, g) => if is_chr ")" c then Some (wrap r, s, g) else None
  | _ => None
  end.

(** Alternation, sequence and atom; [g] counts the capturing groups opened
    so far, which numbers them from the left. *)
Fixpoint p_alt (fuel : nat) (s : text) (g : nat) : option (regex * text * nat) :=
  match fuel with
  | O => None
  | S n =>
      match p_seq n s g with
      | Some (r1, s1, g1) =>
          match s1 with
          | c :: s2 =>
              if is_chr "|" c then
                match p_alt n s2 g1 with
                | Some (r2, s3, g2) => Some (Alt r1 r2, s3, g2)
                | None => None
                end
              else Some (r1, s1, g1)
          | [] => Some (r1, s1, g1)
          end
      | None => None
      end
  end
with p_seq (fuel : nat) (s : text) (g : nat) : option (regex * text * nat) :=
  match fuel with
  | O => None
  | S n =>
      match s with
      | [] => Some (Eps, [], g)
      | c :: _ =>
          if is_chr "|" c || is_chr ")" c then Some (Eps, s, g)
          else
            match p_atom n s g with
            | Some (a, s1, g1) =>
                let (q, s2) := p_quant a s1 in
                match p_seq n s2 g1 with
                | Some (r, s3, g2) => Some (mkseq q r, s3, g2)
                | None => None
                end
            | None => None
            end
      end
  end
with p_atom (fuel : nat) (s : text) (g : nat) : option (regex * text * nat) :=
  match fuel with
  | O => None
  | S n =>
      match s with
      | [] => None
      | c :: s1 =>
          if is_chr "(" c then
            if startswith (str "?:") s1 then expect_close (p_alt n (skipn 2 s1) g) (fun r => r)
            else if startswith (str "?=") s1 then expect_close (p_alt n (skipn 2 s1) g) Look
            else expect_close (p_alt n s1 (S g)) (Group (S g))
          else if is_chr "[" c then
            match s1 with
            | d :: s2 =>
                if is_chr "^" d
                then match p_items s2 with
                     | Some (its, s3) => Some (Class true its, s3, g)
                     | None => None
                     end
                else match p_items s1 with
                     | Some (its, s3) => Some (Class false its, s3, g)
                     | None => None
                     end
            | [] => None
            end
          else if is_chr "\" c then
            match s1 with
            | e :: s2 => Some (p_escape e, s2, g)
            | [] => None
            end
          else if is_chr "." c then Some (Dot, s1, g)
          else Some (Lit c, s1, g)
      end
  end.

Definition parse (p : string) : option regex :=
  match p_alt (4 * String.length p + 4) (str p) 0 with
  | Some (r, [], _) => Some r
  | _ => None
  end.

(** [re.compile]; a string outside the fragment compiles to the regex that
    matches nothing. *)
Definition compile (p : string) : regex :=
  match parse p with
  | Some r => r
  | None => Class false []
  end.

End Re.

(** ** Exceptions *)

Module Py.

(** An instance of [Exception]: its class and what [str(e)] gives. *)
Record exn := { exn_class : string; exn_str : text }.

Inductive result (A : Type) :=
| Ok (a : A)
| Raise (e : exn).
Arguments Ok {A} a.
Arguments Raise {A} e.

Definition bind {A B : Type} (c : result A) (k : A -> result B) : result B :=
  match c with
  | Ok a => k a
  | Raise e => Raise e
  end.

(** [try: body  except Exception as e: handler(e)] *)
Definition try_except {A : Type} (body : result A) (handler : exn -> result A)
    : result A :=
  match body with
  | Ok a => Ok a
  | Raise e => handler e
  end.

Definition ValueError (msg : string) : exn :=
  {| exn_class := "ValueError"; exn_str := str msg |}.

Definition raises {A : Type} (c : result A) : bool :=
  match c with
  | Ok _ => false
  | Raise _ => true
  end.

End Py.
Export Py.

Notation "x <- c ;; k" := (Py.bind c (fun x => k))
  (at level 100, c at next level, right associativity).

(** ** Dictionaries with string keys, in insertion order *)

Module Dict.

Definition dict (V : Type) := list (string * V).

Fixpoint get {V : Type} (d : dict V) (k : string) : option V :=
  match d with
  | [] => None
  | (k', v) :: d' => if String.eqb k k' then Some v else get d' k
  end.

Definition has {V : Type} (d : dict V) (k : string) : bool :=
  match get d k with Some _ => true | None => false end.

(** [d[k] = v]: an existing key keeps its place, a new one goes last. *)
Fixpoint set {V : Type} (d : dict V) (k : string) (v : V) : dict V :=
  match d with
  | [] => [(k, v)]
  | (k', v') :: d' =>
      if String.eqb k k' then (k, v) :: d' else (k', v') :: set d' k v
  end.

Definition get_default {V : Type} (d : dict V) (k : string) (dflt : V) : V :=
  match get d k with Some v => v | None => dflt end.

End Dict.

(** ** The parser: cleaning and pattern extraction *)

Module DocumentParser.

Import Dict.
Local Open Scope string_scope.
Local Open Scope list_scope.

(** *** [clean_text] *)

Definition page_footer : Re.regex := Re.compile "Page\s+\d+\s+of\s+\d+".
Definition boilerplate : Re.regex := Re.compile "Confidential|Proprietary".
Definition whitespace_run : Re.regex := Re.compile "\s+".
(** The pattern made of the single code point U+FFFD. *)
Definition replacement_char : Re.regex := Re.Lit 65533.

Definition dquote : text := [34%N].
Definition squote : text := [39%N].
Definition en_dash : text := [8211%N].
Definition em_dash : text := [8212%N].

(** The quote normalisation as the source has it: the first [replace] of
    each line maps the ASCII quote to itself, the next two map a doubled
    quote to a single one. *)
Definition clean_text (t : text) : text :=
  match t with
  | [] => []
  | _ :: _ =>
      let t := Re.sub Re.no_flags page_footer [] t in
      let t := Re.sub Re.no_flags boilerplate [] t in
      let t := Re.sub Re.no_flags whitespace_run (str " ") t in
      let t := Re.sub Re.no_flags replacement_char [] t in
      let t := replace (replace (replace t dquote dquote)
                          (dquote ++ dquote) dquote) (dquote ++ dquote) dquote in
      let t := replace (replace (replace t squote squote)
                          (squote ++ squote) squote) (squote ++ squote) squote in
      let t := replace (replace t en_dash (str "-")) em_dash (str "-") in
      strip t
  end.

(** *** The pattern tables ([self.patterns]) *)

(** A rule table maps a field to its pattern, kept as the string of the
    source. *)
Definition rule_table := dict string.

Definition invoice_patterns : rule_table :=
  [ ("invoice_number", "(?:invoice|inv)\.?\s*#?\s*([A-Z0-9-]+)");
    ("date", "(?:date|invoice date):?\s*(\d{1,2}[/-]\d{1,2}[/-]\d{2,4})");
    ("due_date", "(?:due date|due):?\s*(\d{1,2}[/-]\d{1,2}[/-]\d{2,4})");
    ("total_amount", "(?:total|amount due|balance):?\s*(\$\d+(?:\.\d{2})?)");
    ("tax", "(?:tax|vat):?\s*(\$\d+(?:\.\d{2})?)");
    ("first_name", "(?:first name|given name):?\s*([A-Z][a-z]+)");
    ("last_name", "(?:last name|surname|family name):?\s*([A-Z][a-z]+)");
    ("email", "([a-zA-Z0-9._%+-]+@[a-zA-Z0-9.-]+\.[a-zA-Z]{2,})");
    ("product_id", "(?:product id|product code|item #):?\s*([A-Z0-9-]+)");
    ("qty", "(?:quantity|qty):?\s*(\d+)");
    ("amount", "(?:amount|price):?\s*(\$\d+(?:\.\d{2})?)");
    ("invoice_date", "(?:invoice date|date issued):?\s*(\d{1,2}[/-]\d{1,2}[/-]\d{2,4})");
    ("address", "(\d+\s+[\w\s]+,?\s*[A-Za-z\s]+,?\s*[A-Z]{2}\s*\d{5})");
    ("city", "(?:city):?\s*([A-Za-z\s]+)(?=\s*[,]|\s*[A-Z]{2})");
    ("stock_code", "(?:stock code|sku):?\s*([A-Z0-9-]+)");
    ("job", "(?:job|project|work order):?\s*([A-Z0-9-]+)") ].

Definition receipt_patterns : rule_table :=
  [ ("date", "(?:date):?\s*(\d{1,2}[/-]\d{1,2}[/-]\d{2,4})");
    ("total", "(?:total|amount):?\s*(\$\d+(?:\.\d{2})?)");
    ("payment_method", "(?:payment method|paid with):?\s*([A-Za-z\s]+)") ].

Definition contract_patterns : rule_table :=
  [ ("contract_id", "(?:contract|agreement)\s*#?\s*([A-Z0-9-]+)");
    ("date", "(?:date|effective date):?\s*(\d{1,2}[/-]\d{1,2}[/-]\d{2,4})");
    ("parties", "(?:between|parties):?\s*([A-Za-z0-9\s,&]+)(?:\s+and\s+)([A-Za-z0-9\s,&]+)");
    ("amount", "(?:amount|value):?\s*(\$\d+(?:\.\d{2})?)");
    ("term", "(?:term|duration):?\s*(\d+\s+(?:years?|months?|days?))");
    ("buyer", "(?:buyer|client):?\s*([A-Za-z0-9\s,&]+)");
    ("supplier", "(?:supplier|vendor):?\s*([A-Za-z0-9\s,&]+)") ].

Definition contact_patterns : rule_table :=
  [ ("email", "([a-zA-Z0-9._%+-]+@[a-zA-Z0-9.-]+\.[a-zA-Z]{2,})");
    ("phone", "(\+?\d{1,3}[-.\s]?\(?\d{3}\)?[-.\s]?\d{3}[-.\s]?\d{4})");
    ("website", "(https?://[^\s]+)");
    ("name", "(?:name|contact):?\s*([A-Z][a-z]+\s+[A-Z][a-z]+)");
    ("company", "(?:company|firm|organization):?\s*([A-Za-z0-9\s&.,]+)");
    ("address", "(\d+\s+[\w\s]+,?\s*[A-Za-z\s]+,?\s*[A-Z]{2}\s*\d{5})");
    ("zip_code", "\b\d{5}(?:-\d{4})?\b") ].

Definition general_patterns : rule_table :=
  [ ("currency", "(\$\d+(?:,\d{3})*(?:\.\d{2})?)");
    ("percentage", "(\d+(?:\.\d+)?%)");
    ("date", "(\d{1,2}[/-]\d{1,2}[/-]\d{2,4})") ].

Definition patterns : dict rule_table :=
  [ ("invoice", invoice_patterns);
    ("receipt", receipt_patterns);
    ("contract", contract_patterns);
    ("contact", contact_patterns);
    ("general", general_patterns) ].

(** [self.patterns.get(doc_type)] for an arbitrary Python string. *)
Fixpoint patterns_get (d : dict rule_table) (doc_type : text) : option rule_table :=
  match d with
  | [] => None
  | (k, v) :: d' => if text_eqb (str k) doc_type then Some v else patterns_get d' doc_type
  end.

(** *** [extract_with_patterns] *)

Definition found_eqb (a b : Re.found) : bool :=
  match a, b with
  | Re.FStr x, Re.FStr y => text_eqb x y
  | Re.FTuple x, Re.FTuple y =>
      (length x =? length y)%nat && forallb (fun p => text_eqb (fst p) (snd p)) (combine x y)
  | _, _ => false
  end.

(** [list(set(xs))]: every distinct element once.  Python leaves the order
    of a set unspecified; the model keeps the order of first occurrence, and
    no statement below depends on it. *)
Fixpoint list_set {A : Type} (eqb : A -> A -> bool) (xs : list A) : list A :=
  match xs with
  | [] => []
  | x :: xs' => x :: List.filter (fun y => negb (eqb x y)) (list_set eqb xs')
  end.

Definition extract_with_patterns (t : text) (doc_type : text) : dict (list Re.found) :=
  let doc_type :=
    match patterns_get patterns doc_type with
    | Some _ => doc_type
    | None => str "general"
    end in
  flat_map (fun fp : string * string =>
              let matches := Re.findall Re.IGNORECASE (Re.compile (snd fp)) t in
              match matches with
              | [] => []
              | _ :: _ => [(fst fp, list_set found_eqb matches)]
              end)
           (match patterns_get patterns doc_type with
            | Some tbl => tbl
            | None => []
            end).

(** *** The libraries the parser calls

    What pytesseract, pdfplumber, spaCy, phonenumbers, the clock and the
    random generator answer is not decided by this program; it is taken from
    the environment.  Every call that can raise returns a [result]. *)

Class World := {
  (** the module flag set by the guarded import of pytesseract and PIL *)
  HAS_OCR : bool;
  (** [pytesseract.image_to_string(Image.open(path))] *)
  image_to_string : text -> result text;
  (** [pdfplumber.open(path).pages], each with what [extract_text()] gives
      (the empty text stands for [None]) *)
  pdf_pages : text -> result (list (result text));
  (** [self.nlp(text).ents] as pairs of [ent.text] and [ent.label_] *)
  nlp_ents : text -> result (list (text * text));
  (** [phonenumbers.parse(phone, "US")], [is_valid_number] and
      [format_number(.., INTERNATIONAL)]: the formatted number when valid,
      [None] when the number parses but is not valid *)
  phone_international : text -> result (option text);
  (** [datetime.now().isoformat()] *)
  now_isoformat : text;
  (** [create_training_data(n)], whose rows are drawn at random *)
  create_training_data : nat -> list (text * text)
}.

(** scikit-learn: the three estimators of the classifier and the operations
    the parser calls on them.  An operation that fits an estimator returns
    the estimator as the call leaves it, together with the outcome. *)
Class Sklearn := {
  vectorizer_t : Type;
  classifier_t : Type;
  label_encoder_t : Type;
  matrix : Type;
  labels : Type;
  (** [TfidfVectorizer(max_features=1000, ngram_range=(1, 2))] *)
  TfidfVectorizer : vectorizer_t;
  (** [RandomForestClassifier(n_estimators=100, random_state=42)]; the other
      arguments the constructor gives are the library defaults *)
  RandomForestClassifier : classifier_t;
  (** [LogisticRegression(random_state=42)] *)
  LogisticRegression : classifier_t;
  LabelEncoder : label_encoder_t;
  vec_fit_transform : vectorizer_t -> list text -> vectorizer_t * result matrix;
  le_fit_transform : label_encoder_t -> list text -> label_encoder_t * result labels;
  (** [train_test_split(X, y, test_size=0.2, random_state=42, stratify=y)] *)
  train_test_split : matrix -> labels -> result (matrix * matrix * labels * labels);
  clf_fit : classifier_t -> matrix -> labels -> classifier_t * result unit;
  clf_predict : classifier_t -> matrix -> result labels;
  (** [classification_report(y_test, y_pred, target_names=le.classes_)] *)
  classification_report : labels -> labels -> label_encoder_t -> result text;
  vec_transform : vectorizer_t -> list text -> result matrix;
  le_inverse_transform : label_encoder_t -> labels -> result (list text);
  (** [len(vectorizer.get_feature_names_out())] *)
  vec_feature_count : vectorizer_t -> result nat;
  (** [label_encoder.classes_.tolist()] *)
  le_classes : label_encoder_t -> result (list text)
}.

(** *** Text extraction *)

Section Extraction.
Context {W : World}.

Definition extract_text_from_image (image_path : text) : result text :=
  if negb HAS_OCR then Ok []
  else try_except (image_to_string image_path) (fun _ => Ok []).

(** The page loop: text gathered so far is kept when a page raises. *)
Fixpoint pdf_concat (pages : list (result text)) (acc : text) : text :=
  match pages with
  | [] => acc
  | Raise _ :: _ => acc
  | Ok page_text :: rest =>
      match page_text with
      | [] => pdf_concat rest acc
      | _ :: _ => pdf_concat rest (acc ++ page_text ++ [10%N])
      end
  end.

Definition extract_text_from_pdf (file_path : text) : result text :=
  match pdf_pages file_path with
  | Ok pages => Ok (pdf_concat pages [])
  | Raise _ => Ok []
  end.

(** *** Field extraction on top of the patterns *)

Definition ents_with (labels : list string) (ents : list (text * text)) : list text :=
  List.map fst
    (List.filter (fun e => existsb (fun l => text_eqb (str l) (snd e)) labels) ents).

Definition strs (xs : list text) : list Re.found := List.map Re.FStr xs.

(** The loop over the person entities of [extract_invoice_details]. *)
Fixpoint fill_names (persons : list text) (res : dict (list Re.found))
    : dict (list Re.found) :=
  match persons with
  | [] => res
  | person :: rest =>
      let name_parts := split_ws person in
      if (2 <=? length name_parts)%nat then
        let res := if has res "first_name" then res
                   else Dict.set res "first_name" (strs (firstn 1 name_parts)) in
        let res := if has res "last_name" then res
                   else Dict.set res "last_name" (strs [List.last name_parts []]) in
        fill_names rest res
      else fill_names rest res
  end.

Definition extract_invoice_details (t : text) : result (dict (list Re.found)) :=
  let pattern_results := extract_with_patterns t (str "invoice") in
  ents <- nlp_ents t ;;
  let person_entities := ents_with ["PERSON"] ents in
  let pattern_results := fill_names person_entities pattern_results in
  let location_entities := ents_with ["GPE"; "LOC"] ents in
  Ok (match location_entities with
      | _ :: _ =>
          if has pattern_results "city" then pattern_results
          else Dict.set pattern_results "city" (strs location_entities)
      | [] => pattern_results
      end).

Fixpoint add_once (x : text) (xs : list text) : list text :=
  match xs with
  | [] => [x]
  | y :: xs' => if text_eqb x y then xs else y :: add_once x xs'
  end.

Definition entity_kinds : list string :=
  ["PERSON"; "ORG"; "GPE"; "DATE"; "MONEY"; "PRODUCT"].

Definition extract_entities (t : text) : result (dict (list text)) :=
  ents <- nlp_ents t ;;
  Ok (List.map (fun kind =>
         (kind,
          fold_left (fun acc e =>
                       if text_eqb (str kind) (snd e) then add_once (fst e) acc else acc)
                    ents []))
       entity_kinds).

Definition found_text (f : Re.found) : text :=
  match f with
  | Re.FStr s => s
  | Re.FTuple _ => []
  end.

(** The phone loop of [extract_contact_info]: a valid number is replaced by
    its international form, a number that parses but is not valid is
    dropped, and one on which the library raises is kept as found. *)
Fixpoint enhance_phones (phones : list Re.found) : list Re.found :=
  match phones with
  | [] => []
  | phone :: rest =>
      match phone_international (found_text phone) with
      | Ok (Some formatted) => Re.FStr formatted :: enhance_phones rest
      | Ok None => enhance_phones rest
      | Raise _ => phone :: enhance_phones rest
      end
  end.

Definition contact_block_patterns : list Re.regex :=
  [ Re.compile "contact.*?information:?(.*?)(?=\n\n|\n[A-Z]|\Z)";
    Re.compile "details:?(.*?)(?=\n\n|\n[A-Z]|\Z)";
    Re.compile "for more.*?information:?(.*?)(?=\n\n|\n[A-Z]|\Z)" ].

Definition extract_contact_info (t : text) : dict (list Re.found) :=
  let contact := extract_with_patterns t (str "contact") in
  let enhanced_phones := enhance_phones (get_default contact "phone" []) in
  let contact :=
    match enhanced_phones with
    | _ :: _ => Dict.set contact "phone" enhanced_phones
    | [] => contact
    end in
  let contact_blocks :=
    flat_map (fun pattern => Re.findall Re.IGNORECASE_DOTALL pattern t)
             contact_block_patterns in
  let cleaned_blocks :=
    List.filter (fun block => (10 <? length (found_text block))%nat)
      (List.map (fun block =>
                   Re.FStr (strip (Re.sub Re.no_flags whitespace_run (str " ")
                                     (found_text block))))
                contact_blocks) in
  match cleaned_blocks with
  | _ :: _ => Dict.set contact "contact_blocks" cleaned_blocks
  | [] => contact
  end.

Definition holder_patterns : list Re.regex :=
  [ Re.compile "(?:name|holder|account holder|contact):\s*([A-Z][a-z]+(?:\s+[A-Z][a-z]+)+)";
    Re.compile "(?:mr\.|mrs\.|ms\.|dr\.)\s+([A-Z][a-z]+(?:\s+[A-Z][a-z]+)+)";
    Re.compile "prepared by:\s*([A-Z][a-z]+(?:\s+[A-Z][a-z]+)+)";
    Re.compile "issued to:\s*([A-Z][a-z]+(?:\s+[A-Z][a-z]+)+)";
    Re.compile "attention:\s*([A-Z][a-z]+(?:\s+[A-Z][a-z]+)+)";
    Re.compile "attn:\s*([A-Z][a-z]+(?:\s+[A-Z][a-z]+)+)" ].

(** The score of a candidate name, [max(0, 1 - position / len(text))], times
    [len(text)]: the ranking only compares scores within one text, and the
    numerator [len(text) - position] orders them as the quotient does. *)
Definition name_score (t name : text) : nat :=
  match find t name with
  | Some position => length t - position
  | None => 0
  end.

(** Stable insertion into a list sorted by descending score. *)
Fixpoint insert_by_score (t : text) (x : text) (sorted : list text) : list text :=
  match sorted with
  | [] => [x]
  | y :: rest =>
      if (name_score t x <? name_score t y)%nat then y :: insert_by_score t x rest
      else x :: sorted
  end.

Record name_info := {
  candidate_names : list text;
  primary_name : option text
}.

Definition extract_document_holder_name (t : text) : result name_info :=
  let names :=
    flat_map (fun pattern =>
                List.map found_text (Re.findall Re.IGNORECASE pattern t))
             holder_patterns in
  ents <- nlp_ents t ;;
  let ner_names := ents_with ["PERSON"] ents in
  let all_names := list_set text_eqb (names ++ ner_names) in
  let filtered_names :=
    List.filter (fun name => (2 <=? length (split_ws name))%nat && (4 <? length name)%nat)
                all_names in
  let scored_names := fold_right (insert_by_score t) [] filtered_names in
  Ok {| candidate_names := scored_names; primary_name := hd_error scored_names |}.

Record ml_features := {
  email_count : nat;
  phone_count : nat;
  currency_count : nat;
  date_count : nat;
  person_count : nat;
  org_count : nat;
  text_length : nat
}.

Definition count_matches (pattern : string) (t : text) : nat :=
  length (Re.findall Re.no_flags (Re.compile pattern) t).

Definition extract_features (t : text) : result ml_features :=
  let email_count := count_matches "[a-zA-Z0-9._%+-]+@[a-zA-Z0-9.-]+\.[a-zA-Z]{2,}" t in
  let phone_count := count_matches "(\+?\d{1,3}[-.\s]?\(?\d{3}\)?[-.\s]?\d{3}[-.\s]?\d{4})" t in
  let currency_count := count_matches "(\$\d+(?:,\d{3})*(?:\.\d{2})?)" t in
  let date_count := count_matches "(\d{1,2}[/-]\d{1,2}[/-]\d{2,4})" t in
  ents <- nlp_ents t ;;
  Ok {| email_count := email_count;
        phone_count := phone_count;
        currency_count := currency_count;
        date_count := date_count;
        person_count := length (ents_with ["PERSON"] ents);
        org_count := length (ents_with ["ORG"] ents);
        text_length := length t |}.

End Extraction.

(** *** The classifier: state, training, prediction *)

Record training_record := {
  timestamp : text;
  samples : nat
}.

Section Classifier.
Context {SK : Sklearn} {W : World}.

(** The attributes of a [DocumentParser] instance that change. *)
Record parser := {
  vectorizer : vectorizer_t;
  classifier : classifier_t;
  label_encoder : label_encoder_t;
  is_trained : bool;
  training_history : list training_record;
  last_training_samples : nat
}.

Definition set_vectorizer (self : parser) (v : vectorizer_t) : parser :=
  {| vectorizer := v; classifier := classifier self;
     label_encoder := label_encoder self; is_trained := is_trained self;
     training_history := training_history self;
     last_training_samples := last_training_samples self |}.

Definition set_classifier (self : parser) (c : classifier_t) : parser :=
  {| vectorizer := vectorizer self; classifier := c;
     label_encoder := label_encoder self; is_trained := is_trained self;
     training_history := training_history self;
     last_training_samples := last_training_samples self |}.

Definition set_label_encoder (self : parser) (l : label_encoder_t) : parser :=
  {| vectorizer := vectorizer self; classifier := classifier self;
     label_encoder := l; is_trained := is_trained self;
     training_history := training_history self;
     last_training_samples := last_training_samples self |}.

Definition set_is_trained (self : parser) (b : bool) : parser :=
  {| vectorizer := vectorizer self; classifier := classifier self;
     label_encoder := label_encoder self; is_trained := b;
     training_history := training_history self;
     last_training_samples := last_training_samples self |}.

Definition set_training_history (self : parser) (h : list training_record) : parser :=
  {| vectorizer := vectorizer self; classifier := classifier self;
     label_encoder := label_encoder self; is_trained := is_trained self;
     training_history := h;
     last_training_samples := last_training_samples self |}.

Definition set_last_training_samples (self : parser) (n : nat) : parser :=
  {| vectorizer := vectorizer self; classifier := classifier self;
     label_encoder := label_encoder self; is_trained := is_trained self;
     training_history := training_history self;
     last_training_samples := n |}.

(** The three statements that end a successful fit:
    [self.is_trained = True], [self.last_training_samples = len(df)],
    [self.training_history.append(training_info)]. *)
Definition mark_trained (self : parser) (n : nat) (training_info : training_record)
    : parser :=
  set_training_history
    (set_last_training_samples (set_is_trained self true) n)
    (training_history self ++ [training_info]).

(** A data frame with the columns [text] and [document_type]. *)
Definition dataframe := list (text * text).

(** [train_model].  The method returns [self] on every path; the flag next
    to the state tells whether the call reached the statements of
    [mark_trained], which is what a successful training call is. *)
Definition train_model_run (self : parser) (df : option dataframe) : parser * bool :=
  let df := match df with
            | Some d => d
            | None => create_training_data 1000
            end in
  let training_info := {| timestamp := now_isoformat; samples := length df |} in
  if (length df =? 0)%nat then (self, false)
  else
    let (vec, X) := vec_fit_transform (vectorizer self) (List.map fst df) in
    let self := set_vectorizer self vec in
    match X with
    | Raise _ => (self, false)
    | Ok X =>
        let (le, y) := le_fit_transform (label_encoder self) (List.map snd df) in
        let self := set_label_encoder self le in
        match y with
        | Raise _ => (self, false)
        | Ok y =>
            match train_test_split X y with
            | Raise _ => (self, false)
            | Ok (X_train, X_test, y_train, y_test) =>
                let (clf, fitted) := clf_fit (classifier self) X_train y_train in
                let self := set_classifier self clf in
                match (_ <- fitted ;;
                       y_pred <- clf_predict clf X_test ;;
                       classification_report y_test y_pred le) with
                | Ok _ => (mark_trained self (length df) training_info, true)
                | Raise _ =>
                    let (clf, fitted) := clf_fit LogisticRegression X_train y_train in
                    let self := set_classifier self clf in
                    match fitted with
                    | Ok _ => (mark_trained self (length df) training_info, true)
                    | Raise _ => (self, false)
                    end
                end
            end
        end
    end.

Definition train_model (self : parser) (df : option dataframe) : parser :=
  fst (train_model_run self df).

Definition IndexError : exn :=
  {| exn_class := "IndexError"; exn_str := str "index 0 is out of bounds" |}.

Definition predict_document_type (self : parser) (t : text) : result text :=
  if negb (is_trained self)
  then Raise (ValueError "Model must be trained before prediction")
  else
    features <- vec_transform (vectorizer self) [t] ;;
    prediction <- clf_predict (classifier self) features ;;
    decoded <- le_inverse_transform (label_encoder self) prediction ;;
    match decoded with
    | label :: _ => Ok label
    | [] => Raise IndexError
    end.

(** *** Persistence *)

(** What [joblib.load] gives back for an artifact written by [save_model],
    or by an older version that stored fewer keys. *)
Record model_data := {
  md_vectorizer : option vectorizer_t;
  md_classifier : option classifier_t;
  md_label_encoder : option label_encoder_t;
  md_is_trained : option bool;
  md_training_history : option (list training_record);
  md_last_training_samples : option nat
}.

(** A file of the artifact store: a pickled dictionary, or bytes that do
    not unpickle. *)
Inductive artifact :=
| Pickle (d : model_data)
| Garbage.

Definition filesystem := gmap text artifact.

Definition path_exists (fs : filesystem) (path : text) : bool :=
  match fs !! path with
  | Some _ => true
  | None => false
  end.

Definition KeyError (key : string) : exn :=
  {| exn_class := "KeyError"; exn_str := str key |}.

Definition UnpicklingError : exn :=
  {| exn_class := "UnpicklingError"; exn_str := str "invalid load key" |}.

Definition FileNotFoundError (path : text) : exn :=
  {| exn_class := "FileNotFoundError";
     exn_str := str "[Errno 2] No such file or directory: " ++ path |}.

Definition joblib_load (fs : filesystem) (path : text) : result model_data :=
  match fs !! path with
  | Some (Pickle d) => Ok d
  | Some Garbage => Raise UnpicklingError
  | None => Raise (FileNotFoundError path)
  end.

Definition slash : N := 47%N.

Fixpoint drop_to_slash (rev_path : text) : text :=
  match rev_path with
  | [] => []
  | c :: rest => if (c =? slash)%N then rev_path else drop_to_slash rest
  end.

Fixpoint drop_slashes (rev_path : text) : text :=
  match rev_path with
  | [] => []
  | c :: rest => if (c =? slash)%N then drop_slashes rest else rev_path
  end.

(** [os.path.dirname] (POSIX): the part up to the last slash, without
    trailing slashes unless it consists of slashes only. *)
Definition dirname (path : text) : text :=
  let head := drop_to_slash (rev path) in
  match drop_slashes head with
  | [] => rev head
  | stripped => rev stripped
  end.

(** [os.makedirs(name, exist_ok=True)]: it raises on the empty name.
    Directories are not part of the artifact store, and failures of the
    operating system (permissions, a full disk) are outside the model. *)
Definition os_makedirs (name : text) : result unit :=
  match name with
  | [] => Raise (FileNotFoundError [])
  | _ :: _ => Ok tt
  end.

Definition save_model (self : parser) (path : text) (fs : filesystem)
    : filesystem * result unit :=
  if negb (is_trained self)
  then (fs, Raise (ValueError "Model must be trained before saving"))
  else
    match os_makedirs (dirname path) with
    | Raise e => (fs, Raise e)
    | Ok _ =>
        let data :=
          {| md_vectorizer := Some (vectorizer self);
             md_classifier := Some (classifier self);
             md_label_encoder := Some (label_encoder self);
             md_is_trained := Some (is_trained self);
             md_training_history := Some (training_history self);
             md_last_training_samples := Some (last_training_samples self) |} in
        (<[path := Pickle data]> fs, Ok tt)
    end.

Definition require {A : Type} (key : string) (o : option A) : result A :=
  match o with
  | Some a => Ok a
  | None => Raise (KeyError key)
  end.

(** The body of the [try] of [load_model]: the attributes are assigned one
    after the other, so an exception leaves the earlier ones assigned. *)
Definition load_assign (self : parser) (fs : filesystem) (path : text)
    : parser * result unit :=
  match joblib_load fs path with
  | Raise e => (self, Raise e)
  | Ok data =>
      match require "vectorizer" (md_vectorizer data) with
      | Raise e => (self, Raise e)
      | Ok v =>
          let self := set_vectorizer self v in
          match require "classifier" (md_classifier data) with
          | Raise e => (self, Raise e)
          | Ok c =>
              let self := set_classifier self c in
              match require "label_encoder" (md_label_encoder data) with
              | Raise e => (self, Raise e)
              | Ok l =>
                  let self := set_label_encoder self l in
                  match require "is_trained" (md_is_trained data) with
                  | Raise e => (self, Raise e)
                  | Ok b =>
                      let self := set_is_trained self b in
                      let self :=
                        set_training_history self
                          (match md_training_history data with
                           | Some h => h
                           | None => []
                           end) in
                      let self :=
                        set_last_training_samples self
                          (match md_last_training_samples data with
                           | Some n => n
                           | None => 0
                           end) in
                      (self, Ok tt)
                  end
              end
          end
      end
  end.

Definition load_model (self : parser) (path : text) (fs : filesystem)
    : parser * result unit :=
  if negb (path_exists fs path) then (self, Ok tt)
  else
    match load_assign self fs path with
    | (self, Ok _) => (self, Ok tt)
    | (self, Raise _) =>
        let self := set_vectorizer self TfidfVectorizer in
        let self := set_classifier self RandomForestClassifier in
        let self := set_label_encoder self LabelEncoder in
        (set_is_trained self false, Ok tt)
    end.

(** [DocumentParser(model_path)] as far as the classifier goes. *)
Definition new_parser : parser :=
  {| vectorizer := TfidfVectorizer; classifier := RandomForestClassifier;
     label_encoder := LabelEncoder; is_trained := false;
     training_history := []; last_training_samples := 0 |}.

Definition init (model_path : option text) (fs : filesystem) : parser * result unit :=
  match model_path with
  | Some ((_ :: _) as path) => load_model new_parser path fs
  | _ => (new_parser, Ok tt)
  end.

End Classifier.

(** *** Python numbers of the evaluator

    [accuracy] is the int [0] or a float.  Floats are IEEE-754 binary64 values
    ([spec_float] with precision 53 and maximal exponent 1024), so that the
    quotient, the product and [round] go through the roundings Python
    performs. *)









(** *** [parse_document] *)

(** The dictionary [parse_document] returns: the keys of a successful parse,
    or [success: False] with the error (and the time, on the path through
    the handler). *)
Inductive parse_result :=
| Parsed (document_type : text)
         (pattern_extraction : dict (list Re.found))
         (contact_info : dict (list Re.found))
         (names : name_info)
         (entities : dict (list text))
         (features : ml_features)
         (cleaned_text : text)
         (extraction_time : text)
| Failed (error : text) (extraction_time : option text).

Definition success (r : parse_result) : bool :=
  match r with
  | Parsed _ _ _ _ _ _ _ _ => true
  | Failed _ _ => false
  end.

(** [result.get('document_type')] *)
Definition get_document_type (r : parse_result) : option text :=
  match r with
  | Parsed ty _ _ _ _ _ _ _ => Some ty
  | Failed _ _ => None
  end.

(** [result.get('error')] *)
Definition get_error (r : parse_result) : option text :=
  match r with
  | Parsed _ _ _ _ _ _ _ _ => None
  | Failed e _ => Some e
  end.

Definition get_pattern_extraction (r : parse_result) : option (dict (list Re.found)) :=
  match r with
  | Parsed _ pe _ _ _ _ _ _ => Some pe
  | Failed _ _ => None
  end.

Definition image_suffixes : list string :=
  [".jpg"; ".jpeg"; ".png"; ".bmp"; ".tiff"].

Section Orchestrator.
Context {SK : Sklearn} {W : World}.

(** Step 4 of the parse: the prediction replaces the requested type, and an
    exception of the predictor leaves it as requested. *)
Definition resolve_type (self : parser) (cleaned_text doc_type : text) (use_ml : bool)
    : text :=
  if use_ml && is_trained self then
    match predict_document_type self cleaned_text with
    | Ok predicted => predicted
    | Raise _ => doc_type
    end
  else doc_type.

(** Step 1 of the parse: the extractor is chosen by the extension of the
    file. *)
Definition extract_text (file_path : text) : result text :=
  if existsb (fun sfx => endswith (lower file_path) (str sfx)) image_suffixes
  then extract_text_from_image file_path
  else extract_text_from_pdf file_path.

(** The body of the [try] of [parse_document]. *)
Definition parse_body (self : parser) (file_path doc_type : text) (use_ml : bool)
    : result parse_result :=
  raw_text <- extract_text file_path ;;
  match raw_text with
  | [] => Ok (Failed (str "No text could be extracted from the document") None)
  | _ :: _ =>
      let cleaned_text := clean_text raw_text in
      let doc_type := resolve_type self cleaned_text doc_type use_ml in
      pattern_results <-
        (if text_eqb doc_type (str "invoice")
         then extract_invoice_details cleaned_text
         else Ok (extract_with_patterns cleaned_text doc_type)) ;;
      let contact_info := extract_contact_info cleaned_text in
      names <- extract_document_holder_name cleaned_text ;;
      entities <- extract_entities cleaned_text ;;
      features <- extract_features cleaned_text ;;
      Ok (Parsed doc_type pattern_results contact_info names entities features
            (if (1000 <? length cleaned_text)%nat
             then firstn 1000 cleaned_text ++ str "..."
             else cleaned_text)
            now_isoformat)
  end.

Definition parse_document (self : parser) (file_path doc_type : text) (use_ml : bool)
    : result parse_result :=
  try_except (parse_body self file_path doc_type use_ml)
    (fun e => Ok (Failed (exn_str e) (Some now_isoformat))).

(** *** [evaluate_model] *)










End Orchestrator.

End DocumentParser.

(** ** A concrete environment

    A small instance of the libraries, used to run the parser on concrete
    inputs: three PDF files, no OCR, an entity recogniser that finds nothing
    and estimators that classify by keyword. *)

Module Scenario.

Import DocumentParser.
Local Open Scope string_scope.
Local Open Scope list_scope.

Definition documents : list (string * string) :=
  [ ("docs/a.pdf", "Invoice #INV-1001 Total: $1500.00 Tax: $120.00");
    ("docs/b.pdf", "Receipt 12/31/2023 Total: $12.50");
    ("docs/c.pdf", "Invoice #INV-1002 between Acme and Bob") ].

Definition IOError : exn := {| exn_class := "IOError"; exn_str := str "cannot open" |}.

Fixpoint read_document (docs : list (string * string)) (path : text)
    : result (list (result text)) :=
  match docs with
  | [] => Raise IOError
  | (name, content) :: rest =>
      if text_eqb (str name) path then Ok [Ok (str content)]
      else read_document rest path
  end.

Definition world : World :=
  {| HAS_OCR := false;
     image_to_string := fun _ => Raise IOError;
     pdf_pages := read_document documents;
     nlp_ents := fun _ => Ok [];
     phone_international := fun _ => Ok None;
     now_isoformat := str "2024-05-01T10:00:00";
     create_training_data := fun _ => [] |}.

(** The environment of a later call: the clock has moved on. *)
Definition later_world : World :=
  {| HAS_OCR := false;
     image_to_string := fun _ => Raise IOError;
     pdf_pages := read_document documents;
     nlp_ents := fun _ => Ok [];
     phone_international := fun _ => Ok None;
     now_isoformat := str "2024-05-01T11:00:00";
     create_training_data := fun _ => [] |}.

Definition keyword_label (t : text) : text :=
  if contains (str "Invoice") t then str "invoice"
  else if contains (str "Receipt") t then str "receipt"
  else str "general".

(** Estimators whose fit always succeeds and that label a text by keyword. *)
Definition keyword_sklearn : Sklearn :=
  {| vectorizer_t := bool;
     classifier_t := bool;
     label_encoder_t := list text;
     matrix := list text;
     labels := list text;
     TfidfVectorizer := false;
     RandomForestClassifier := false;
     LogisticRegression := false;
     LabelEncoder := [];
     vec_fit_transform := fun _ docs => (true, Ok docs);
     le_fit_transform := fun _ ys => (list_set text_eqb ys, Ok ys);
     train_test_split := fun X y => Ok (X, X, y, y);
     clf_fit := fun _ _ _ => (true, Ok tt);
     clf_predict := fun _ X => Ok (List.map keyword_label X);
     classification_report := fun _ _ _ => Ok [];
     vec_transform := fun _ docs => Ok docs;
     le_inverse_transform := fun _ ys => Ok ys;
     vec_feature_count := fun _ => Ok 0;
     le_classes := fun le => Ok le |}.

Definition NotFittedError : exn :=
  {| exn_class := "NotFittedError"; exn_str := str "The TF-IDF vectorizer is not fitted" |}.

(** The same estimators with a vectorizer that raises on [transform]. *)
Definition failing_sklearn : Sklearn :=
  {| vectorizer_t := bool;
     classifier_t := bool;
     label_encoder_t := list text;
     matrix := list text;
     labels := list text;
     TfidfVectorizer := false;
     RandomForestClassifier := false;
     LogisticRegression := false;
     LabelEncoder := [];
     vec_fit_transform := fun _ docs => (true, Ok docs);
     le_fit_transform := fun _ ys => (list_set text_eqb ys, Ok ys);
     train_test_split := fun X y => Ok (X, X, y, y);
     clf_fit := fun _ _ _ => (true, Ok tt);
     clf_predict := fun _ X => Ok (List.map keyword_label X);
     classification_report := fun _ _ _ => Ok [];
     vec_transform := fun _ _ => Raise NotFittedError;
     le_inverse_transform := fun _ ys => Ok ys;
     vec_feature_count := fun _ => Ok 0;
     le_classes := fun le => Ok le |}.

Definition training_set : list (text * text) :=
  [ (str "Invoice #1", str "invoice"); (str "Receipt #2", str "receipt") ].

(** A parser trained once on [training_set]. *)
Definition trained_parser (SK : Sklearn) : @parser SK :=
  @train_model SK world (@new_parser SK) (Some training_set).


End Scenario.

(** ** What a pattern matches

    The words a pattern can read, as a relation: [matches fl r prev w rest]
    says that [r] reads exactly the word [w] when [prev] is the code point
    before it and [rest] the text after it.  The backtracking matcher only
    ever returns such matches. *)

Module ReSpec.

Import Re.

Definition last_char (prev : option N) (w : text) : option N :=
  match w with
  | [] => prev
  | _ :: _ => Some (List.last w 0%N)
  end.

Inductive matches (fl : flags) : regex -> option N -> text -> text -> Prop :=
| M_eps prev rest :
    matches fl Eps prev [] rest
| M_lit c x prev rest :
    lit_match fl c x = true -> matches fl (Lit c) prev [x] rest
| M_dot x prev rest :
    dot_match fl x = true -> matches fl Dot prev [x] rest
| M_class neg items x prev rest :
    class_match fl neg items x = true -> matches fl (Class neg items) prev [x] rest
| M_seq r1 r2 prev w1 w2 rest :
    matches fl r1 prev w1 (w2 ++ rest) ->
    matches fl r2 (last_char prev w1) w2 rest ->
    matches fl (Seq r1 r2) prev (w1 ++ w2) rest
| M_alt_l r1 r2 prev w rest :
    matches fl r1 prev w rest -> matches fl (Alt r1 r2) prev w rest
| M_alt_r r1 r2 prev w rest :
    matches fl r2 prev w rest -> matches fl (Alt r1 r2) prev w rest
| M_rep_stop greedy hi r prev rest :
    matches fl (Rep greedy 0 hi r) prev [] rest
| M_rep_more greedy lo hi r prev w1 w2 rest :
    hi <> Some 0 ->
    matches fl r prev w1 (w2 ++ rest) ->
    matches fl (Rep greedy (pred lo) (option_map pred hi) r) (last_char prev w1) w2 rest ->
    matches fl (Rep greedy lo hi r) prev (w1 ++ w2) rest
| M_group i r prev w rest :
    matches fl r prev w rest -> matches fl (Group i r) prev w rest
| M_look r prev w rest :
    matches fl r prev w rest -> matches fl (Look r) prev [] (w ++ rest)
| M_wordb prev rest :
    word_boundary prev rest = true -> matches fl WordB prev [] rest
| M_endz prev :
    matches fl EndZ prev [] [].

(** The pattern string is in the fragment the parser reads. *)
Definition parses (p : string) : bool :=
  match Re.parse p with
  | Some _ => true
  | None => false
  end.

(** [st'] is a state of the same attempt further on in the text. *)
Definition ahead (st st' : mstate) : Prop :=
  exists w, st_rest st = w ++ st_rest st' /\ st_pos st' = st_pos st + length w.

(** A matcher that looks at its continuation only on states further on. *)
Definition local_matcher (body : mstate -> cont -> option mstate) : Prop :=
  forall st (k k' : cont),
    (forall st', ahead st st' -> k st' = k' st') -> body st k = body st k'.

(** The code points a pattern can read, for a pattern without lookahead. *)
Fixpoint reads (fl : flags) (r : regex) (c : N) : bool :=
  match r with
  | Lit p => lit_match fl p c
  | Dot => dot_match fl c
  | Class neg items => class_match fl neg items c
  | Seq r1 r2 | Alt r1 r2 => reads fl r1 c || reads fl r2 c
  | Rep _ _ _ r1 | Group _ r1 => reads fl r1 c
  | Eps | Look _ | WordB | EndZ => false
  end.

(** The pattern that reads a given word, letter by letter. *)
Fixpoint word_re (w : text) : regex :=
  match w with
  | [] => Eps
  | [c] => Lit c
  | c :: w' => Seq (Lit c) (word_re w')
  end.

(** Two words of the same length whose letters match pairwise. *)
Fixpoint word_match (fl : flags) (w x : text) : bool :=
  match w, x with
  | [], [] => true
  | p :: w', c :: x' => lit_match fl p c && word_match fl w' x'
  | _, _ => false
  end.

(** [x] starts with a word that matches [w]. *)
Fixpoint word_prefix (fl : flags) (w x : text) : bool :=
  match w, x with
  | [], _ => true
  | p :: w', c :: x' => lit_match fl p c && word_prefix fl w' x'
  | _ :: _, [] => false
  end.

(** The positions of [t], counted from [i], at which a word matching
    [needle] starts. *)
Fixpoint positions_from (fl : flags) (needle t : text) (i : nat) : list nat :=
  (if word_prefix fl needle t then [i] else []) ++
  match t with
  | [] => []
  | _ :: t' => positions_from fl needle t' (S i)
  end.

Definition positions (fl : flags) (needle t : text) : list nat :=
  positions_from fl needle t 0.

End ReSpec.

(** ** The claims in the terms of the model *)

Module Claims.

Import DocumentParser.

Section Classifier.
Context {SK : Sklearn}.

(** An artifact that cannot be loaded: bytes that do not unpickle, or a
    dictionary without one of the keys [load_model] reads by subscript. *)
Definition is_corrupt (a : artifact) : bool :=
  match a with
  | Garbage => true
  | Pickle d =>
      match md_vectorizer d, md_classifier d, md_label_encoder d, md_is_trained d with
      | Some _, Some _, Some _, Some _ => false
      | _, _, _, _ => true
      end
  end.

(** C4 as the claim states it: after [load_model] on a missing or corrupt
    artifact the call has not raised and [is_trained] is false. *)
Definition load_failure_resets : Prop :=
  forall (self : parser) (path : text) (fs : filesystem),
    (fs !! path = None \/ exists a, fs !! path = Some a /\ is_corrupt a = true) ->
    snd (load_model self path fs) = Ok tt /\
    is_trained (fst (load_model self path fs)) = false.

(** The rows a call trains on and the record it makes of them. *)
Definition frame_of (W : World) (df : option dataframe) : dataframe :=
  match df with
  | Some d => d
  | None => create_training_data 1000
  end.

Definition record_of (W : World) (df : option dataframe) : training_record :=
  {| timestamp := now_isoformat; samples := length (frame_of W df) |}.

End Classifier.

Section Orchestrator.
Context {SK : Sklearn} {W : World}.

(** A parse that ended with [success: False] and the given error. *)
Definition failed_with (r : result parse_result) (msg : text) : Prop :=
  exists res, r = Ok res /\ success res = false /\ get_error res = Some msg.

(** C1 as the claim states it: the parse never raises; empty extracted text
    gives a failure with an error; and an exception of a later step,
    classification included, becomes a failure that carries its message. *)
Definition parse_converts_every_exception : Prop :=
  forall (self : parser) (path doc_type : text) (use_ml : bool),
    (exists res, parse_document self path doc_type use_ml = Ok res) /\
    (extract_text path = Ok [] ->
     exists msg, failed_with (parse_document self path doc_type use_ml) msg) /\
    (forall raw e, extract_text path = Ok raw -> raw <> [] ->
       (use_ml = true /\ is_trained self = true /\
        predict_document_type self (clean_text raw) = Raise e) \/
       nlp_ents (clean_text raw) = Raise e ->
       failed_with (parse_document self path doc_type use_ml) (exn_str e)).




End Orchestrator.

Section Cleaning.

(** C2 as the claim states it. *)
Definition clean_text_idempotent : Prop :=
  forall t : text, clean_text (clean_text t) = clean_text t.

Definition is_nil {A : Type} (l : list A) : bool :=
  match l with
  | [] => true
  | _ :: _ => false
  end.

(** A text in which a pass of [clean_text] finds nothing to remove: no page
    footer, no banner word, no two spaces in a row, no doubled quote. *)
Definition settled (u : text) : bool :=
  is_nil (Re.findall Re.no_flags page_footer u)
  && is_nil (Re.findall Re.no_flags boilerplate u)
  && negb (contains [32; 32]%N u)
  && negb (contains (dquote ++ dquote) u)
  && negb (contains (squote ++ squote) u).

End Cleaning.

Section Patterns.
Local Open Scope string_scope.

Definition known_types : list text :=
  List.map str ["invoice"; "receipt"; "contract"; "contact"; "general"]%string.

(** The code points the identifier group [[A-Z0-9-]+] reads under
    [re.IGNORECASE]. *)
Definition identifier_char (c : N) : bool :=
  Re.class_match Re.IGNORECASE false
    [Re.CRange 65 90; Re.CRange 48 57; Re.CChar 45] c.

(** The text after an identifier does not go on with an identifier
    character. *)
Definition identifier_ends (post : text) : bool :=
  match post with
  | [] => true
  | c :: _ => negb (identifier_char c)
  end.

(** C7 as the claim states it, for every text with the three substrings. *)
Definition invoice_scenario_claim : Prop :=
  forall t : text,
    contains (str "Invoice #INV-1001") t = true ->
    contains (str "Total: $1500.00") t = true ->
    contains (str "Tax: $120.00") t = true ->
    Dict.get (extract_with_patterns t (str "invoice")) "invoice_number"
    = Some [Re.FStr (str "INV-1001")] /\
    exists values,
      Dict.get (extract_with_patterns t (str "invoice")) "total_amount" = Some values /\
      List.In (Re.FStr (str "$1500.00")) values.

(** The rule table [extract_with_patterns] selects for a type. *)
Definition selected_table (doc_type : text) : rule_table :=
  match patterns_get patterns doc_type with
  | Some tbl => tbl
  | None => general_patterns
  end.

End Patterns.

End Claims.

(** ** The rest of the parser: training data from images, training report *)

Module ParserData.

Import DocumentParser.
Local Open Scope string_scope.
Local Open Scope list_scope.

(** [result.get('cleaned_text')] *)
Definition get_cleaned_text (r : parse_result) : option text :=
  match r with
  | Parsed _ _ _ _ _ _ c _ => Some c
  | Failed _ _ => None
  end.

(** [result.get('contact_info')] *)
Definition get_contact_info (r : parse_result) : option (Dict.dict (list Re.found)) :=
  match r with
  | Parsed _ _ c _ _ _ _ _ => Some c
  | Failed _ _ => None
  end.

(** A path an image directory lists: [str(image_path)] and
    [image_path.name]. *)
Record image_file := {
  image_path : text;
  image_name : text
}.

(** The directory of images as [pathlib] shows it: [Path(dir).exists()] and
    [Path(dir).glob(extension)]. *)
Class ImageFolder := {
  folder_exists : text -> bool;
  folder_glob : text -> string -> list image_file
}.

(** A row of the frame [load_training_data_from_images] builds. *)
Record image_sample := {
  sample_text : text;
  sample_document_type : text;
  sample_source_file : text
}.

Definition image_extensions : list string :=
  ["*.jpg"; "*.jpeg"; "*.png"; "*.bmp"; "*.tiff"].

Section Images.
Context {W : World} {F : ImageFolder}.

(** One turn of the inner loop: the file gives a row when OCR reads text
    that is not blank. *)
Definition image_rows (document_type : text) (f : image_file) : list image_sample :=
  match extract_text_from_image (image_path f) with
  | Ok t =>
      match strip t with
      | _ :: _ =>
          [ {| sample_text := t;
               sample_document_type := document_type;
               sample_source_file := image_name f |} ]
      | [] => []
      end
  | Raise _ => []
  end.

Definition load_training_data_from_images (image_dir document_type : text)
    : list image_sample :=
  if negb HAS_OCR then []
  else if negb (folder_exists image_dir) then []
  else
    flat_map (fun extension =>
                flat_map (image_rows document_type) (folder_glob image_dir extension))
             image_extensions.

End Images.

Section Info.
Context {SK : Sklearn}.

(** The dictionary [get_training_info] returns. *)
Record training_info := {
  info_training_samples : nat;
  info_training_history : list training_record;
  info_is_trained : bool;
  info_classes : list text
}.

Definition get_training_info (self : parser) : result training_info :=
  classes <- (if is_trained self then le_classes (label_encoder self) else Ok []) ;;
  Ok {| info_training_samples := last_training_samples self;
        info_training_history := training_history self;
        info_is_trained := is_trained self;
        info_classes := classes |}.

End Info.

End ParserData.

(** ** The training pipeline ([src/training_pipeline.py]) *)

Module TrainingPipeline.

Import DocumentParser.
Local Open Scope string_scope.
Local Open Scope list_scope.

(** The directory tree of the labelled documents: [os.path.exists] and
    [os.listdir], which raises on what is not a directory. *)
Class Directory := {
  os_path_exists : text -> bool;
  os_listdir : text -> result (list text)
}.

(** [os.path.join(a, b)] (POSIX). *)
Definition os_path_join (a b : text) : text :=
  if startswith [slash] b then b
  else
    match a with
    | [] => b
    | _ :: _ => if endswith a [slash] then a ++ b else a ++ [slash] ++ b
    end.

Definition type_mapping : list (string * string) :=
  [ ("invoices", "invoice");
    ("receipts", "receipt");
    ("contracts", "contract");
    ("letters", "letter") ].

(** A row of the frame [load_labeled_data] builds. *)
Record labeled_row := {
  row_text : text;
  row_document_type : text;
  row_file_path : text
}.

Section Pipeline.
Context {SK : Sklearn} {W : World} {D : Directory}.

(** [TrainingPipeline]: the directory and the parser it trains. *)
Record pipeline := {
  data_dir : text;
  pipeline_parser : parser
}.

(** [TrainingPipeline(data_dir)] *)
Definition new_pipeline (dir : text) : pipeline :=
  {| data_dir := dir; pipeline_parser := new_parser |}.

(** The loop over the files of one folder. *)
Definition folder_rows (folder_path : text) (doc_type : string) (filenames : list text)
    : list labeled_row :=
  flat_map (fun filename =>
              if endswith filename (str ".pdf") then
                let file_path := os_path_join folder_path filename in
                match extract_text_from_pdf file_path with
                | Ok t =>
                    if (50 <? length t)%nat
                    then [ {| row_text := t;
                              row_document_type := str doc_type;
                              row_file_path := file_path |} ]
                    else []
                | Raise _ => []
                end
              else [])
           filenames.

(** The loop over the folders of [type_mapping]; an exception of
    [os.listdir] leaves the method. *)
Fixpoint load_folders (dir : text) (mapping : list (string * string))
    (acc : list labeled_row) : result (list labeled_row) :=
  match mapping with
  | [] => Ok acc
  | (folder, doc_type) :: rest =>
      let folder_path := os_path_join dir (str folder) in
      if negb (os_path_exists folder_path) then load_folders dir rest acc
      else
        filenames <- os_listdir folder_path ;;
        load_folders dir rest (acc ++ folder_rows folder_path doc_type filenames)
  end.

Definition load_labeled_data (self : pipeline) : result (list labeled_row) :=
  load_folders (data_dir self) type_mapping [].




End Pipeline.

End TrainingPipeline.

(** ** The batch processor ([src/batch_processor.py]) *)

Module BatchProcessor.

Import DocumentParser.
Local Open Scope string_scope.
Local Open Scope list_scope.

(** A path of the input directory: [pdf_file.name] and [str(pdf_file)]. *)
Record pdf_file := {
  pdf_name : text;
  pdf_path : text
}.

(** The two directories: [input_path.glob("*.pdf")], and the writing of the
    result of one file as JSON, which gives [str(output_file)] or raises. *)
Class Directories := {
  glob_pdf : text -> list pdf_file;
  dump_result : text -> pdf_file -> parse_result -> result text
}.

(** An entry of the list [process_directory] returns. *)
Inductive entry :=
| Processed (file : text) (output_file : text)
| NotProcessed (file : text) (error : option text).




Section Batch.
Context {SK : Sklearn} {W : World} {B : Directories}.

(** One turn of the loop, with its [try] and [except]. *)
Definition process_file (parser : parser) (output_dir : text) (f : pdf_file) : entry :=
  match
    (res <- parse_document parser (pdf_path f) (str "general") false ;;
     if success res then
       output_file <- dump_result output_dir f res ;;
       Ok (Processed (pdf_name f) output_file)
     else Ok (NotProcessed (pdf_name f) (get_error res)))
  with
  | Ok e => e
  | Raise e => NotProcessed (pdf_name f) (Some (exn_str e))
  end.

Definition process_directory (input_dir output_dir : text) (model_path : option text)
    (fs : filesystem) : list entry :=
  let parser := fst (init model_path fs) in
  List.map (process_file parser output_dir) (glob_pdf input_dir).


End Batch.

End BatchProcessor.

(** ** The shapes the statements speak of *)

Module Shapes.

Import DocumentParser.
Local Open Scope string_scope.
Local Open Scope list_scope.

(** The pages read before the first one that raises. *)
Fixpoint readable (pages : list (result text)) : list text :=
  match pages with
  | Ok page :: rest => page :: readable rest
  | _ => []
  end.

(** Every page that has text, followed by a line feed. *)
Definition page_lines (pages : list text) : text :=
  flat_map (fun page =>
              match page with
              | [] => []
              | _ :: _ => page ++ [10%N]
              end)
           pages.

(** The path has one of the image extensions, in any case. *)
Definition is_image_path (path : text) : bool :=
  existsb (fun sfx => endswith (lower path) (str sfx)) image_suffixes.



(** The first of the names that has two parts at least. *)
Definition first_full_name (persons : list text) : option text :=
  List.find (fun p => (2 <=? length (split_ws p))%nat) persons.

Section Rows.
Import TrainingPipeline.
Context {W : World} {D : TrainingPipeline.Directory}.

(** What holds of a row of the frame of labelled documents read under
    [dir]: its file is a PDF listed in one of the four folders, its label is
    that of the folder, and its text, longer than 50 code points, is what
    the PDF reader returns for the file. *)
Definition labeled_row_ok (dir : text) (r : labeled_row) : Prop :=
  50 < length (row_text r) /\
  endswith (row_file_path r) (str ".pdf") = true /\
  extract_text_from_pdf (row_file_path r) = Ok (row_text r) /\
  exists folder doc_type filenames filename,
    List.In (folder, doc_type) type_mapping /\
    row_document_type r = str doc_type /\
    os_listdir (os_path_join dir (str folder)) = Ok filenames /\
    List.In filename filenames /\
    row_file_path r = os_path_join (os_path_join dir (str folder)) filename.

End Rows.

(** The margins of a text are not whitespace. *)
Definition trimmed (t : text) : bool :=
  match t with
  | [] => true
  | c :: _ => negb (isspace c) && negb (isspace (List.last t c))
  end.

End Shapes.

(** ** More environments *)

Module Scenario2.

Import DocumentParser Scenario ParserData TrainingPipeline BatchProcessor.
Local Open Scope string_scope.
Local Open Scope list_scope.

Definition FitError : exn :=
  {| exn_class := "ValueError"; exn_str := str "n_estimators must be positive" |}.

(** Estimators whose random forest cannot be fitted: classifier [0] is the
    forest, [1] the logistic regression, [2] the regression once fitted. *)
Definition fragile_sklearn : Sklearn :=
  {| vectorizer_t := bool;
     classifier_t := nat;
     label_encoder_t := list text;
     matrix := list text;
     labels := list text;
     TfidfVectorizer := false;
     RandomForestClassifier := 0;
     LogisticRegression := 1;
     LabelEncoder := [];
     vec_fit_transform := fun _ docs => (true, Ok docs);
     le_fit_transform := fun _ ys => (list_set text_eqb ys, Ok ys);
     train_test_split := fun X y => Ok (X, X, y, y);
     clf_fit := fun c _ _ =>
                  match c with
                  | 0 => (0, Raise FitError)
                  | _ => (2, Ok tt)
                  end;
     clf_predict := fun _ X => Ok (List.map keyword_label X);
     classification_report := fun _ _ _ => Ok [];
     vec_transform := fun _ docs => Ok docs;
     le_inverse_transform := fun _ ys => Ok ys;
     vec_feature_count := fun _ => Ok 0;
     le_classes := fun le => Ok le |}.

(** Estimators whose classifiers cannot be fitted, neither the forest nor
    the regression. *)
Definition broken_sklearn : Sklearn :=
  {| vectorizer_t := bool;
     classifier_t := nat;
     label_encoder_t := list text;
     matrix := list text;
     labels := list text;
     TfidfVectorizer := false;
     RandomForestClassifier := 0;
     LogisticRegression := 1;
     LabelEncoder := [];
     vec_fit_transform := fun _ docs => (true, Ok docs);
     le_fit_transform := fun _ ys => (list_set text_eqb ys, Ok ys);
     train_test_split := fun X y => Ok (X, X, y, y);
     clf_fit := fun c _ _ => (c, Raise FitError);
     clf_predict := fun _ X => Ok (List.map keyword_label X);
     classification_report := fun _ _ _ => Ok [];
     vec_transform := fun _ docs => Ok docs;
     le_inverse_transform := fun _ ys => Ok ys;
     vec_feature_count := fun _ => Ok 0;
     le_classes := fun le => Ok le |}.

(** An artifact written before the training history was stored. *)
Definition legacy_artifact : @artifact keyword_sklearn :=
  Pickle (@Build_model_data keyword_sklearn
            (Some true) (Some true) (Some [str "invoice"; str "receipt"])
            (Some true) None None).


(** An entity recogniser that finds a person, a city and a product twice. *)
Definition entity_world : World :=
  {| HAS_OCR := true;
     image_to_string := fun path =>
                          if text_eqb path (str "scans/a.png")
                          then Ok (str "Receipt 12/31/2023 Total: $12.50")
                          else if text_eqb path (str "scans/b.png") then Ok (str "  ")
                          else Raise IOError;
     pdf_pages := fun path =>
                    if text_eqb path (str "docs/blank.pdf") then Ok [Ok (str "   ")]
                    else if text_eqb path (str "docs/torn.pdf")
                    then Ok [Ok (str "first page"); Ok []; Raise IOError; Ok (str "lost")]
                    else if text_eqb path (str "data/invoices/long.pdf")
                    then Ok [Ok (str "Invoice #INV-1001 Total: $1500.00 Tax: $120.00 Due: 01/02/2024")]
                    else read_document documents path;
     nlp_ents := fun _ =>
                   Ok [ (str "Ada", str "PERSON");
                        (str "Grace Brewster Hopper", str "PERSON");
                        (str "Paris", str "GPE");
                        (str "Widget", str "PRODUCT");
                        (str "Widget", str "PRODUCT");
                        (str "Tuesday", str "TIME") ];
     phone_international := fun _ => Ok None;
     now_isoformat := str "2024-05-01T10:00:00";
     create_training_data := fun _ => [] |}.

Definition scans : ImageFolder :=
  {| folder_exists := fun dir => text_eqb dir (str "scans");
     folder_glob := fun dir extension =>
                      if String.eqb extension "*.png"
                      then [ {| image_path := str "scans/a.png"; image_name := str "a.png" |};
                             {| image_path := str "scans/b.png"; image_name := str "b.png" |};
                             {| image_path := str "scans/c.png"; image_name := str "c.png" |} ]
                      else [] |}.

Definition labeled_tree : Directory :=
  {| os_path_exists := fun path => text_eqb path (str "data/invoices");
     os_listdir := fun path =>
                     if text_eqb path (str "data/invoices")
                     then Ok [str "long.pdf"; str "notes.txt"]
                     else Raise IOError |}.

Definition inbox : Directories :=
  {| glob_pdf := fun dir =>
                   [ {| pdf_name := str "a.pdf"; pdf_path := str "docs/a.pdf" |};
                     {| pdf_name := str "missing.pdf"; pdf_path := str "docs/missing.pdf" |} ];
     dump_result := fun out f _ => Ok (out ++ str "/" ++ pdf_name f) |}.

End Scenario2.
(** * Properties *)

(** ** Equality tests *)

Lemma text_eqb_eq (a b : text) : text_eqb a b = true <-> a = b.
Proof.
  revert b. induction a as [|x a IH]; intros [|y b]; simpl; split; intros H;
    try reflexivity; try discriminate.
  - apply andb_true_iff in H as [Hx Hab]. apply N.eqb_eq in Hx.
    apply IH in Hab. congruence.
  - injection H as -> ->. rewrite N.eqb_refl. simpl. now apply IH.
Qed.

Lemma text_eqb_refl (a : text) : text_eqb a a = true.
Proof. now apply text_eqb_eq. Qed.

Lemma text_eqb_neq (a b : text) : text_eqb a b = false <-> a <> b.
Proof.
  split.
  - intros H E. apply text_eqb_eq in E. congruence.
  - intros H. destruct (text_eqb a b) eqn:E; [|reflexivity].
    apply text_eqb_eq in E. contradiction.
Qed.

(** ** The matcher returns matches *)

Section MatcherSound.
Import Re ReSpec.
Variable fl : flags.

Lemma last_app_cons (w1 w2 : text) (c d : N) :
  List.last (w1 ++ c :: w2) d = List.last (c :: w2) d.
Proof.
  induction w1 as [|x w1 IH]; [reflexivity|].
  cbn [app]. rewrite <- IH. cbn [List.last].
  destruct (w1 ++ c :: w2) eqn:E; [|reflexivity].
  now destruct w1.
Qed.

Lemma last_char_app (prev : option N) (w1 w2 : text) :
  last_char (last_char prev w1) w2 = last_char prev (w1 ++ w2).
Proof.
  destruct w2 as [|c w2]; cbn [last_char].
  - now rewrite app_nil_r.
  - destruct w1 as [|d w1]; [reflexivity|].
    cbn [app last_char]. f_equal.
    change (d :: w1 ++ c :: w2) with ((d :: w1) ++ c :: w2).
    now rewrite last_app_cons.
Qed.

(** What it means for a matcher of [r] to be sound. *)
Local Abbreviation sound_for r body :=
  (forall prev pos s caps (k : cont) res,
     body (MState prev pos s caps) k = Some res ->
     exists w rest caps',
       s = w ++ rest /\ matches fl r prev w rest /\
       k (MState (last_char prev w) (pos + length w) rest caps') = Some res).

Lemma one_char_sound (ok : N -> bool) (r : regex) :
  (forall x prev rest, ok x = true -> matches fl r prev [x] rest) ->
  sound_for r (one_char ok).
Proof.
  intros Hr prev pos s caps k res H. unfold one_char in H. cbn [st_rest] in H.
  destruct s as [|x s]; [discriminate|].
  destruct (ok x) eqn:E; [|discriminate].
  exists [x], s, caps. repeat split; [now apply Hr|].
  cbn [length last_char List.last st_pos st_caps] in *.
  now rewrite Nat.add_1_r.
Qed.

Lemma rep_loop_sound (r : regex) (body : mstate -> cont -> option mstate) :
  sound_for r body ->
  forall fuel greedy lo hi,
    sound_for (Rep greedy lo hi r) (rep_loop fuel body greedy lo hi).
Proof.
  intros Hbody fuel.
  induction fuel as [|f IH]; intros greedy lo hi prev pos s caps k res H;
    [discriminate|].
  cbn [rep_loop] in H.
  assert (Hstop :
    (if (lo =? 0)%nat then k (MState prev pos s caps) else None) = Some res ->
    exists w rest caps',
      s = w ++ rest /\ matches fl (Rep greedy lo hi r) prev w rest /\
      k (MState (last_char prev w) (pos + length w) rest caps') = Some res).
  { intros Hs. destruct (lo =? 0)%nat eqn:E; [|discriminate].
    apply Nat.eqb_eq in E. subst lo.
    exists [], s, caps. repeat split; [constructor|].
    cbn [length last_char]. now rewrite Nat.add_0_r. }
  assert (Hmore :
    match hi with
    | Some 0 => None
    | _ =>
        body (MState prev pos s caps)
          (fun st' =>
             if (st_pos (MState prev pos s caps) <? st_pos st')%nat || (1 <? lo)%nat
             then rep_loop f body greedy (pred lo) (option_map pred hi) st' k
             else k st')
    end = Some res ->
    exists w rest caps',
      s = w ++ rest /\ matches fl (Rep greedy lo hi r) prev w rest /\
      k (MState (last_char prev w) (pos + length w) rest caps') = Some res).
  { intros Hm.
    assert (Hhi : hi <> Some 0) by (intros ->; discriminate).
    assert (Hm' :
      body (MState prev pos s caps)
        (fun st' =>
           if (st_pos (MState prev pos s caps) <? st_pos st')%nat || (1 <? lo)%nat
           then rep_loop f body greedy (pred lo) (option_map pred hi) st' k
           else k st') = Some res).
    { destruct hi as [[|n]|]; [contradiction|exact Hm|exact Hm]. }
    apply Hbody in Hm' as (w1 & rest1 & caps1 & Hs & Hw1 & Hk).
    cbv beta in Hk.
    destruct ((st_pos (MState prev pos s caps)
               <? st_pos (MState (last_char prev w1) (pos + length w1) rest1 caps1))%nat
              || (1 <? lo)%nat) eqn:E.
    - apply IH in Hk as (w2 & rest & caps2 & Hs2 & Hw2 & Hk).
      exists (w1 ++ w2), rest, caps2. subst rest1. subst s.
      rewrite <- app_assoc. split; [reflexivity|]. split.
      + now apply M_rep_more.
      + rewrite <- last_char_app, length_app, Nat.add_assoc. exact Hk.
    - apply orb_false_iff in E as [_ Hlo]. apply Nat.ltb_ge in Hlo.
      exists (w1 ++ []), rest1, caps1. rewrite app_nil_r. split; [exact Hs|]. split.
      + rewrite <- (app_nil_r w1) at 1. apply M_rep_more; [exact Hhi| |].
        * now rewrite app_nil_l.
        * replace (pred lo) with 0 by lia. constructor.
      + exact Hk. }
  destruct greedy;
    match type of Hmore with
    | ?more = _ -> _ =>
        match type of Hstop with
        | ?stop = _ -> _ =>
            destruct more as [r1|] eqn:Em; destruct stop as [r2|] eqn:Es;
            first [discriminate H
                  | apply Hmore; exact H
                  | apply Hstop; exact H]
        end
    end.
Qed.

(** Soundness of the matcher: a successful run has read a word the pattern
    matches and has handed the state after it to the continuation. *)
Lemma m_sound (r : regex) : sound_for r (m fl r).
Proof.
  induction r as [ |c| |neg items|r1 IH1 r2 IH2|r1 IH1 r2 IH2|greedy lo hi r1 IH1
                 |i r1 IH1|r1 IH1| | ];
    intros prev pos s caps k res H; cbn [m] in H.
  - exists [], s, caps. repeat split; [constructor|].
    cbn [length last_char]. now rewrite Nat.add_0_r.
  - revert prev pos s caps k res H. apply one_char_sound. intros. now constructor.
  - revert prev pos s caps k res H. apply one_char_sound. intros. now constructor.
  - revert prev pos s caps k res H. apply one_char_sound. intros. now constructor.
  - apply IH1 in H as (w1 & rest1 & caps1 & Hs & Hw1 & Hk).
    apply IH2 in Hk as (w2 & rest & caps2 & Hs2 & Hw2 & Hk).
    exists (w1 ++ w2), rest, caps2. subst rest1 s. rewrite <- app_assoc.
    repeat split; [now constructor|].
    rewrite <- last_char_app, length_app, Nat.add_assoc. exact Hk.
  - destruct (m fl r1 (MState prev pos s caps) k) as [res1|] eqn:E.
    + injection H as <-. apply IH1 in E as (w & rest & caps' & Hs & Hw & Hk).
      exists w, rest, caps'. repeat split; [assumption|now apply M_alt_l|assumption].
    + apply IH2 in H as (w & rest & caps' & Hs & Hw & Hk).
      exists w, rest, caps'. repeat split; [assumption|now apply M_alt_r|assumption].
  - revert H. now apply rep_loop_sound.
  - apply IH1 in H as (w & rest & caps' & Hs & Hw & Hk).
    unfold set_cap in Hk. cbn [st_prev st_pos st_rest st_caps] in Hk.
    eexists w, rest, _. repeat split; [assumption|now constructor|exact Hk].
  - destruct (m fl r1 (MState prev pos s caps) Some) as [st'|] eqn:E; [|discriminate].
    apply IH1 in E as (w & rest & caps' & Hs & Hw & Hk).
    cbn [st_prev st_pos st_rest] in H.
    exists [], s, (st_caps st'). repeat split.
    + subst s. now constructor.
    + cbn [length last_char]. now rewrite Nat.add_0_r.
  - destruct (at_boundary (MState prev pos s caps)) eqn:E; [|discriminate].
    exists [], s, caps. repeat split; [now constructor|].
    cbn [length last_char]. now rewrite Nat.add_0_r.
  - cbn [st_rest] in H. destruct s as [|x s]; [|discriminate].
    exists [], [], caps. repeat split; [constructor|].
    cbn [length last_char]. now rewrite Nat.add_0_r.
Qed.

(** A successful attempt at a position reports the length of a word that
    the pattern matches and that starts the text there. *)
Lemma match_at_sound (r : regex) (prev : option N) (s : text) (len : nat)
    (caps : captures) :
  match_at fl r prev s = Some (len, caps) ->
  exists w rest, s = w ++ rest /\ matches fl r prev w rest /\ len = length w.
Proof.
  unfold match_at. intros H.
  destruct (m fl r (MState prev 0 s []) Some) as [st'|] eqn:E; [|discriminate].
  injection H as <- <-.
  apply m_sound in E as (w & rest & caps' & Hs & Hw & Hk).
  injection Hk as <-. exists w, rest. repeat split; assumption.
Qed.

(** A word the pattern matches is made of code points it reads. *)
Lemma matches_reads (r : regex) (prev : option N) (w rest : text) :
  matches fl r prev w rest -> List.Forall (fun c => reads fl r c = true) w.
Proof.
  induction 1; cbn [reads]; try (constructor; [assumption|constructor]);
    try constructor.
  - apply List.Forall_app. split.
    + eapply List.Forall_impl; [|exact IHmatches1]. cbv beta. intros c ->. reflexivity.
    + eapply List.Forall_impl; [|exact IHmatches2]. cbv beta. intros c ->.
      apply orb_true_r.
  - eapply List.Forall_impl; [|exact IHmatches]. cbv beta. intros c ->. reflexivity.
  - eapply List.Forall_impl; [|exact IHmatches]. cbv beta. intros c ->.
    apply orb_true_r.
  - apply List.Forall_app. split; assumption.
  - assumption.
Qed.

End MatcherSound.

(** ** The fuel of a repetition is enough *)

Section MatcherFuel.
Import Re ReSpec.
Variable fl : flags.

Lemma ahead_refl (st : mstate) : ahead st st.
Proof. exists []. split; [reflexivity|]. cbn [length]. lia. Qed.

Lemma ahead_trans (st1 st2 st3 : mstate) :
  ahead st1 st2 -> ahead st2 st3 -> ahead st1 st3.
Proof.
  intros (w1 & H1 & P1) (w2 & H2 & P2). exists (w1 ++ w2).
  rewrite <- app_assoc, <- H2, length_app. split; [exact H1|lia].
Qed.

Lemma ahead_length (st st' : mstate) :
  ahead st st' ->
  length (st_rest st') <= length (st_rest st) /\
  ((st_pos st <? st_pos st')%nat = true ->
   length (st_rest st') < length (st_rest st)).
Proof.
  intros (w & H & P). rewrite H, length_app. split; [lia|].
  intros Hlt. apply Nat.ltb_lt in Hlt. lia.
Qed.

Lemma one_char_local (ok : N -> bool) : local_matcher (one_char ok).
Proof.
  intros [prev pos s caps] k k' H. unfold one_char. cbn [st_rest st_pos st_caps].
  destruct s as [|x s]; [reflexivity|]. destruct (ok x); [|reflexivity].
  apply H. exists [x]. cbn [st_rest st_pos app length]. split; [reflexivity|lia].
Qed.

Lemma rep_loop_local (body : mstate -> cont -> option mstate) :
  local_matcher body ->
  forall fuel greedy lo hi, local_matcher (rep_loop fuel body greedy lo hi).
Proof.
  intros Hbody fuel. induction fuel as [|f IH]; intros greedy lo hi st k k' H;
    [reflexivity|].
  cbn [rep_loop]. rewrite (H st (ahead_refl st)).
  replace (body st (fun st' =>
             if (st_pos st <? st_pos st')%nat || (1 <? lo)%nat
             then rep_loop f body greedy (pred lo) (option_map pred hi) st' k
             else k st'))
    with (body st (fun st' =>
             if (st_pos st <? st_pos st')%nat || (1 <? lo)%nat
             then rep_loop f body greedy (pred lo) (option_map pred hi) st' k'
             else k' st')); [reflexivity|].
  apply Hbody. intros st' Hst'. cbv beta.
  destruct ((st_pos st <? st_pos st')%nat || (1 <? lo)%nat).
  - symmetry. apply IH. intros st'' Hst''. apply H. now apply (ahead_trans st st' st'').
  - symmetry. now apply H.
Qed.

Lemma m_local (r : regex) : local_matcher (m fl r).
Proof.
  induction r as [ |c| |neg items|r1 IH1 r2 IH2|r1 IH1 r2 IH2|greedy lo hi r1 IH1
                 |i r1 IH1|r1 IH1| | ];
    intros st k k' H; cbn [m].
  - apply H, ahead_refl.
  - now apply one_char_local.
  - now apply one_char_local.
  - now apply one_char_local.
  - apply IH1. intros st' Hst'. apply IH2. intros st'' Hst''.
    apply H. now apply (ahead_trans st st' st'').
  - rewrite (IH1 st k k' H), (IH2 st k k' H). reflexivity.
  - now apply rep_loop_local.
  - apply IH1. intros st' Hst'. apply H.
    destruct Hst' as (w & Hw & Hp). exists w. now cbn [set_cap st_rest st_pos].
  - destruct (m fl r1 st Some) as [st'|]; [|reflexivity].
    apply H. exists []. cbn [st_rest st_pos app length]. split; [reflexivity|lia].
  - rewrite (H st (ahead_refl st)). reflexivity.
  - rewrite (H st (ahead_refl st)). reflexivity.
Qed.

(** Any fuel above the length of the remaining text plus the lower bound
    gives the same result: the repetition never stops for lack of fuel. *)
Lemma rep_loop_fuel (body : mstate -> cont -> option mstate) :
  local_matcher body ->
  forall fuel fuel' greedy lo hi st k,
    length (st_rest st) + lo < fuel ->
    length (st_rest st) + lo < fuel' ->
    rep_loop fuel body greedy lo hi st k = rep_loop fuel' body greedy lo hi st k.
Proof.
  intros Hbody fuel.
  induction fuel as [|f IH]; intros fuel' greedy lo hi st k Hf Hf'; [lia|].
  destruct fuel' as [|f']; [lia|]. cbn [rep_loop].
  replace (body st (fun st' =>
             if (st_pos st <? st_pos st')%nat || (1 <? lo)%nat
             then rep_loop f body greedy (pred lo) (option_map pred hi) st' k
             else k st'))
    with (body st (fun st' =>
             if (st_pos st <? st_pos st')%nat || (1 <? lo)%nat
             then rep_loop f' body greedy (pred lo) (option_map pred hi) st' k
             else k st')); [reflexivity|].
  apply Hbody. intros st' Hst'. cbv beta.
  destruct (ahead_length st st' Hst') as [Hle Hlt].
  destruct (st_pos st <? st_pos st')%nat eqn:E; cbn [orb].
  - specialize (Hlt eq_refl). symmetry. apply IH; lia.
  - destruct (1 <? lo)%nat eqn:E1; [|reflexivity].
    apply Nat.ltb_lt in E1. symmetry. apply IH; lia.
Qed.

(** The matcher with more fuel for a repetition is the same matcher. *)
Lemma m_rep_fuel (greedy : bool) (lo : nat) (hi : option nat) (r : regex)
    (st : mstate) (k : cont) (extra : nat) :
  m fl (Rep greedy lo hi r) st k
  = rep_loop (S (length (st_rest st) + lo) + extra) (m fl r) greedy lo hi st k.
Proof.
  cbn [m]. apply rep_loop_fuel; [apply m_local|lia|lia].
Qed.

End MatcherFuel.

(** ** Words and positions *)

Section Words.
Import Re ReSpec.
Variable fl : flags.

Lemma word_match_length (a b : text) :
  word_match fl a b = true -> length a = length b.
Proof.
  revert b. induction a as [|p a IH]; intros [|c b] H; cbn [word_match] in H;
    try discriminate; [reflexivity|].
  apply andb_true_iff in H as [_ H]. cbn [length]. f_equal. now apply IH.
Qed.

Lemma word_match_skipn (j : nat) (a b : text) :
  word_match fl a b = true -> word_match fl (skipn j a) (skipn j b) = true.
Proof.
  revert a b. induction j as [|j IH]; intros a b H; [exact H|].
  destruct a as [|p a], b as [|c b]; cbn [word_match] in H; try discriminate;
    [reflexivity|].
  apply andb_true_iff in H as [_ H]. cbn [skipn]. now apply IH.
Qed.

Lemma word_match_prefix (a b rest : text) :
  word_match fl a b = true -> word_prefix fl a (b ++ rest) = true.
Proof.
  revert b. induction a as [|p a IH]; intros [|c b] H; cbn [word_match] in H;
    try discriminate; [reflexivity|].
  apply andb_true_iff in H as [Hc H]. cbn [app word_prefix].
  rewrite Hc. now apply IH.
Qed.

Lemma word_prefix_firstn (n : nat) (a t : text) :
  word_prefix fl a t = true -> word_prefix fl (firstn n a) t = true.
Proof.
  revert a t. induction n as [|n IH]; intros a t H; [reflexivity|].
  destruct a as [|p a]; [reflexivity|].
  destruct t as [|c t]; cbn [word_prefix] in H; [discriminate|].
  apply andb_true_iff in H as [Hc H]. cbn [firstn word_prefix].
  rewrite Hc. now apply IH.
Qed.

Lemma skipn_length_app (a b : text) : skipn (length a) (a ++ b) = b.
Proof. induction a as [|c a IH]; [reflexivity|exact IH]. Qed.

Lemma skipn_app_le (j : nat) (a b : text) :
  j <= length a -> skipn j (a ++ b) = skipn j a ++ b.
Proof.
  revert a. induction j as [|j IH]; intros a H; [reflexivity|].
  destruct a as [|c a]; cbn [length] in H; [lia|].
  cbn [app skipn]. apply IH. lia.
Qed.

(** A word that [word_re w] matches is [w], letter by letter. *)
Lemma matches_word_re (w x : text) (prev : option N) (rest : text) :
  matches fl (word_re w) prev x rest -> word_match fl w x = true.
Proof.
  revert x prev. induction w as [|c w IH]; intros x prev H.
  - inversion H; subst. reflexivity.
  - destruct w as [|c' w].
    + inversion H; subst. cbn [word_match]. now rewrite andb_true_r.
    + change (word_re (c :: c' :: w)) with (Seq (Lit c) (word_re (c' :: w))) in H.
      inversion H as [ | | | |r1 r2 p w1 w2 rs H1 H2| | | | | | | | ]; subst.
      inversion H1; subst. cbn [app word_match].
      apply andb_true_iff. split; [assumption|]. eapply IH. exact H2.
Qed.

(** Every position at which a word matching [needle] starts is listed. *)
Lemma positions_from_complete (needle a b : text) (i : nat) :
  word_prefix fl needle b = true ->
  List.In (i + length a) (positions_from fl needle (a ++ b) i).
Proof.
  revert i. induction a as [|c a IH]; intros i H.
  - cbn [app length]. rewrite Nat.add_0_r.
    destruct b as [|c b]; cbn [positions_from]; rewrite H; now left.
  - cbn [app length positions_from]. apply List.in_or_app. right.
    rewrite Nat.add_succ_r. apply (IH (S i) H).
Qed.

End Words.

(** ** Scanning a text for matches *)

Section Scanning.
Import Re ReSpec.
Variables (fl : flags) (r : regex).

Lemma last_char_cons (prev : option N) (c : N) (w : text) :
  last_char prev (c :: w) = last_char (Some c) w.
Proof.
  destruct w as [|d w]; reflexivity.
Qed.

(** Stepping over the rest of a match. *)
Lemma findall_from_skip (w rest : text) (prev : option N) :
  findall_from fl r prev (w ++ rest) (length w)
  = findall_from fl r (last_char prev w) rest 0.
Proof.
  revert prev. induction w as [|c w IH]; intros prev; [reflexivity|].
  cbn [app length findall_from]. rewrite IH. now rewrite last_char_cons.
Qed.

(** A match that reads the non-empty word [w] is reported, and the scan
    goes on after [w]. *)
Lemma findall_from_match (w rest : text) (prev : option N) (len : nat)
    (caps : captures) :
  match_at fl r prev (w ++ rest) = Some (len, caps) ->
  len = length w -> w <> [] ->
  findall_from fl r prev (w ++ rest) 0
  = found_of r (firstn len (w ++ rest)) caps
    :: findall_from fl r (last_char prev w) rest 0.
Proof.
  intros Hm -> Hw. destruct w as [|c w]; [contradiction|].
  cbn [app findall_from]. cbn [app] in Hm. rewrite Hm. f_equal.
  cbn [length pred]. now rewrite findall_from_skip, last_char_cons.
Qed.

(** If the matches that start in [pre] end in [pre], the scan reaches the
    text after [pre] at a position where it tries the pattern. *)
Lemma findall_from_reaches (pre rest : text) :
  (forall a b prev len caps,
     pre = a ++ b -> b <> [] ->
     match_at fl r prev (b ++ rest) = Some (len, caps) -> len <= length b) ->
  forall prev skip, skip <= length pre ->
    exists items,
      findall_from fl r prev (pre ++ rest) skip
      = items ++ findall_from fl r (last_char prev pre) rest 0.
Proof.
  induction pre as [|c pre IH]; intros Hin prev skip Hskip.
  - exists []. cbn [length] in Hskip. now replace skip with 0 by lia.
  - assert (Hin' : forall a b prev len caps,
              pre = a ++ b -> b <> [] ->
              match_at fl r prev (b ++ rest) = Some (len, caps) -> len <= length b).
    { intros a b p len caps -> Hb Hm. apply (Hin (c :: a) b p len caps); auto. }
    rewrite last_char_cons. cbn [length] in Hskip.
    destruct skip as [|n].
    + cbn [app findall_from].
      destruct (match_at fl r prev (c :: pre ++ rest)) as [[len caps]|] eqn:E.
      * assert (Hlen : len <= length (c :: pre)).
        { apply (Hin [] (c :: pre) prev len caps); [reflexivity|discriminate|exact E]. }
        cbn [length] in Hlen.
        destruct (IH Hin' (Some c) (pred len)) as [items Hitems]; [lia|].
        eexists (_ :: items). rewrite Hitems. reflexivity.
      * apply (IH Hin' (Some c) 0). lia.
    + cbn [app findall_from]. apply (IH Hin' (Some c) n). lia.
Qed.

(** A stretch of text without a match contributes nothing. *)
Lemma findall_from_quiet (pre rest : text) (prev : option N) :
  (forall a b prev, pre = a ++ b -> b <> [] -> match_at fl r prev (b ++ rest) = None) ->
  findall_from fl r prev (pre ++ rest) 0
  = findall_from fl r (last_char prev pre) rest 0.
Proof.
  revert prev. induction pre as [|c pre IH]; intros prev Hin; [reflexivity|].
  rewrite last_char_cons. cbn [app findall_from].
  assert (H0 := Hin [] (c :: pre) prev eq_refl). cbn [app] in H0.
  rewrite H0 by discriminate.
  apply IH. intros a b p -> Hb. now apply (Hin (c :: a) b p).
Qed.

Lemma findall_from_nothing (t : text) (prev : option N) :
  (forall a b prev, t = a ++ b -> match_at fl r prev b = None) ->
  findall_from fl r prev t 0 = [].
Proof.
  intros Hin.
  rewrite <- (app_nil_r t), findall_from_quiet.
  - cbn [findall_from]. now rewrite (Hin t [] _ (eq_sym (app_nil_r t))).
  - intros a b p -> Hb. rewrite app_nil_r. now apply (Hin a b p).
Qed.

(** Without a match the substitution changes nothing. *)
Lemma sub_from_quiet (repl t : text) (prev : option N) :
  (forall a b prev, t = a ++ b -> match_at fl r prev b = None) ->
  sub_from fl r repl prev t 0 = t.
Proof.
  revert prev. induction t as [|c t IH]; intros prev Hin.
  - cbn [sub_from]. now rewrite (Hin [] [] prev eq_refl).
  - cbn [sub_from]. rewrite (Hin [] (c :: t) prev eq_refl). f_equal.
    apply IH. intros a b p ->. now apply (Hin (c :: a) b p).
Qed.

(** A scan that finds nothing has tried, and failed, at every position. *)
Lemma findall_from_nil (t : text) (prev : option N) :
  findall_from fl r prev t 0 = [] ->
  forall a b, t = a ++ b -> match_at fl r (last_char prev a) b = None.
Proof.
  revert prev. induction t as [|c t IH]; intros prev H a b Hab.
  - destruct a; [|discriminate]. cbn [app] in Hab. subst b.
    cbn [findall_from] in H. cbn [last_char].
    destruct (match_at fl r prev []) as [[len caps]|]; [discriminate|reflexivity].
  - cbn [findall_from] in H.
    destruct (match_at fl r prev (c :: t)) as [[len caps]|] eqn:E; [discriminate|].
    destruct a as [|x a].
    + cbn [app] in Hab. subst b. exact E.
    + cbn [app] in Hab. injection Hab as <- ->. rewrite last_char_cons.
      now apply IH.
Qed.

End Scanning.

(** ** Text operations *)

Section TextOperations.

Lemma startswith_one (a c : N) (t : text) :
  startswith [a] (c :: t) = (a =? c)%N.
Proof. cbn [startswith]. apply andb_true_r. Qed.

(** Replacing one code point by another is a map. *)
Lemma replace_char (a b : N) (t : text) :
  replace t [a] [b] = List.map (fun x => if (x =? a)%N then b else x) t.
Proof.
  unfold replace. induction t as [|c t IH]; [reflexivity|].
  cbn [replace_from List.map length pred]. rewrite startswith_one, N.eqb_sym.
  destruct (c =? a)%N; cbn [app]; now rewrite IH.
Qed.

Lemma replace_char_same (a : N) (t : text) : replace t [a] [a] = t.
Proof.
  rewrite replace_char. induction t as [|c t IH]; [reflexivity|].
  cbn [List.map]. rewrite IH. destruct (c =? a)%N eqn:E; [|reflexivity].
  apply N.eqb_eq in E. now subst.
Qed.

Lemma replace_char_absent (a b : N) (t : text) :
  List.Forall (fun c => c <> a) t -> replace t [a] [b] = t.
Proof.
  rewrite replace_char. induction 1 as [|c t Hc Ht IH]; [reflexivity|].
  cbn [List.map]. rewrite IH. apply N.eqb_neq in Hc. now rewrite Hc.
Qed.

(** A replacement whose old text does not occur changes nothing. *)
Lemma replace_absent (old new t : text) :
  contains old t = false -> replace t old new = t.
Proof.
  unfold replace. induction t as [|c t IH]; [reflexivity|].
  cbn [contains replace_from]. intros H. apply orb_false_iff in H as [Hs Hc].
  rewrite Hs. f_equal. now apply IH.
Qed.

(** The code points of a replacement come from the text or from the new
    text. *)
Lemma replace_from_forall (P : N -> Prop) (old new t : text) (skip : nat) :
  List.Forall P new -> List.Forall P t -> List.Forall P (replace_from old new t skip).
Proof.
  intros Hnew Ht. revert skip. induction Ht as [|c t Hc Ht IH]; intros skip.
  - destruct skip; constructor.
  - destruct skip as [|n]; cbn [replace_from]; [|apply IH].
    destruct (startswith old (c :: t)).
    + apply List.Forall_app. split; [exact Hnew|apply IH].
    + constructor; [exact Hc|apply IH].
Qed.

Lemma lstrip_forall (P : N -> Prop) (t : text) :
  List.Forall P t -> List.Forall P (lstrip t).
Proof.
  induction 1 as [|c t Hc Ht IH]; [constructor|].
  cbn [lstrip]. destruct (isspace c); [exact IH|now constructor].
Qed.

Lemma strip_forall (P : N -> Prop) (t : text) :
  List.Forall P t -> List.Forall P (strip t).
Proof.
  intros H. unfold strip, rstrip.
  apply List.Forall_rev, lstrip_forall, List.Forall_rev, lstrip_forall, H.
Qed.

Lemma lstrip_idem (t : text) : lstrip (lstrip t) = lstrip t.
Proof.
  induction t as [|c t IH]; [reflexivity|].
  cbn [lstrip]. destruct (isspace c) eqn:E; [exact IH|].
  cbn [lstrip]. now rewrite E.
Qed.

Lemma lstrip_snoc (l : text) (c : N) :
  isspace c = false -> lstrip (l ++ [c]) = lstrip l ++ [c].
Proof.
  intros Hc. induction l as [|d l IH]; cbn [app lstrip].
  - now rewrite Hc.
  - destruct (isspace d); [exact IH|reflexivity].
Qed.

(** [strip] leaves a stripped text as it is. *)
Lemma strip_idem (t : text) : strip (strip t) = strip t.
Proof.
  unfold strip, rstrip.
  destruct (lstrip t) as [|c y] eqn:E.
  - reflexivity.
  - assert (Hc : isspace c = false).
    { destruct (isspace c) eqn:Hc; [|reflexivity].
      pose proof (lstrip_idem t) as Hi. rewrite E in Hi. cbn [lstrip] in Hi.
      rewrite Hc in Hi.
      assert (Hl : length (lstrip y) <= length y).
      { clear. induction y as [|d y IH]; [reflexivity|].
        cbn [lstrip]. destruct (isspace d); cbn [length]; lia. }
      rewrite Hi in Hl. cbn [length] in Hl. lia. }
    cbn [rev]. rewrite (lstrip_snoc _ c Hc), rev_app_distr. cbn [rev app lstrip].
    rewrite Hc. cbn [rev]. rewrite (lstrip_snoc _ c Hc), rev_app_distr.
    cbn [rev app]. f_equal. rewrite rev_involutive. now rewrite lstrip_idem.
Qed.

End TextOperations.

(** ** The text cleaner *)

Section Cleaning.
Import Re ReSpec DocumentParser Claims.

Lemma sub_from_no_match (fl : flags) (r : regex) (repl t : text) (prev : option N) :
  findall_from fl r prev t 0 = [] -> sub_from fl r repl prev t 0 = t.
Proof.
  revert prev. induction t as [|c t IH]; intros prev H;
    cbn [findall_from sub_from] in *.
  - destruct (match_at fl r prev []) as [[len caps]|]; [discriminate|reflexivity].
  - destruct (match_at fl r prev (c :: t)) as [[len caps]|]; [discriminate|].
    f_equal. now apply IH.
Qed.

(** A substitution whose pattern has no match changes nothing. *)
Lemma sub_no_match (fl : flags) (r : regex) (repl t : text) :
  findall fl r t = [] -> sub fl r repl t = t.
Proof. apply sub_from_no_match. Qed.

Lemma one_char_cons (ok : N -> bool) (prev : option N) (pos : nat) (x : N)
    (s : text) (caps : captures) (k : cont) :
  one_char ok (MState prev pos (x :: s) caps) k
  = if ok x then k (MState (Some x) (S pos) s caps) else None.
Proof. reflexivity. Qed.

Lemma one_char_nil (ok : N -> bool) (prev : option N) (pos : nat)
    (caps : captures) (k : cont) :
  one_char ok (MState prev pos [] caps) k = None.
Proof. reflexivity. Qed.

(** *** Removing a code point *)

Lemma match_at_lit (c : N) (prev : option N) (s : text) :
  match_at no_flags (Lit c) prev s
  = match s with
    | x :: _ => if (x =? c)%N then Some (1, []) else None
    | [] => None
    end.
Proof.
  unfold match_at. cbn [m]. unfold one_char, lit_match.
  cbn [st_rest st_pos st_caps ignorecase no_flags].
  destruct s as [|x s]; [reflexivity|]. now destruct (x =? c)%N.
Qed.

Lemma sub_lit_filter (c : N) (t : text) :
  sub no_flags (Lit c) [] t = List.filter (fun x => negb (x =? c)%N) t.
Proof.
  unfold sub. generalize (@None N) as prev.
  induction t as [|x t IH]; intros prev; cbn [sub_from List.filter];
    rewrite match_at_lit; [reflexivity|].
  destruct (x =? c)%N; cbn [negb app Nat.eqb pred]; now rewrite IH.
Qed.

(** *** Collapsing whitespace *)

Lemma whitespace_run_shape :
  whitespace_run = Rep true 1 None (Class false [CSpace]).
Proof. vm_compute. reflexivity. Qed.

Lemma class_space (x : N) : class_match no_flags false [CSpace] x = isspace x.
Proof.
  unfold class_match. cbn [existsb item_match xorb]. now rewrite orb_false_r.
Qed.

(** The pattern [\s+] has no match at a code point that is not whitespace,
    nor at the end of the text. *)
Lemma whitespace_run_none (prev : option N) (s : text) :
  match s with
  | [] => True
  | c :: _ => isspace c = false
  end ->
  match_at no_flags whitespace_run prev s = None.
Proof.
  intros H. rewrite whitespace_run_shape. unfold match_at.
  cbn [m rep_loop Nat.eqb].
  destruct s as [|c s]; [now rewrite one_char_nil|].
  now rewrite one_char_cons, class_space, H.
Qed.

(** A match of [\s+] is never empty. *)
Lemma whitespace_run_some (prev : option N) (s : text) (len : nat) (caps : captures) :
  match_at no_flags whitespace_run prev s = Some (len, caps) -> 0 < len.
Proof.
  intros H. apply match_at_sound in H as (w & rest & -> & Hw & ->).
  rewrite whitespace_run_shape in Hw.
  inversion Hw as [ | | | | | | | |g lo hi r p w1 w2 rs Hhi H1 H2| | | | ]; subst.
  inversion H1; subst. cbn [app length]. lia.
Qed.

(** At a whitespace code point [\s+] does match. *)
Lemma whitespace_run_at_space (prev : option N) (c : N) (s : text) :
  isspace c = true ->
  match_at no_flags whitespace_run prev (c :: s) <> None.
Proof.
  intros H. rewrite whitespace_run_shape. unfold match_at.
  cbn [m st_rest length Nat.add]. cbn [rep_loop].
  rewrite one_char_cons, class_space, H.
  cbn [st_pos Nat.ltb Nat.leb orb pred option_map Nat.eqb].
  destruct (one_char _ _ _); discriminate.
Qed.

(** A single whitespace code point, followed by none, is a match of length
    one. *)
Lemma whitespace_run_single (prev : option N) (c : N) (s : text) :
  isspace c = true ->
  match s with
  | [] => True
  | d :: _ => isspace d = false
  end ->
  match_at no_flags whitespace_run prev (c :: s) = Some (1, []).
Proof.
  intros Hc Hs. rewrite whitespace_run_shape. unfold match_at.
  cbn [m st_rest length Nat.add]. cbn [rep_loop].
  rewrite one_char_cons, class_space, Hc.
  cbn [st_pos Nat.ltb Nat.leb orb pred option_map Nat.eqb].
  destruct s as [|d s]; [now rewrite one_char_nil|].
  now rewrite one_char_cons, class_space, Hs.
Qed.

(** After the collapse every whitespace code point is a space. *)
Lemma collapse_spaces (t : text) (prev : option N) (skip : nat) :
  List.Forall (fun c => isspace c = true -> c = 32%N)
    (sub_from no_flags whitespace_run [32%N] prev t skip).
Proof.
  revert prev skip. induction t as [|c t IH]; intros prev skip.
  - destruct skip; cbn [sub_from]; [|constructor].
    rewrite whitespace_run_none by exact I. constructor.
  - destruct skip as [|n]; cbn [sub_from]; [|apply IH].
    destruct (match_at no_flags whitespace_run prev (c :: t)) as [[len caps]|] eqn:E.
    + apply whitespace_run_some in E.
      destruct len as [|len]; [lia|]. cbn [Nat.eqb app].
      constructor; [reflexivity|apply IH].
    + constructor; [|apply IH].
      intros Hc. exfalso. revert E. now apply whitespace_run_at_space.
Qed.

(** Where the only whitespace is single spaces, the collapse changes
    nothing. *)
Lemma collapse_fixed (u : text) (prev : option N) :
  List.Forall (fun c => isspace c = true -> c = 32%N) u ->
  contains [32; 32]%N u = false ->
  sub_from no_flags whitespace_run [32%N] prev u 0 = u.
Proof.
  intros HP. revert prev. induction HP as [|c u Hc HP IH]; intros prev Hno.
  - cbn [sub_from]. now rewrite whitespace_run_none.
  - cbn [contains] in Hno. apply orb_false_iff in Hno as [Hst Hno].
    cbn [sub_from]. destruct (isspace c) eqn:E.
    + rewrite whitespace_run_single; [| exact E |].
      * cbn [Nat.eqb pred app]. rewrite (Hc eq_refl). f_equal. now apply IH.
      * destruct u as [|d u]; [exact I|].
        destruct (isspace d) eqn:Ed; [|reflexivity].
        inversion HP as [|? ? Hd _]; subst.
        rewrite (Hc eq_refl), (Hd Ed) in Hst. discriminate.
    + rewrite whitespace_run_none by exact E. f_equal. now apply IH.
Qed.

(** *** One pass, then a second *)

(** What holds of every code point of a cleaned text. *)
Local Abbreviation clean_char :=
  (fun c : N => (isspace c = true -> c = 32%N) /\ c <> 65533%N).

Local Abbreviation dashless :=
  (fun c : N => c <> 8211%N /\ c <> 8212%N).

#[warnings="-inconsistent-scopes"]
Local Abbreviation quotes_of q t :=
  (replace (replace (replace t q q) (app q q) q) (app q q) q).

Lemma clean_text_cons (t : text) :
  t <> [] ->
  clean_text t
  = strip
      (replace
         (replace
            (quotes_of squote
               (quotes_of dquote
                  (sub no_flags replacement_char []
                     (sub no_flags whitespace_run [32%N]
                        (sub no_flags boilerplate []
                           (sub no_flags page_footer [] t))))))
            en_dash [45%N])
         em_dash [45%N]).
Proof. destruct t; [contradiction|reflexivity]. Qed.

Lemma filter_forall (P : N -> Prop) (f : N -> bool) (t : text) :
  List.Forall P t -> List.Forall P (List.filter f t).
Proof.
  induction 1 as [|c t Hc Ht IH]; [constructor|].
  cbn [List.filter]. destruct (f c); [now constructor|exact IH].
Qed.

Lemma filter_fixed (f : N -> bool) (t : text) :
  List.Forall (fun c => f c = true) t -> List.filter f t = t.
Proof.
  induction 1 as [|c t Hc Ht IH]; [reflexivity|].
  cbn [List.filter]. now rewrite Hc, IH.
Qed.

Lemma quotes_forall (q : N) (t : text) :
  clean_char q -> List.Forall clean_char t -> List.Forall clean_char (quotes_of [q] t).
Proof.
  intros Hq Ht. unfold replace.
  repeat apply replace_from_forall; try (constructor; [exact Hq|constructor]).
  exact Ht.
Qed.

Lemma dashes_forall (t : text) :
  List.Forall clean_char t ->
  List.Forall (fun c => clean_char c /\ dashless c)
    (replace (replace t en_dash [45%N]) em_dash [45%N]).
Proof.
  unfold en_dash, em_dash. rewrite !replace_char.
  induction 1 as [|c t Hc Ht IH]; [constructor|].
  cbn [List.map]. constructor; [|exact IH].
  assert (Hhyphen : clean_char 45%N /\ dashless 45%N).
  { split; split; first [discriminate | intros H; vm_compute in H; discriminate]. }
  destruct (c =? 8211)%N eqn:E1.
  - change (45 =? 8212)%N with false. exact Hhyphen.
  - destruct (c =? 8212)%N eqn:E2; [exact Hhyphen|].
    apply N.eqb_neq in E1, E2. tauto.
Qed.

(** The code points of a cleaned text: whitespace is the space, and neither
    the replacement character nor a long dash is left. *)
Lemma clean_text_chars (t : text) :
  List.Forall (fun c => clean_char c /\ dashless c) (clean_text t).
Proof.
  destruct t as [|c0 t]; [constructor|].
  rewrite clean_text_cons by discriminate.
  apply strip_forall, dashes_forall.
  apply (quotes_forall 39);
    [split; first [discriminate | intros H; vm_compute in H; discriminate]|].
  apply (quotes_forall 34);
    [split; first [discriminate | intros H; vm_compute in H; discriminate]|].
  unfold replacement_char. rewrite sub_lit_filter.
  assert (H3 : List.Forall (fun c => isspace c = true -> c = 32%N)
                 (sub no_flags whitespace_run [32%N]
                    (sub no_flags boilerplate []
                       (sub no_flags page_footer [] (c0 :: t)))))
    by apply collapse_spaces.
  induction H3 as [|c l Hc Hl IH]; [constructor|].
  cbn [List.filter]. destruct (c =? 65533)%N eqn:E; cbn [negb]; [exact IH|].
  constructor; [|exact IH]. split; [exact Hc|]. now apply N.eqb_neq.
Qed.

Lemma clean_text_stripped (t : text) : strip (clean_text t) = clean_text t.
Proof.
  destruct t as [|c0 t]; [reflexivity|].
  rewrite clean_text_cons by discriminate. apply strip_idem.
Qed.

(** A settled text that has the code points and the margins of a cleaned
    text is a fixed point of [clean_text]. *)
Lemma clean_text_fixed (u : text) :
  List.Forall (fun c => clean_char c /\ dashless c) u ->
  strip u = u ->
  settled u = true ->
  clean_text u = u.
Proof.
  intros Hchars Hstrip Hset.
  destruct u as [|c0 u0] eqn:Eu; [reflexivity|]. rewrite <- Eu in *.
  assert (Hne : u <> []) by (rewrite Eu; discriminate). clear Eu.
  unfold settled in Hset.
  repeat (apply andb_true_iff in Hset as [Hset ?]).
  repeat match goal with
         | H : negb _ = true |- _ => apply negb_true_iff in H
         | H : is_nil ?l = true |- _ =>
             assert (l = []) by (destruct l; [reflexivity|discriminate]); clear H
         end.
  rewrite clean_text_cons by exact Hne.
  rewrite (sub_no_match no_flags page_footer [] u) by assumption.
  rewrite (sub_no_match no_flags boilerplate [] u) by assumption.
  unfold sub at 2. rewrite collapse_fixed; [| |assumption].
  2:{ eapply List.Forall_impl; [|exact Hchars]. cbv beta. tauto. }
  unfold replacement_char. rewrite sub_lit_filter, filter_fixed.
  2:{ eapply List.Forall_impl; [|exact Hchars]. cbv beta.
      intros c [[_ Hc] _]. apply negb_true_iff. now apply N.eqb_neq. }
  unfold dquote, squote in *.
  rewrite (replace_char_same 34 u).
  rewrite !(replace_absent ([34%N] ++ [34%N]) [34%N] u) by assumption.
  rewrite (replace_char_same 39 u).
  rewrite !(replace_absent ([39%N] ++ [39%N]) [39%N] u) by assumption.
  unfold en_dash, em_dash.
  rewrite (replace_char_absent 8211 45 u).
  2:{ eapply List.Forall_impl; [|exact Hchars]. cbv beta. tauto. }
  rewrite (replace_char_absent 8212 45 u).
  2:{ eapply List.Forall_impl; [|exact Hchars]. cbv beta. tauto. }
  exact Hstrip.
Qed.

(** C2, amended: cleaning the empty text gives the empty text, and a second
    pass of [clean_text] changes nothing whenever the first pass has left a
    settled text, that is one without a page footer, a banner word, two
    spaces in a row or a doubled quote. *)
Theorem clean_text_settles :
  clean_text [] = [] /\
  forall t : text,
    settled (clean_text t) = true ->
    clean_text (clean_text t) = clean_text t.
Proof.
  split; [reflexivity|]. intros t Hset.
  apply clean_text_fixed; [apply clean_text_chars|apply clean_text_stripped|exact Hset].
Qed.

End Cleaning.

Section CleaningExamples.
Import Re DocumentParser Claims.
Local Open Scope string_scope.
Local Open Scope list_scope.

(** Removing the banner word inside "ConfiConfidentialdential" leaves the
    banner word, which a second pass removes. *)
Lemma banner_left_by_removal : ~ clean_text_idempotent.
Proof.
  intros H. specialize (H (str "ConfiConfidentialdential")).
  vm_compute in H. discriminate.
Qed.

(** The replacement character is removed after the whitespace has been
    collapsed, which can leave two spaces in a row. *)
Example spaces_left_by_removal :
  clean_text [97; 32; 65533; 32; 98]%N = [97; 32; 32; 98]%N /\
  clean_text [97; 32; 32; 98]%N = [97; 32; 98]%N.
Proof. split; vm_compute; reflexivity. Qed.

(** Eight quotes in a row are halved twice by a pass. *)
Example quotes_left_by_halving :
  clean_text (repeat 34%N 8) = repeat 34%N 2 /\
  clean_text (repeat 34%N 2) = repeat 34%N 1.
Proof. split; vm_compute; reflexivity. Qed.

Lemma clean_text_settles_witness :
  let t := str "  Invoice   Page 3 of 7  for  Acme Confidential   " ++ [8211%N; 65533%N]
           ++ str " total  " in
  settled (clean_text t) = true /\
  clean_text t = str "Invoice for Acme - total" /\
  clean_text (clean_text t) = clean_text t.
Proof.
  intros t.
  assert (H : settled (clean_text t) = true) by (vm_compute; reflexivity).
  split; [exact H|]. split; [vm_compute; reflexivity|].
  exact (proj2 clean_text_settles t H).
Defined.

End CleaningExamples.

(** ** The classifier *)

Section ClassifierProperties.
Import DocumentParser Claims.
Context {SK : Sklearn}.

(** C5: on a classifier whose [is_trained] flag is false,
    [predict_document_type] raises the untrained-model error for every input
    text; no label is returned. *)
Theorem predict_untrained_raises (self : parser) (t : text) :
  is_trained self = false ->
  predict_document_type self t
  = Raise (ValueError "Model must be trained before prediction").
Proof.
  intros H. unfold predict_document_type. now rewrite H.
Qed.

(** C10: on a classifier whose [is_trained] flag is false, [save_model]
    raises "Model must be trained before saving" for every path and leaves
    the artifact store as it was. *)
Theorem save_untrained_raises (self : parser) (path : text) (fs : filesystem) :
  is_trained self = false ->
  save_model self path fs
  = (fs, Raise (ValueError "Model must be trained before saving")).
Proof.
  intros H. unfold save_model. now rewrite H.
Qed.

(** A save that returns normally was made from the Trained state. *)
Lemma save_ok_trained (self : parser) (path : text) (fs fs' : filesystem) :
  save_model self path fs = (fs', Ok tt) -> is_trained self = true.
Proof.
  unfold save_model. destruct (is_trained self); [reflexivity|discriminate].
Qed.




(** C4, amended: [load_model] never raises; on a corrupt artifact it leaves
    fresh estimators and [is_trained] false, keeping the training history and
    the sample count; on a missing artifact it leaves the instance as it
    was, so that [is_trained] is false afterwards exactly when it was false
    before. *)
Theorem load_model_failure (self : parser) (path : text) (fs : filesystem) :
  snd (load_model self path fs) = Ok tt /\
  (fs !! path = None -> fst (load_model self path fs) = self) /\
  (forall a, fs !! path = Some a -> is_corrupt a = true ->
     fst (load_model self path fs)
     = {| vectorizer := TfidfVectorizer; classifier := RandomForestClassifier;
          label_encoder := LabelEncoder; is_trained := false;
          training_history := training_history self;
          last_training_samples := last_training_samples self |}).
Proof.
  split; [|split].
  - unfold load_model. destruct (negb (path_exists fs path)); [reflexivity|].
    destruct (load_assign self fs path) as [s [u|e]]; reflexivity.
  - intros H. unfold load_model, path_exists. now rewrite H.
  - intros a Ha Hc. unfold load_model, path_exists, load_assign, joblib_load.
    rewrite Ha. simpl. destruct a as [d|]; simpl in *.
    + destruct (md_vectorizer d); simpl; [|reflexivity].
      destruct (md_classifier d); simpl; [|reflexivity].
      destruct (md_label_encoder d); simpl; [|reflexivity].
      destruct (md_is_trained d); simpl; [discriminate|reflexivity].
    + reflexivity.
Qed.

End ClassifierProperties.

Section ClassifierExamples.
Import DocumentParser Claims Scenario.

Lemma predict_untrained_raises_witness :
  is_trained (@new_parser keyword_sklearn) = false /\
  @predict_document_type keyword_sklearn new_parser (str "Invoice #1")
  = Raise (ValueError "Model must be trained before prediction").
Proof.
  split; [reflexivity|]. apply predict_untrained_raises. reflexivity.
Defined.

Lemma save_untrained_raises_witness :
  is_trained (@new_parser keyword_sklearn) = false /\
  @save_model keyword_sklearn new_parser (str "models/classifier.joblib") ∅
  = (∅, Raise (ValueError "Model must be trained before saving")).
Proof.
  split; [reflexivity|]. apply save_untrained_raises. reflexivity.
Defined.


(** A bare file name has no directory part, and [os.makedirs] raises on it
    before anything is written. *)
Example save_bare_name_raises :
  @save_model keyword_sklearn (trained_parser keyword_sklearn) (str "classifier.joblib") ∅
  = (∅, Raise (FileNotFoundError [])).
Proof. reflexivity. Qed.

(** A trained classifier that loads from a path with no file stays trained. *)
Lemma load_missing_keeps_trained : ~ @load_failure_resets keyword_sklearn.
Proof.
  intros H.
  destruct (H (trained_parser keyword_sklearn) (str "models/missing.joblib") ∅)
    as [_ Hfalse].
  - left. reflexivity.
  - vm_compute in Hfalse. discriminate.
Qed.

Lemma load_model_failure_witness :
  (∅ : gmap text (@artifact keyword_sklearn)) !! str "models/missing.joblib" = None /\
  fst (load_model (trained_parser keyword_sklearn) (str "models/missing.joblib") ∅)
  = trained_parser keyword_sklearn.
Proof.
  split; [reflexivity|].
  apply (load_model_failure (trained_parser keyword_sklearn)
           (str "models/missing.joblib") ∅).
  reflexivity.
Defined.

End ClassifierExamples.

Section TrainingProperties.
Import DocumentParser Claims.
Context {SK : Sklearn}.

Lemma train_success (W : World) (self : parser) (df : option dataframe) :
  snd (train_model_run self df) = true ->
  is_trained (train_model self df) = true /\
  training_history (train_model self df)
  = training_history self ++ [record_of W df] /\
  last_training_samples (train_model self df) = length (frame_of W df).
Proof.
  unfold train_model, train_model_run, record_of, frame_of.
  set (d := match df with Some d => d | None => create_training_data 1000 end).
  destruct (length d =? 0)%nat; [discriminate|].
  destruct (vec_fit_transform (vectorizer self) (List.map fst d)) as [vec [X|e]];
    [|discriminate].
  simpl.
  destruct (le_fit_transform (label_encoder self) (List.map snd d)) as [le [y|e]];
    [|discriminate].
  destruct (train_test_split X y) as [[[[Xtr Xte] ytr] yte]|e]; [|discriminate].
  simpl.
  destruct (clf_fit (classifier self) Xtr ytr) as [clf fitted].
  destruct (_ <- fitted ;; y_pred <- clf_predict clf Xte ;;
            classification_report yte y_pred le) as [rep|e].
  - intros _. simpl. repeat split; reflexivity.
  - destruct (clf_fit LogisticRegression Xtr ytr) as [clf' [u|e']]; [|discriminate].
    intros _. simpl. repeat split; reflexivity.
Qed.

(** A call that does not reach the success statements leaves the flag, the
    history and the sample count as they were. *)
Lemma train_failure (W : World) (self : parser) (df : option dataframe) :
  snd (train_model_run self df) = false ->
  is_trained (train_model self df) = is_trained self /\
  training_history (train_model self df) = training_history self /\
  last_training_samples (train_model self df) = last_training_samples self.
Proof.
  unfold train_model, train_model_run.
  set (d := match df with Some d => d | None => create_training_data 1000 end).
  destruct (length d =? 0)%nat; [now intros _|].
  destruct (vec_fit_transform (vectorizer self) (List.map fst d)) as [vec [X|e]];
    [|now intros _].
  simpl.
  destruct (le_fit_transform (label_encoder self) (List.map snd d)) as [le [y|e]];
    [|now intros _].
  destruct (train_test_split X y) as [[[[Xtr Xte] ytr] yte]|e]; [|now intros _].
  simpl.
  destruct (clf_fit (classifier self) Xtr ytr) as [clf fitted].
  destruct (_ <- fitted ;; y_pred <- clf_predict clf Xte ;;
            classification_report yte y_pred le) as [rep|e].
  - discriminate.
  - destruct (clf_fit LogisticRegression Xtr ytr) as [clf' [u|e']];
      [discriminate|now intros _].
Qed.

(** C9: a successful [train_model] call appends one record, holding the
    time and the sample count of the call, after the records already in
    [training_history], and sets [last_training_samples] to that count; two
    successful calls in a row therefore leave the history two records
    longer and the count of the second call in [last_training_samples].  The
    two calls may see different clocks. *)
Theorem training_history_growth (W1 W2 : World) (self : parser)
    (df1 df2 : option dataframe) :
  let after1 := @train_model SK W1 self df1 in
  let after2 := @train_model SK W2 after1 df2 in
  snd (@train_model_run SK W1 self df1) = true ->
  snd (@train_model_run SK W2 after1 df2) = true ->
  training_history after1 = training_history self ++ [record_of W1 df1] /\
  last_training_samples after1 = length (frame_of W1 df1) /\
  training_history after2
  = training_history self ++ [record_of W1 df1; record_of W2 df2] /\
  length (training_history after2) = length (training_history self) + 2 /\
  last_training_samples after2 = length (frame_of W2 df2).
Proof.
  intros after1 after2 H1 H2.
  destruct (train_success W1 self df1 H1) as (_ & Hh1 & Hl1).
  destruct (train_success W2 after1 df2 H2) as (_ & Hh2 & Hl2).
  fold after1 in Hh1, Hl1. fold after2 in Hh2, Hl2.
  repeat split; try assumption.
  - rewrite Hh2, Hh1, <- app_assoc. reflexivity.
  - rewrite Hh2, Hh1, !length_app. simpl. lia.
Qed.

End TrainingProperties.

Section TrainingExamples.
Import DocumentParser Claims Scenario.

Lemma training_history_growth_witness :
  let self := @new_parser keyword_sklearn in
  let df1 := Some training_set in
  let df2 := Some (training_set ++ [(str "Contract #3", str "contract")]) in
  let after1 := @train_model keyword_sklearn world self df1 in
  let after2 := @train_model keyword_sklearn later_world after1 df2 in
  snd (@train_model_run keyword_sklearn world self df1) = true /\
  snd (@train_model_run keyword_sklearn later_world after1 df2) = true /\
  length (training_history after2) = 2 /\
  last_training_samples after2 = 3.
Proof.
  intros self df1 df2 after1 after2.
  assert (H1 : snd (@train_model_run keyword_sklearn world self df1) = true)
    by reflexivity.
  assert (H2 : snd (@train_model_run keyword_sklearn later_world after1 df2) = true)
    by reflexivity.
  split; [exact H1|]. split; [exact H2|].
  destruct (training_history_growth world later_world self df1 df2 H1 H2)
    as (_ & _ & _ & Hlen & Hlast).
  split; [exact Hlen|exact Hlast].
Defined.

End TrainingExamples.

(** ** The orchestrator *)

(** The proofs below reason about the control flow around the extractors;
    the extractors themselves stay folded. *)
#[local] Opaque DocumentParser.clean_text DocumentParser.extract_with_patterns
  DocumentParser.extract_contact_info DocumentParser.extract_features
  DocumentParser.extract_entities DocumentParser.holder_patterns
  Text.str Text.lower.

Section OrchestratorProperties.
Import DocumentParser Claims.
Context {SK : Sklearn} {W : World}.

(** The text extractors catch what the libraries raise. *)
Lemma extract_text_total (path : text) : exists t, extract_text path = Ok t.
Proof.
  unfold extract_text, extract_text_from_image, extract_text_from_pdf.
  destruct (existsb _ image_suffixes).
  - destruct (negb HAS_OCR); [now eexists|].
    destruct (image_to_string path); now eexists.
  - destruct (pdf_pages path); now eexists.
Qed.

Lemma resolve_type_predict_raises (self : parser) (cleaned doc_type : text)
    (use_ml : bool) (e : exn) :
  predict_document_type self cleaned = Raise e ->
  resolve_type self cleaned doc_type use_ml = doc_type.
Proof.
  intros H. unfold resolve_type. rewrite H.
  now destruct (use_ml && is_trained self).
Qed.

Lemma parse_body_nlp_raises (self : parser) (path doc_type raw : text)
    (use_ml : bool) (e : exn) :
  extract_text path = Ok raw -> raw <> [] ->
  nlp_ents (clean_text raw) = Raise e ->
  parse_body self path doc_type use_ml = Raise e.
Proof.
  intros Hraw Hne Hnlp. unfold parse_body. rewrite Hraw. simpl.
  destruct raw as [|c raw]; [contradiction|].
  destruct (text_eqb _ (str "invoice")); simpl.
  - unfold extract_invoice_details. now rewrite Hnlp.
  - unfold extract_document_holder_name. now rewrite Hnlp.
Qed.

(** C1, amended: [parse_document] never raises.  Empty extracted text gives
    a failure with the error "No text could be extracted from the document";
    an exception that leaves the body of the parse, such as one of the entity
    recogniser during extraction, becomes a failure that carries its message;
    an exception of the predictor is caught on the spot and the parse goes
    on with the requested type, as it does without the classifier. *)
Theorem parse_document_never_raises (self : parser) (path doc_type : text)
    (use_ml : bool) :
  (exists res, parse_document self path doc_type use_ml = Ok res) /\
  (extract_text path = Ok [] ->
   failed_with (parse_document self path doc_type use_ml)
     (str "No text could be extracted from the document")) /\
  (forall e, parse_body self path doc_type use_ml = Raise e ->
     parse_document self path doc_type use_ml
     = Ok (Failed (exn_str e) (Some now_isoformat))) /\
  (forall raw e, extract_text path = Ok raw -> raw <> [] ->
     nlp_ents (clean_text raw) = Raise e ->
     failed_with (parse_document self path doc_type use_ml) (exn_str e)) /\
  (forall raw e, extract_text path = Ok raw ->
     predict_document_type self (clean_text raw) = Raise e ->
     parse_document self path doc_type use_ml
     = parse_document self path doc_type false).
Proof.
  repeat split.
  - unfold parse_document, try_except.
    destruct (parse_body self path doc_type use_ml); now eexists.
  - intros H. unfold parse_document, parse_body. rewrite H. simpl.
    eexists. repeat split; reflexivity.
  - intros e H. unfold parse_document. now rewrite H.
  - intros raw e Hraw Hne Hnlp. unfold parse_document.
    rewrite (parse_body_nlp_raises self path doc_type raw use_ml e Hraw Hne Hnlp).
    simpl. eexists. repeat split; reflexivity.
  - intros raw e Hraw Hpred. unfold parse_document, parse_body.
    rewrite Hraw. simpl. destruct raw as [|c raw]; [reflexivity|].
    rewrite (resolve_type_predict_raises self _ doc_type use_ml e Hpred).
    rewrite (resolve_type_predict_raises self _ doc_type false e Hpred).
    reflexivity.
Qed.

(** ** The evaluator *)




End OrchestratorProperties.

Section OrchestratorExamples.
Import DocumentParser Claims Scenario.

(** With a vectorizer that raises on [transform], the parse of a readable
    invoice still succeeds, under the requested type: the exception of the
    predictor does not become a failure. *)
Lemma predictor_exception_not_converted :
  ~ @parse_converts_every_exception failing_sklearn world.
Proof.
  intros H.
  destruct (H (trained_parser failing_sklearn) (str "docs/a.pdf") (str "general") true)
    as (_ & _ & Hconv).
  destruct (Hconv (str "Invoice #INV-1001 Total: $1500.00 Tax: $120.00"
                     ++ [10%N]) NotFittedError)
    as (res & Hres & Hsucc & _).
  - vm_compute. reflexivity.
  - discriminate.
  - left. repeat split; vm_compute; reflexivity.
  - assert (Hrun :
      match @parse_document failing_sklearn world (trained_parser failing_sklearn)
              (str "docs/a.pdf") (str "general") true with
      | Ok r => success r
      | Raise _ => false
      end = true) by (vm_compute; reflexivity).
    rewrite Hres, Hsucc in Hrun. discriminate.
Qed.

Lemma parse_document_never_raises_witness :
  @extract_text world (str "docs/missing.pdf") = Ok [] /\
  failed_with
    (@parse_document keyword_sklearn world (trained_parser keyword_sklearn)
       (str "docs/missing.pdf") (str "general") true)
    (str "No text could be extracted from the document").
Proof.
  assert (H : @extract_text world (str "docs/missing.pdf") = Ok [])
    by (vm_compute; reflexivity).
  split; [exact H|].
  exact (proj1 (proj2 (parse_document_never_raises
                         (trained_parser keyword_sklearn)
                         (str "docs/missing.pdf") (str "general") true)) H).
Defined.


End OrchestratorExamples.

(** ** The pattern extractor *)

Section PatternProperties.
Import DocumentParser Claims.

Lemma forallb_combine_eq (x y : list text) :
  length x = length y ->
  forallb (fun p => text_eqb (fst p) (snd p)) (combine x y) = true ->
  x = y.
Proof.
  revert y. induction x as [|a x IH]; intros [|b y] Hlen H; simpl in *;
    try reflexivity; try discriminate.
  apply andb_true_iff in H as [Hab H]. apply text_eqb_eq in Hab.
  f_equal; [assumption|]. apply IH; [lia|assumption].
Qed.

Lemma found_eqb_eq (a b : Re.found) : found_eqb a b = true <-> a = b.
Proof.
  split.
  - destruct a as [x|x], b as [y|y]; simpl; intros H; try discriminate.
    + apply text_eqb_eq in H. now subst.
    + apply andb_true_iff in H as [Hlen H]. apply Nat.eqb_eq in Hlen.
      f_equal. now apply forallb_combine_eq.
  - intros <-. destruct a as [x|x]; simpl.
    + apply text_eqb_refl.
    + rewrite Nat.eqb_refl. simpl. induction x as [|c x IH]; simpl;
        [reflexivity|]. now rewrite text_eqb_refl.
Qed.

(** [list(set(xs))] holds the elements of [xs], each once. *)
Lemma list_set_spec {A : Type} (eqb : A -> A -> bool) (xs : list A) :
  (forall x y, eqb x y = true <-> x = y) ->
  List.NoDup (list_set eqb xs) /\
  forall x, List.In x (list_set eqb xs) <-> List.In x xs.
Proof.
  intros Heq. induction xs as [|a xs [IHnd IHin]]; simpl.
  - split; [constructor|tauto].
  - assert (Hin : forall x,
      List.In x (List.filter (fun y => negb (eqb a y)) (list_set eqb xs))
      <-> x <> a /\ List.In x xs).
    { intros x. rewrite List.filter_In, IHin, negb_true_iff. split.
      - intros [Hx Hne]. split; [|assumption]. intros ->.
        assert (eqb a a = true) by now apply Heq. congruence.
      - intros [Hne Hx]. split; [assumption|].
        destruct (eqb a x) eqn:E; [|reflexivity]. apply Heq in E. congruence. }
    split.
    + constructor.
      * rewrite Hin. tauto.
      * now apply List.NoDup_filter.
    + intros x. rewrite Hin. split.
      * intros [->|[_ H]]; tauto.
      * intros [->|H]; [now left|].
        destruct (eqb a x) eqn:E.
        -- left. now apply Heq.
        -- right. split; [|assumption]. intros Hxa. subst x.
           assert (eqb a a = true) by now apply Heq. congruence.
Qed.

#[local] Transparent extract_with_patterns.

Ltac distinct_keys :=
  repeat (constructor; [cbn [List.In List.map fst]; intuition discriminate|]);
  constructor.

Lemma invoice_keys : List.NoDup (List.map fst invoice_patterns).
Proof. unfold invoice_patterns. cbn [List.map fst]. distinct_keys. Qed.

Lemma receipt_keys : List.NoDup (List.map fst receipt_patterns).
Proof. unfold receipt_patterns. cbn [List.map fst]. distinct_keys. Qed.

Lemma contract_keys : List.NoDup (List.map fst contract_patterns).
Proof. unfold contract_patterns. cbn [List.map fst]. distinct_keys. Qed.

Lemma contact_keys : List.NoDup (List.map fst contact_patterns).
Proof. unfold contact_patterns. cbn [List.map fst]. distinct_keys. Qed.

Lemma general_keys : List.NoDup (List.map fst general_patterns).
Proof. unfold general_patterns. cbn [List.map fst]. distinct_keys. Qed.

Lemma selected_table_keys (doc_type : text) :
  List.NoDup (List.map fst (selected_table doc_type)).
Proof.
  unfold selected_table, patterns. cbn [patterns_get].
  destruct (text_eqb _ doc_type); [exact invoice_keys|].
  destruct (text_eqb _ doc_type); [exact receipt_keys|].
  destruct (text_eqb _ doc_type); [exact contract_keys|].
  destruct (text_eqb _ doc_type); [exact contact_keys|].
  destruct (text_eqb _ doc_type); exact general_keys.
Qed.

Lemma patterns_get_unknown (doc_type : text) :
  ~ List.In doc_type known_types -> patterns_get patterns doc_type = None.
Proof.
  intros H. unfold known_types in H. cbn [List.map List.In] in H.
  unfold patterns. cbn [patterns_get fst snd].
  repeat match goal with
         | |- context [text_eqb ?k doc_type] =>
             destruct (text_eqb k doc_type) eqn:E;
             [apply text_eqb_eq in E; exfalso; tauto|clear E]
         end.
  reflexivity.
Qed.

Lemma patterns_get_general :
  patterns_get patterns (str "general") = Some general_patterns.
Proof. vm_compute. reflexivity. Qed.

(** The extractor runs over the selected table, rule by rule. *)
Lemma extract_with_patterns_unfold (t doc_type : text) :
  extract_with_patterns t doc_type
  = flat_map (fun fp : string * string =>
                match Re.findall Re.IGNORECASE (Re.compile (snd fp)) t with
                | [] => []
                | _ :: _ =>
                    [(fst fp,
                      list_set found_eqb
                        (Re.findall Re.IGNORECASE (Re.compile (snd fp)) t))]
                end)
             (selected_table doc_type).
Proof.
  unfold extract_with_patterns, selected_table.
  destruct (patterns_get patterns doc_type) as [tbl|] eqn:E.
  - rewrite E. reflexivity.
  - rewrite patterns_get_general. reflexivity.
Qed.

Section Rules.
Variable t : text.

Local Abbreviation entry :=
  (fun fp : string * string =>
     match Re.findall Re.IGNORECASE (Re.compile (snd fp)) t with
     | [] => []
     | _ :: _ =>
         [(fst fp,
           list_set found_eqb (Re.findall Re.IGNORECASE (Re.compile (snd fp)) t))]
     end).

Lemma get_entries_absent (tbl : rule_table) (field : string) :
  ~ List.In field (List.map fst tbl) ->
  Dict.get (flat_map entry tbl) field = None.
Proof.
  induction tbl as [|[k p] tbl IH]; intros Hn; [reflexivity|].
  cbn [flat_map]. cbn [List.map fst List.In] in Hn.
  assert (Hk : String.eqb field k = false).
  { apply String.eqb_neq. intros ->. tauto. }
  cbn [fst snd].
  destruct (Re.findall Re.IGNORECASE (Re.compile p) t); cbn [app Dict.get].
  - apply IH. tauto.
  - rewrite Hk. apply IH. tauto.
Qed.

Lemma get_entries (tbl : rule_table) (field pattern : string) :
  List.NoDup (List.map fst tbl) ->
  Dict.get tbl field = Some pattern ->
  Dict.get (flat_map entry tbl) field
  = match Re.findall Re.IGNORECASE (Re.compile pattern) t with
    | [] => None
    | _ :: _ =>
        Some (list_set found_eqb (Re.findall Re.IGNORECASE (Re.compile pattern) t))
    end.
Proof.
  induction tbl as [|[k p] tbl IH]; intros Hnd Hget; [discriminate|].
  cbn [List.map fst] in Hnd. apply List.NoDup_cons_iff in Hnd as [Hk Hnd].
  cbn [Dict.get] in Hget. cbn [flat_map]. cbn [fst snd].
  destruct (String.eqb field k) eqn:E.
  - apply String.eqb_eq in E. subst k. injection Hget as ->.
    destruct (Re.findall Re.IGNORECASE (Re.compile pattern) t); cbn [app Dict.get].
    + now apply get_entries_absent.
    + now rewrite String.eqb_refl.
  - destruct (Re.findall Re.IGNORECASE (Re.compile p) t); cbn [app Dict.get].
    + now apply IH.
    + rewrite E. now apply IH.
Qed.

End Rules.

(** C8: a type outside the five known ones is treated as [general]; and for
    every field of the selected rule table, the field is a key of the result
    exactly when its pattern has a case-insensitive match in the text, and
    its value then holds every distinct match once. *)
Theorem extract_with_patterns_fields (t doc_type : text) :
  (~ List.In doc_type known_types ->
   extract_with_patterns t doc_type = extract_with_patterns t (str "general")) /\
  (forall field pattern,
     Dict.get (selected_table doc_type) field = Some pattern ->
     let matches := Re.findall Re.IGNORECASE (Re.compile pattern) t in
     (Dict.has (extract_with_patterns t doc_type) field = true <-> matches <> []) /\
     (forall values,
        Dict.get (extract_with_patterns t doc_type) field = Some values ->
        List.NoDup values /\ forall x, List.In x values <-> List.In x matches)).
Proof.
  split.
  - intros H. rewrite !extract_with_patterns_unfold. unfold selected_table.
    now rewrite (patterns_get_unknown doc_type H), patterns_get_general.
  - intros field pattern Hget matches. rewrite extract_with_patterns_unfold.
    unfold Dict.has.
    rewrite (get_entries t (selected_table doc_type) field pattern
               (selected_table_keys doc_type) Hget).
    fold matches. destruct matches as [|m ms] eqn:E.
    + split; [split; [discriminate|congruence]|discriminate].
    + split; [split; [discriminate|reflexivity]|].
      intros values [= <-].
      apply (list_set_spec found_eqb (m :: ms)). apply found_eqb_eq.
Qed.

End PatternProperties.

(** ** The invoice scenario *)

Section InvoiceScenario.
Import DocumentParser Claims Re ReSpec.
Local Open Scope string_scope.
Local Open Scope list_scope.

Lemma startswith_split (p t : text) :
  startswith p t = true -> exists rest, t = p ++ rest.
Proof.
  revert t. induction p as [|a p IH]; intros t H.
  - now exists t.
  - destruct t as [|b t]; cbn [startswith] in H; [discriminate|].
    apply andb_true_iff in H as [Hab H]. apply N.eqb_eq in Hab. subst b.
    destruct (IH t H) as [rest ->]. now exists rest.
Qed.

Lemma contains_split (needle t : text) :
  contains needle t = true -> exists pre post, t = pre ++ needle ++ post.
Proof.
  induction t as [|c t IH]; cbn [contains]; intros H.
  - rewrite orb_false_r in H. apply startswith_split in H as [rest ->].
    now exists [], rest.
  - apply orb_true_iff in H as [H|H].
    + apply startswith_split in H as [rest ->]. now exists [], rest.
    + destruct (IH H) as (pre & post & ->). now exists (c :: pre), post.
Qed.

Local Abbreviation total_amount_re :=
  (Re.compile "(?:total|amount due|balance):?\s*(\$\d+(?:\.\d{2})?)").

Local Abbreviation total_amount_tail :=
  (Seq (Rep true 0 (Some 1) (Lit 58))
     (Seq (Rep true 0 None (Class false [CSpace]))
        (Group 1
           (Seq (Lit 36)
              (Seq (Rep true 1 None (Class false [CDigit]))
                 (Rep true 0 (Some 1)
                    (Seq (Lit 46) (Rep true 2 (Some 2) (Class false [CDigit]))))))))).

Lemma total_amount_re_shape :
  total_amount_re
  = Seq (Alt (word_re (str "total"))
           (Alt (word_re (str "amount due")) (word_re (str "balance"))))
        total_amount_tail.
Proof. vm_compute. reflexivity. Qed.

(** At the substring the pattern matches, whatever follows, and its group
    is the amount. *)
Lemma total_amount_here (prev : option N) (post : text) :
  match_at IGNORECASE total_amount_re prev (str "Total: $1500.00" ++ post)
  = Some (15, [(1, str "$1500.00")]).
Proof. vm_compute. reflexivity. Qed.

(** A keyword of the pattern cannot begin before the substring and run into
    it. *)
Lemma keyword_straddle (kw : text) (post : text) :
  List.In kw [str "total"; str "amount due"; str "balance"] ->
  forallb (fun j => negb (word_prefix IGNORECASE (skipn j kw)
                            (str "Total: $1500.00" ++ post)))
          (seq 1 (length kw - 1)) = true.
Proof.
  cbn [List.In]. intros [<-|[<-|[<-|[]]]]; vm_compute; reflexivity.
Qed.

(** A match of the pattern that starts before the substring ends before
    it. *)
Lemma total_amount_no_overlap (s post : text) (prev : option N) (len : nat)
    (caps : captures) :
  s <> [] ->
  match_at IGNORECASE total_amount_re prev (s ++ str "Total: $1500.00" ++ post)
  = Some (len, caps) ->
  len <= length s.
Proof.
  intros Hs H. apply match_at_sound in H as (w & rest & Heq & Hw & ->).
  destruct (le_gt_dec (length w) (length s)) as [Hle|Hgt]; [exact Hle|exfalso].
  rewrite total_amount_re_shape in Hw.
  inversion Hw as [ | | | |r1 r2 p w1 w2 rs Hkw Htail| | | | | | | | ]; subst.
  (* the keyword the match starts with *)
  assert (Hword : exists kw,
            List.In kw [str "total"; str "amount due"; str "balance"] /\
            word_match IGNORECASE kw w1 = true).
  { inversion Hkw as [ | | | | |? ? ? ? ? H1|? ? ? ? ? H1| | | | | | ]; subst.
    - eexists. split; [left; reflexivity|]. eapply matches_word_re. exact H1.
    - inversion H1 as [ | | | | |? ? ? ? ? H2|? ? ? ? ? H2| | | | | | ]; subst.
      + eexists. split; [right; left; reflexivity|]. eapply matches_word_re. exact H2.
      + eexists. split; [right; right; left; reflexivity|].
        eapply matches_word_re. exact H2. }
  destruct Hword as (kw & Hin & Hkw').
  (* the code point at the start of the substring, as the match sees it *)
  assert (HT : nth_error ((w1 ++ w2) ++ rest) (length s) = Some 84%N).
  { rewrite <- Heq. rewrite nth_error_app2 by lia. now rewrite Nat.sub_diag. }
  rewrite length_app in Hgt.
  destruct (le_gt_dec (length w1) (length s)) as [H1|H1].
  - (* it lies in the part after the keyword, which cannot read it *)
    rewrite <- app_assoc in HT. rewrite nth_error_app2 in HT by exact H1.
    rewrite nth_error_app1 in HT by lia.
    apply nth_error_In in HT.
    apply matches_reads in Htail. rewrite List.Forall_forall in Htail.
    specialize (Htail _ HT). vm_compute in Htail. discriminate.
  - (* it lies in the keyword, which would then run into the substring *)
    assert (Hpre : word_prefix IGNORECASE (skipn (length s) kw)
                     (str "Total: $1500.00" ++ post) = true).
    { assert (Hskip : skipn (length s) (s ++ str "Total: $1500.00" ++ post)
                      = skipn (length s) ((w1 ++ w2) ++ rest)) by now rewrite Heq.
      rewrite skipn_length_app, <- app_assoc, skipn_app_le in Hskip by lia.
      rewrite Hskip.
      apply word_match_prefix. now apply word_match_skipn. }
    pose proof (keyword_straddle kw post Hin) as Hno.
    rewrite forallb_forall in Hno.
    assert (Hj : List.In (length s) (seq 1 (length kw - 1))).
    { apply in_seq. rewrite (word_match_length _ _ _ Hkw').
      destruct s; [contradiction|]. cbn [length] in *. lia. }
    specialize (Hno _ Hj). rewrite Hpre in Hno. discriminate.
Qed.

(** The amount of the substring is among the matches of the pattern. *)
Lemma total_amount_found (pre post : text) :
  List.In (FStr (str "$1500.00"))
    (findall IGNORECASE total_amount_re (pre ++ str "Total: $1500.00" ++ post)).
Proof.
  unfold findall.
  destruct (findall_from_reaches IGNORECASE total_amount_re pre
              (str "Total: $1500.00" ++ post)) with (prev := @None N) (skip := 0)
    as [items Hitems].
  - intros a b prev len caps _ Hb. now apply total_amount_no_overlap.
  - lia.
  - rewrite Hitems. apply List.in_or_app. right.
    rewrite (findall_from_match IGNORECASE total_amount_re
               (str "Total: $1500.00") post _ 15 [(1, str "$1500.00")]
               (total_amount_here _ post));
      [|vm_compute; reflexivity|vm_compute; discriminate].
    left. vm_compute. reflexivity.
Qed.

Local Abbreviation invoice_number_re :=
  (Re.compile "(?:invoice|inv)\.?\s*#?\s*([A-Z0-9-]+)").

Local Abbreviation invoice_number_tail :=
  (Seq (Rep true 0 (Some 1) (Lit 46))
     (Seq (Rep true 0 None (Class false [CSpace]))
        (Seq (Rep true 0 (Some 1) (Lit 35))
           (Seq (Rep true 0 None (Class false [CSpace]))
              (Group 1
                 (Rep true 1 None
                    (Class false [CRange 65 90; CRange 48 57; CChar 45]))))))).

Lemma invoice_number_re_shape :
  invoice_number_re
  = Seq (Alt (word_re (str "invoice")) (word_re (str "inv"))) invoice_number_tail.
Proof. vm_compute. reflexivity. Qed.

(** The pattern matches only where the text goes on with [inv], in any
    case. *)
Lemma invoice_number_needs_inv (prev : option N) (s : text) :
  word_prefix IGNORECASE (str "inv") s = false ->
  match_at IGNORECASE invoice_number_re prev s = None.
Proof.
  intros Hno.
  destruct (match_at IGNORECASE invoice_number_re prev s) as [[len caps]|] eqn:E;
    [exfalso|reflexivity].
  apply match_at_sound in E as (w & rest & -> & Hw & _).
  rewrite invoice_number_re_shape in Hw.
  inversion Hw as [ | | | |r1 r2 p w1 w2 rs Hkw Htail| | | | | | | | ]; subst.
  assert (Hpre : exists kw, firstn 3 kw = str "inv" /\
                            word_match IGNORECASE kw w1 = true).
  { inversion Hkw as [ | | | | |? ? ? ? ? H1|? ? ? ? ? H1| | | | | | ]; subst.
    - exists (str "invoice"). split; [reflexivity|]. eapply matches_word_re. exact H1.
    - exists (str "inv"). split; [reflexivity|]. eapply matches_word_re. exact H1. }
  destruct Hpre as (kw & Hkw3 & Hm).
  apply (word_match_prefix _ _ _ (w2 ++ rest)) in Hm.
  apply (word_prefix_firstn _ 3) in Hm. rewrite Hkw3, app_assoc in Hm.
  congruence.
Qed.

(** At the substring the pattern reads the identifier up to the first code
    point that is not an identifier character. *)
Lemma invoice_number_here (prev : option N) (post : text) :
  identifier_ends post = true ->
  match_at IGNORECASE invoice_number_re prev (str "Invoice #INV-1001" ++ post)
  = Some (17, [(1, str "INV-1001")]).
Proof.
  intros H. destruct post as [|x post].
  - vm_compute. reflexivity.
  - unfold identifier_ends, identifier_char in H. apply negb_true_iff in H.
    vm_compute in H. vm_compute. rewrite H. reflexivity.
Qed.

(** When the two occurrences of [inv] in the substring are the only ones in
    the text and the identifier ends with the substring, the pattern has
    exactly one match. *)
Lemma invoice_number_found (pre post : text) :
  identifier_ends post = true ->
  positions IGNORECASE (str "inv") (pre ++ str "Invoice #INV-1001" ++ post)
  = [length pre; length pre + 9] ->
  findall IGNORECASE invoice_number_re (pre ++ str "Invoice #INV-1001" ++ post)
  = [FStr (str "INV-1001")].
Proof.
  intros Hend Hpos. unfold findall.
  assert (Hinv : forall a b,
            pre ++ str "Invoice #INV-1001" ++ post = a ++ b ->
            length a <> length pre -> length a <> length pre + 9 ->
            word_prefix IGNORECASE (str "inv") b = false).
  { intros a b Hab H1 H2.
    destruct (word_prefix IGNORECASE (str "inv") b) eqn:E; [exfalso|reflexivity].
    pose proof (positions_from_complete IGNORECASE (str "inv") a b 0 E) as Hin.
    rewrite <- Hab in Hin. unfold positions in Hpos. rewrite Hpos in Hin.
    cbn [List.In Nat.add] in Hin. lia. }
  rewrite findall_from_quiet.
  2:{ intros a b prev -> Hb. apply invoice_number_needs_inv.
      apply (Hinv a); [now rewrite <- app_assoc| |];
        rewrite length_app; destruct b; [contradiction| |contradiction|];
        cbn [length]; lia. }
  rewrite (findall_from_match IGNORECASE invoice_number_re
             (str "Invoice #INV-1001") post _ 17 [(1, str "INV-1001")]
             (invoice_number_here _ post Hend));
    [|vm_compute; reflexivity|vm_compute; discriminate].
  apply f_equal2; [vm_compute; reflexivity|].
  apply findall_from_nothing. intros a b prev ->.
  apply invoice_number_needs_inv.
  apply (Hinv (pre ++ str "Invoice #INV-1001" ++ a)).
  - now rewrite <- !app_assoc.
  - rewrite !length_app. change (length (str "Invoice #INV-1001")) with 17. lia.
  - rewrite !length_app. change (length (str "Invoice #INV-1001")) with 17. lia.
Qed.

Lemma selected_invoice : selected_table (str "invoice") = invoice_patterns.
Proof. vm_compute. reflexivity. Qed.

(** C7, amended.  For every text that contains "Total: $1500.00", the
    [total_amount] entry of the invoice extraction holds "$1500.00".  For
    every text that contains "Invoice #INV-1001", the [invoice_number] entry
    is ["INV-1001"] provided the identifier ends with the substring (the
    text stops there or goes on with a code point that is not an identifier
    character) and the two occurrences of "inv" in the substring are the
    only ones in the text, in any case. *)
Theorem invoice_scenario (t : text) :
  (contains (str "Total: $1500.00") t = true ->
   exists values,
     Dict.get (extract_with_patterns t (str "invoice")) "total_amount" = Some values /\
     List.In (FStr (str "$1500.00")) values) /\
  (forall pre post,
     t = pre ++ str "Invoice #INV-1001" ++ post ->
     identifier_ends post = true ->
     positions IGNORECASE (str "inv") t = [length pre; length pre + 9] ->
     Dict.get (extract_with_patterns t (str "invoice")) "invoice_number"
     = Some [FStr (str "INV-1001")]).
Proof.
  split.
  - intros H. apply contains_split in H as (pre & post & ->).
    rewrite extract_with_patterns_unfold, selected_invoice.
    rewrite (get_entries _ invoice_patterns "total_amount"
               "(?:total|amount due|balance):?\s*(\$\d+(?:\.\d{2})?)"
               invoice_keys eq_refl).
    pose proof (total_amount_found pre post) as Hin.
    destruct (findall IGNORECASE total_amount_re
                (pre ++ str "Total: $1500.00" ++ post)) as [|x xs] eqn:E;
      [contradiction|].
    eexists. split; [reflexivity|].
    apply (list_set_spec found_eqb (x :: xs) found_eqb_eq). exact Hin.
  - intros pre post -> Hend Hpos.
    rewrite extract_with_patterns_unfold, selected_invoice.
    rewrite (get_entries _ invoice_patterns "invoice_number"
               "(?:invoice|inv)\.?\s*#?\s*([A-Z0-9-]+)"
               invoice_keys eq_refl).
    rewrite (invoice_number_found pre post Hend Hpos). reflexivity.
Qed.

End InvoiceScenario.

Section InvoiceExamples.
Import DocumentParser Claims Re ReSpec.
Local Open Scope string_scope.
Local Open Scope list_scope.

(** An invoice number that goes on after "INV-1001" is extracted whole. *)
Lemma longer_invoice_number : ~ invoice_scenario_claim.
Proof.
  intros H.
  destruct (H (str "Invoice #INV-10015 Total: $1500.00 Tax: $120.00"))
    as [Hnum _]; try (vm_compute; reflexivity).
  vm_compute in Hnum. discriminate.
Qed.

(** An earlier [inv] can take the word "Invoice" for its identifier, and the
    identifier of the substring is then found without its first letters. *)
Example earlier_inv_shadows :
  Dict.get (extract_with_patterns
              (str "inv Invoice #INV-1001 Total: $1500.00 Tax: $120.00")
              (str "invoice")) "invoice_number"
  = Some [FStr (str "Invoice"); FStr (str "-1001")].
Proof. vm_compute. reflexivity. Qed.

Lemma invoice_scenario_witness :
  let t := str "Invoice #INV-1001 Total: $1500.00 Tax: $120.00" in
  contains (str "Total: $1500.00") t = true /\
  t = [] ++ str "Invoice #INV-1001" ++ str " Total: $1500.00 Tax: $120.00" /\
  identifier_ends (str " Total: $1500.00 Tax: $120.00") = true /\
  positions IGNORECASE (str "inv") t = [0; 9] /\
  (exists values,
     Dict.get (extract_with_patterns t (str "invoice")) "total_amount" = Some values /\
     List.In (FStr (str "$1500.00")) values) /\
  Dict.get (extract_with_patterns t (str "invoice")) "invoice_number"
  = Some [FStr (str "INV-1001")].
Proof.
  intros t.
  assert (H1 : contains (str "Total: $1500.00") t = true) by (vm_compute; reflexivity).
  assert (H2 : t = [] ++ str "Invoice #INV-1001" ++ str " Total: $1500.00 Tax: $120.00")
    by (vm_compute; reflexivity).
  assert (H3 : identifier_ends (str " Total: $1500.00 Tax: $120.00") = true)
    by (vm_compute; reflexivity).
  assert (H4 : positions IGNORECASE (str "inv") t = [length (@nil N); length (@nil N) + 9])
    by (vm_compute; reflexivity).
  split; [exact H1|]. split; [exact H2|]. split; [exact H3|]. split; [exact H4|].
  split.
  - exact (proj1 (invoice_scenario t) H1).
  - exact (proj2 (invoice_scenario t) [] _ H2 H3 H4).
Defined.

End InvoiceExamples.

(** ** The patterns of the source are in the fragment *)

Section PatternsParse.
Import DocumentParser ReSpec.

Lemma table_patterns_parse :
  forallb (fun tbl => forallb (fun fp => parses (snd fp)) (snd tbl)) patterns = true.
Proof. vm_compute. reflexivity. Qed.

Lemma other_patterns_parse :
  forallb parses
    ["Page\s+\d+\s+of\s+\d+"; "Confidential|Proprietary"; "\s+";
     "contact.*?information:?(.*?)(?=\n\n|\n[A-Z]|\Z)";
     "details:?(.*?)(?=\n\n|\n[A-Z]|\Z)";
     "for more.*?information:?(.*?)(?=\n\n|\n[A-Z]|\Z)";
     "(?:name|holder|account holder|contact):\s*([A-Z][a-z]+(?:\s+[A-Z][a-z]+)+)";
     "(?:mr\.|mrs\.|ms\.|dr\.)\s+([A-Z][a-z]+(?:\s+[A-Z][a-z]+)+)";
     "prepared by:\s*([A-Z][a-z]+(?:\s+[A-Z][a-z]+)+)";
     "issued to:\s*([A-Z][a-z]+(?:\s+[A-Z][a-z]+)+)";
     "attention:\s*([A-Z][a-z]+(?:\s+[A-Z][a-z]+)+)";
     "attn:\s*([A-Z][a-z]+(?:\s+[A-Z][a-z]+)+)";
     "[a-zA-Z0-9._%+-]+@[a-zA-Z0-9.-]+\.[a-zA-Z]{2,}";
     "(\+?\d{1,3}[-.\s]?\(?\d{3}\)?[-.\s]?\d{3}[-.\s]?\d{4})";
     "(\$\d+(?:,\d{3})*(?:\.\d{2})?)";
     "(\d{1,2}[/-]\d{1,2}[/-]\d{2,4})"]%string = true.
Proof. vm_compute. reflexivity. Qed.

End PatternsParse.

Section PatternExamples.
Import DocumentParser Claims.

Lemma extract_with_patterns_fields_witness :
  let t := str "Invoice #INV-1001 Total: $1500.00 due 12/31/2023" in
  ~ List.In (str "memo") known_types /\
  extract_with_patterns t (str "memo") = extract_with_patterns t (str "general").
Proof.
  intros t.
  assert (H : ~ List.In (str "memo") known_types).
  { intros H. vm_compute in H. intuition discriminate. }
  split; [exact H|].
  exact (proj1 (extract_with_patterns_fields t (str "memo")) H).
Defined.

End PatternExamples.

(** * Further properties of the parser and of its callers *)

(** ** Text extraction *)

Section ExtractionProperties.
Import DocumentParser Shapes.
Context {W : World}.

Lemma pdf_concat_lines (pages : list (result text)) (acc : text) :
  pdf_concat pages acc = acc ++ page_lines (readable pages).
Proof.
  revert acc. induction pages as [|[page|e] pages IH]; intros acc;
    cbn [pdf_concat readable page_lines flat_map].
  - now rewrite app_nil_r.
  - destruct page as [|c page].
    + rewrite IH. reflexivity.
    + rewrite IH. unfold page_lines. now rewrite <- !app_assoc.
  - now rewrite app_nil_r.
Qed.

(** X1: [extract_text_from_pdf] never raises.  It returns the text of the
    pages read before the first page that raises, every page that has text
    followed by a line feed, and the empty text when the file cannot be
    opened. *)
Theorem extract_text_from_pdf_pages (file_path : text) :
  extract_text_from_pdf file_path
  = Ok (match pdf_pages file_path with
        | Ok pages => page_lines (readable pages)
        | Raise _ => []
        end).
Proof.
  unfold extract_text_from_pdf. destruct (pdf_pages file_path) as [pages|e];
    [|reflexivity].
  now rewrite pdf_concat_lines.
Qed.

End ExtractionProperties.

(** ** The orchestrator, further *)

Section OrchestratorMore.
Import DocumentParser Claims Shapes ParserData.
Context {SK : Sklearn} {W : World}.

Lemma parse_document_total (self : parser) (path doc_type : text) (use_ml : bool) :
  exists res, parse_document self path doc_type use_ml = Ok res.
Proof.
  unfold parse_document, try_except.
  destruct (parse_body self path doc_type use_ml); now eexists.
Qed.

(** What a successful parse holds, read back from the result. *)
Lemma parse_document_parsed (self : parser) (path doc_type : text) (use_ml : bool)
    (ty : text) (pe ci : Dict.dict (list Re.found)) (nm : name_info)
    (en : Dict.dict (list text)) (ft : ml_features) (c tm : text) :
  parse_document self path doc_type use_ml = Ok (Parsed ty pe ci nm en ft c tm) ->
  exists raw,
    extract_text path = Ok raw /\ raw <> [] /\
    ty = resolve_type self (clean_text raw) doc_type use_ml /\
    (if text_eqb ty (str "invoice")
     then extract_invoice_details (clean_text raw) = Ok pe
     else pe = extract_with_patterns (clean_text raw) ty) /\
    ci = extract_contact_info (clean_text raw) /\
    extract_document_holder_name (clean_text raw) = Ok nm /\
    extract_entities (clean_text raw) = Ok en /\
    extract_features (clean_text raw) = Ok ft /\
    c = (if (1000 <? length (clean_text raw))%nat
         then firstn 1000 (clean_text raw) ++ str "..."
         else clean_text raw) /\
    tm = now_isoformat.
Proof.
  unfold parse_document, parse_body.
  destruct (extract_text_total path) as [raw Hraw]. rewrite Hraw.
  cbn [bind]. destruct raw as [|c0 raw]; [discriminate|].
  set (cl := clean_text (c0 :: raw)).
  set (d := resolve_type self cl doc_type use_ml).
  intros H. exists (c0 :: raw). fold cl. fold d.
  split; [reflexivity|]. split; [discriminate|].
  destruct (text_eqb d (str "invoice")) eqn:Ed.
  - destruct (extract_invoice_details cl) as [pe'|e]; [|discriminate].
    cbn [bind] in H.
    destruct (extract_document_holder_name cl) as [nm'|e]; [|discriminate].
    cbn [bind] in H.
    destruct (extract_entities cl) as [en'|e]; [|discriminate].
    cbn [bind] in H.
    destruct (extract_features cl) as [ft'|e]; [|discriminate].
    cbn [bind try_except] in H. injection H as <- <- <- <- <- <- <- <-.
    rewrite Ed. repeat split; reflexivity.
  - cbn [bind] in H.
    destruct (extract_document_holder_name cl) as [nm'|e]; [|discriminate].
    cbn [bind] in H.
    destruct (extract_entities cl) as [en'|e]; [|discriminate].
    cbn [bind] in H.
    destruct (extract_features cl) as [ft'|e]; [|discriminate].
    cbn [bind try_except] in H. injection H as <- <- <- <- <- <- <- <-.
    rewrite Ed. repeat split; reflexivity.
Qed.

(** X2: [parse_document] gives the failure "No text could be extracted from
    the document", without a time, exactly when the extractor returned the
    empty text; text made of blanks only is not such a failure. *)
Theorem parse_document_no_text_iff (self : parser) (path doc_type : text)
    (use_ml : bool) :
  parse_document self path doc_type use_ml
  = Ok (Failed (str "No text could be extracted from the document") None)
  <-> extract_text path = Ok [].
Proof.
  split.
  - destruct (extract_text_total path) as [raw Hraw]. rewrite Hraw.
    destruct raw as [|c0 raw]; [reflexivity|].
    unfold parse_document, parse_body. rewrite Hraw. cbn [bind].
    match goal with
    | |- try_except ?body _ = _ -> _ => destruct body as [res|e] eqn:E
    end; cbn [try_except]; [|discriminate].
    intros [= ->]. exfalso.
    repeat match type of E with
           | bind ?c _ = _ => destruct c; cbn [bind] in E; [|discriminate]
           end.
    discriminate.
  - intros H. unfold parse_document, parse_body. rewrite H. reflexivity.
Qed.

(** X3: a path with an image extension, in any case, goes to OCR and never
    to the PDF reader; when OCR is not installed, or raises on the file, the
    parse fails with "No text could be extracted from the document". *)
Theorem parse_document_image_without_ocr (self : parser) (path doc_type : text)
    (use_ml : bool) :
  is_image_path path = true ->
  HAS_OCR = false \/ (exists e, image_to_string path = Raise e) ->
  parse_document self path doc_type use_ml
  = Ok (Failed (str "No text could be extracted from the document") None).
Proof.
  intros Himg Hocr. unfold parse_document, parse_body, extract_text.
  unfold is_image_path in Himg. rewrite Himg.
  unfold extract_text_from_image.
  destruct Hocr as [-> | [e He]]; [reflexivity|].
  rewrite He. destruct (negb HAS_OCR); reflexivity.
Qed.

(** X4: without [use_ml] the classifier is not consulted: the result of
    [parse_document] is the same whatever the state of the parser. *)
Theorem parse_document_ignores_classifier (self other : parser)
    (path doc_type : text) :
  parse_document self path doc_type false
  = parse_document other path doc_type false.
Proof. reflexivity. Qed.

(** X5: without [use_ml], a successful parse reports the document type it
    was asked for, as given, also when the type is none of the known ones;
    the patterns are then those [extract_with_patterns] selects for that
    type on the cleaned text, [extract_invoice_details] taking over for
    [invoice]. *)
Theorem parse_document_requested_type (self : parser) (path doc_type : text)
    (res : parse_result) :
  parse_document self path doc_type false = Ok res ->
  success res = true ->
  get_document_type res = Some doc_type /\
  exists raw,
    extract_text path = Ok raw /\ raw <> [] /\
    get_contact_info res = Some (extract_contact_info (clean_text raw)) /\
    (if text_eqb doc_type (str "invoice")
     then exists pe, get_pattern_extraction res = Some pe /\
                     extract_invoice_details (clean_text raw) = Ok pe
     else get_pattern_extraction res
          = Some (extract_with_patterns (clean_text raw) doc_type)).
Proof.
  intros H Hs. destruct res as [ty pe ci nm en ft c tm|]; [|discriminate].
  apply parse_document_parsed in H
    as (raw & Hraw & Hne & Hty & Hpe & Hci & _).
  cbn [resolve_type andb] in Hty. subst ty.
  split; [reflexivity|]. exists raw. repeat split; try assumption.
  - cbn [get_contact_info]. now rewrite Hci.
  - cbn [get_pattern_extraction].
    destruct (text_eqb doc_type (str "invoice")); [now exists pe|now rewrite Hpe].
Qed.

(** X6: the [cleaned_text] of a result is never longer than 1003 code
    points, and its first 1000 code points are those of the cleaned text of
    the document. *)
Theorem parse_document_cleaned_text_bound (self : parser) (path doc_type : text)
    (use_ml : bool) (res : parse_result) (c : text) :
  parse_document self path doc_type use_ml = Ok res ->
  get_cleaned_text res = Some c ->
  length c <= 1003 /\
  exists raw,
    extract_text path = Ok raw /\
    firstn 1000 c = firstn 1000 (clean_text raw).
Proof.
  intros H Hc. destruct res as [ty pe ci nm en ft c' tm|]; [|discriminate].
  injection Hc as ->.
  apply parse_document_parsed in H as (raw & Hraw & _ & _ & _ & _ & _ & _ & _ & Hc & _).
  split.
  - rewrite Hc. destruct (1000 <? length (clean_text raw))%nat eqn:E.
    + apply Nat.ltb_lt in E. rewrite length_app, firstn_length_le by lia.
      assert (H3 : length (str "...") = 3) by (vm_compute; reflexivity).
      rewrite H3. lia.
    + apply Nat.ltb_ge in E. lia.
  - exists raw. split; [exact Hraw|]. rewrite Hc.
    destruct (1000 <? length (clean_text raw))%nat eqn:E; [|reflexivity].
    apply Nat.ltb_lt in E.
    rewrite firstn_app, firstn_firstn, firstn_length_le by lia.
    rewrite Nat.min_id, Nat.sub_diag. cbn [firstn]. now rewrite app_nil_r.
Qed.

End OrchestratorMore.

(** ** The evaluator, further *)

Section EvaluatorMore.
Import DocumentParser Claims Shapes.
Context {SK : Sklearn} {W : World}.







End EvaluatorMore.

(** ** Training, further *)

Section TrainingMore.
Import DocumentParser Claims.
Context {SK : Sklearn}.

(** X8: whatever the outcome of [train_model], a trained parser stays
    trained, the records already in [training_history] stay in place with at
    most one record added after them, and a call that adds none leaves the
    flag and [last_training_samples] as they were. *)
Theorem train_model_keeps_history (W : World) (self : parser) (df : option dataframe) :
  (is_trained self = true -> is_trained (train_model self df) = true) /\
  (training_history (train_model self df) = training_history self \/
   training_history (train_model self df) = training_history self ++ [record_of W df]) /\
  (training_history (train_model self df) = training_history self ->
   is_trained (train_model self df) = is_trained self /\
   last_training_samples (train_model self df) = last_training_samples self).
Proof.
  destruct (snd (train_model_run self df)) eqn:E.
  - destruct (train_success W self df E) as (Ht & Hh & Hl).
    split; [now intros _|]. split; [now right|].
    intros H. rewrite Hh in H. apply (f_equal (@length _)) in H.
    rewrite length_app in H. cbn [length] in H. lia.
  - destruct (train_failure W self df E) as (Ht & Hh & Hl).
    split; [intros H; now rewrite Ht|]. split; [now left|].
    intros _. split; [exact Ht|exact Hl].
Qed.

(** X9: when fitting the random forest raises and the logistic regression
    can be fitted, [train_model] succeeds with the regression as classifier:
    the parser is trained, and holds the fitted vectorizer and label
    encoder, one more record and the sample count of the call. *)
Theorem train_model_falls_back (W : World) (self : parser) (d : dataframe)
    (vec : vectorizer_t) (X X_train X_test : matrix) (le : label_encoder_t)
    (y y_train y_test : labels) (clf clf' : classifier_t) (e : exn) :
  d <> [] ->
  vec_fit_transform (vectorizer self) (List.map fst d) = (vec, Ok X) ->
  le_fit_transform (label_encoder self) (List.map snd d) = (le, Ok y) ->
  train_test_split X y = Ok (X_train, X_test, y_train, y_test) ->
  clf_fit (classifier self) X_train y_train = (clf, Raise e) ->
  clf_fit LogisticRegression X_train y_train = (clf', Ok tt) ->
  train_model self (Some d)
  = {| vectorizer := vec; classifier := clf'; label_encoder := le;
       is_trained := true;
       training_history :=
         training_history self ++ [{| timestamp := now_isoformat; samples := length d |}];
       last_training_samples := length d |}.
Proof.
  intros Hd Hv Hl Hs Hf Hf'. unfold train_model, train_model_run.
  destruct d as [|r d]; [contradiction|].
  change (length (r :: d) =? 0)%nat with false. cbv iota.
  rewrite Hv. cbn [set_vectorizer label_encoder]. rewrite Hl, Hs.
  cbn [set_label_encoder set_vectorizer classifier]. rewrite Hf.
  cbn [bind]. rewrite Hf'. reflexivity.
Qed.

(** X10: when neither classifier can be fitted, [train_model] returns
    without raising and without a record, but not without a trace: the
    vectorizer and the label encoder are the newly fitted ones and the
    classifier is the logistic regression the failed fit left, while
    [is_trained] still says what it said before the call. *)
Theorem train_model_fallback_fails (W : World) (self : parser) (d : dataframe)
    (vec : vectorizer_t) (X X_train X_test : matrix) (le : label_encoder_t)
    (y y_train y_test : labels) (clf clf' : classifier_t) (e e' : exn) :
  d <> [] ->
  vec_fit_transform (vectorizer self) (List.map fst d) = (vec, Ok X) ->
  le_fit_transform (label_encoder self) (List.map snd d) = (le, Ok y) ->
  train_test_split X y = Ok (X_train, X_test, y_train, y_test) ->
  clf_fit (classifier self) X_train y_train = (clf, Raise e) ->
  clf_fit LogisticRegression X_train y_train = (clf', Raise e') ->
  train_model self (Some d)
  = {| vectorizer := vec; classifier := clf'; label_encoder := le;
       is_trained := is_trained self;
       training_history := training_history self;
       last_training_samples := last_training_samples self |}.
Proof.
  intros Hd Hv Hl Hs Hf Hf'. unfold train_model, train_model_run.
  destruct d as [|r d]; [contradiction|].
  change (length (r :: d) =? 0)%nat with false. cbv iota.
  rewrite Hv. cbn [set_vectorizer label_encoder]. rewrite Hl, Hs.
  cbn [set_label_encoder set_vectorizer classifier]. rewrite Hf.
  cbn [bind]. rewrite Hf'. reflexivity.
Qed.

End TrainingMore.

(** ** Persistence, further *)

Section PersistenceMore.
Import DocumentParser Claims ParserData.
Context {SK : Sklearn}.

Lemma drop_to_slash_none (l : text) :
  ~ List.In slash l -> drop_to_slash l = [].
Proof.
  induction l as [|c l IH]; intros Hn; [reflexivity|].
  cbn [drop_to_slash]. destruct (c =? slash)%N eqn:E.
  - apply N.eqb_eq in E. exfalso. apply Hn. now left.
  - apply IH. intros H. apply Hn. now right.
Qed.

Lemma dirname_bare (path : text) : ~ List.In slash path -> dirname path = [].
Proof.
  intros Hn. unfold dirname. rewrite drop_to_slash_none; [reflexivity|].
  intros H. apply Hn. now apply List.in_rev.
Qed.

(** A corrupt artifact: fresh estimators, the flag down, the rest kept. *)
Lemma load_corrupt (self : parser) (path : text) (fs : filesystem) (a : artifact) :
  fs !! path = Some a -> is_corrupt a = true ->
  load_model self path fs
  = ({| vectorizer := TfidfVectorizer; classifier := RandomForestClassifier;
        label_encoder := LabelEncoder; is_trained := false;
        training_history := training_history self;
        last_training_samples := last_training_samples self |}, Ok tt).
Proof.
  intros Ha Hc. unfold load_model, path_exists, load_assign, joblib_load.
  rewrite Ha. cbn [negb]. destruct a as [d|]; cbn [is_corrupt] in Hc.
  - destruct (md_vectorizer d); cbn [require]; [|reflexivity].
    destruct (md_classifier d); cbn [require]; [|reflexivity].
    destruct (md_label_encoder d); cbn [require]; [|reflexivity].
    destruct (md_is_trained d); cbn [require]; [discriminate|reflexivity].
  - reflexivity.
Qed.


(** X12: a path without a slash has no directory part: on it [save_model]
    raises [FileNotFoundError], from [os.makedirs] on the empty name, and
    nothing is written, although the parser is trained. *)
Theorem save_model_bare_name (self : parser) (path : text) (fs : filesystem) :
  is_trained self = true ->
  ~ List.In slash path ->
  save_model self path fs = (fs, Raise (FileNotFoundError [])).
Proof.
  intros Ht Hn. unfold save_model. rewrite Ht, (dirname_bare path Hn). reflexivity.
Qed.

(** X13: a load that succeeds assigns every attribute from the artifact:
    nothing of the loading instance is left, and an artifact without the
    keys [training_history] and [last_training_samples] gives the empty
    history and the count 0. *)
Theorem load_model_overwrites (self : parser) (path : text) (fs : filesystem)
    (d : model_data) (v : vectorizer_t) (c : classifier_t) (l : label_encoder_t)
    (b : bool) :
  fs !! path = Some (Pickle d) ->
  md_vectorizer d = Some v ->
  md_classifier d = Some c ->
  md_label_encoder d = Some l ->
  md_is_trained d = Some b ->
  load_model self path fs
  = ({| vectorizer := v; classifier := c; label_encoder := l; is_trained := b;
        training_history :=
          match md_training_history d with Some h => h | None => [] end;
        last_training_samples :=
          match md_last_training_samples d with Some n => n | None => 0 end |},
     Ok tt).
Proof.
  intros Hp Hv Hc Hl Hb. unfold load_model, path_exists, load_assign, joblib_load.
  rewrite Hp. cbn [negb]. rewrite Hv, Hc, Hl, Hb. reflexivity.
Qed.


(** X15: after [load_model] has failed on a corrupt artifact,
    [get_training_info] reports an untrained parser without classes, and
    with it the sample count and the history of the training that came
    before. *)
Theorem training_info_after_failed_load (self : parser) (path : text)
    (fs : filesystem) (a : artifact) :
  fs !! path = Some a ->
  is_corrupt a = true ->
  get_training_info (fst (load_model self path fs))
  = Ok {| info_training_samples := last_training_samples self;
          info_training_history := training_history self;
          info_is_trained := false;
          info_classes := [] |}.
Proof.
  intros Ha Hc. rewrite (load_corrupt self path fs a Ha Hc). reflexivity.
Qed.

End PersistenceMore.

(** ** Dictionaries *)

Section DictFacts.
Context {V : Type}.

Lemma get_set_eq (d : Dict.dict V) (k : string) (v : V) :
  Dict.get (Dict.set d k v) k = Some v.
Proof.
  induction d as [|[k' v'] d IH]; cbn [Dict.set Dict.get].
  - now rewrite String.eqb_refl.
  - destruct (String.eqb k k') eqn:E; cbn [Dict.get].
    + now rewrite String.eqb_refl.
    + now rewrite E.
Qed.

Lemma get_set_ne (d : Dict.dict V) (k k' : string) (v : V) :
  k' <> k -> Dict.get (Dict.set d k v) k' = Dict.get d k'.
Proof.
  intros Hne. induction d as [|[k0 v0] d IH]; cbn [Dict.set Dict.get].
  - apply String.eqb_neq in Hne. now rewrite Hne.
  - destruct (String.eqb k k0) eqn:E; cbn [Dict.get].
    + apply String.eqb_eq in E. subst k0.
      apply String.eqb_neq in Hne. now rewrite Hne.
    + now rewrite IH.
Qed.

Lemma has_get (d : Dict.dict V) (k : string) :
  Dict.has d k = match Dict.get d k with Some _ => true | None => false end.
Proof. reflexivity. Qed.

End DictFacts.

(** ** Entities *)

Section EntityProperties.
Import DocumentParser Shapes.
Context {W : World}.
Local Open Scope string_scope.
Local Open Scope list_scope.

#[local] Transparent extract_entities.

Lemma add_once_in (x y : text) (xs : list text) :
  List.In y (add_once x xs) <-> y = x \/ List.In y xs.
Proof.
  induction xs as [|z xs IH]; cbn [add_once List.In].
  - intuition.
  - destruct (text_eqb x z) eqn:E; cbn [List.In].
    + apply text_eqb_eq in E. subst z. intuition.
    + rewrite IH. intuition.
Qed.

Lemma add_once_nodup (x : text) (xs : list text) :
  List.NoDup xs -> List.NoDup (add_once x xs).
Proof.
  induction xs as [|z xs IH]; intros Hnd; cbn [add_once].
  - constructor; [intros []|constructor].
  - destruct (text_eqb x z) eqn:E; [exact Hnd|].
    apply List.NoDup_cons_iff in Hnd as [Hz Hnd].
    constructor; [|now apply IH].
    rewrite add_once_in. intros [->|H]; [|contradiction].
    now rewrite text_eqb_refl in E.
Qed.

(** The loop of [extract_entities] for one label. *)
Lemma collect_kind (kind : text) (ents : list (text * text)) (acc : list text) :
  let names :=
    fold_left (fun acc e =>
                 if text_eqb kind (snd e) then add_once (fst e) acc else acc)
              ents acc in
  (List.NoDup acc -> List.NoDup names) /\
  forall x, List.In x names <-> List.In x acc \/ List.In (x, kind) ents.
Proof.
  revert acc. induction ents as [|[n l] ents IH]; intros acc; cbn [fold_left].
  - cbv zeta. cbn [List.In]. intuition.
  - cbn [fst snd]. destruct (text_eqb kind l) eqn:E.
    + apply text_eqb_eq in E. subst l.
      destruct (IH (add_once n acc)) as [Hnd Hin]. cbv zeta in *. split.
      * intros H. now apply Hnd, add_once_nodup.
      * intros x. rewrite Hin, add_once_in. cbn [List.In].
        split; [intros [[->|H]|H]; auto|intros [H|[[= -> ]|H]]; auto].
    + destruct (IH acc) as [Hnd Hin]. cbv zeta in *. split; [exact Hnd|].
      intros x. rewrite Hin. cbn [List.In].
      split; [intros [H|H]; auto|intros [H|[[= -> ->]|H]]; auto].
      now rewrite text_eqb_refl in E.
Qed.

Lemma get_map_keys {V : Type} (f : string -> V) (keys : list string) (k : string)
    (v : V) :
  Dict.get (List.map (fun k => (k, f k)) keys) k = Some v -> v = f k.
Proof.
  induction keys as [|k0 keys IH]; cbn [List.map Dict.get]; [discriminate|].
  destruct (String.eqb k k0) eqn:E; [|exact IH].
  apply String.eqb_eq in E. subst k0. now intros [= <-].
Qed.

(** X16: [extract_entities] always returns the six keys PERSON, ORG, GPE,
    DATE, MONEY and PRODUCT, in this order, also when nothing was found;
    under each key stand the texts of the entities with that label, every
    text once, and entities with another label are left out. *)
Theorem extract_entities_complete (t : text) (ents : list (text * text)) :
  nlp_ents t = Ok ents ->
  exists d,
    extract_entities t = Ok d /\
    List.map fst d = ["PERSON"; "ORG"; "GPE"; "DATE"; "MONEY"; "PRODUCT"] /\
    forall kind names,
      Dict.get d kind = Some names ->
      List.NoDup names /\
      forall x, List.In x names <-> List.In (x, str kind) ents.
Proof.
  intros Hn. unfold extract_entities. rewrite Hn. cbn [bind].
  eexists. split; [reflexivity|]. split; [reflexivity|].
  intros kind names Hget.
  apply (get_map_keys
           (fun kind =>
              fold_left (fun acc e =>
                           if text_eqb (str kind) (snd e)
                           then add_once (fst e) acc else acc) ents [])) in Hget.
  subst names. destruct (collect_kind (str kind) ents []) as [Hnd Hin].
  cbv zeta in *. split; [apply Hnd; constructor|].
  intros x. rewrite Hin. cbn [List.In]. tauto.
Qed.

End EntityProperties.

(** ** Invoice details *)

Section InvoiceDetails.
Import DocumentParser Shapes.
Context {W : World}.
Local Open Scope string_scope.
Local Open Scope list_scope.

(** The loop over the persons never replaces a value. *)
Lemma fill_names_keeps (persons : list text) (res : Dict.dict (list Re.found))
    (field : string) (v : list Re.found) :
  Dict.get res field = Some v -> Dict.get (fill_names persons res) field = Some v.
Proof.
  revert res. induction persons as [|p persons IH]; intros res Hget; [exact Hget|].
  cbn [fill_names]. destruct (2 <=? length (split_ws p))%nat; [|now apply IH].
  apply IH.
  assert (H1 : Dict.get
                 (if Dict.has res "first_name" then res
                  else Dict.set res "first_name" (strs (firstn 1 (split_ws p))))
                 field = Some v).
  { rewrite has_get. destruct (Dict.get res "first_name") eqn:E; [exact Hget|].
    rewrite get_set_ne; [exact Hget|]. intros ->. congruence. }
  revert H1. generalize (if Dict.has res "first_name" then res
                         else Dict.set res "first_name" (strs (firstn 1 (split_ws p)))).
  intros res1 H1. rewrite has_get.
  destruct (Dict.get res1 "last_name") eqn:E; [exact H1|].
  rewrite get_set_ne; [exact H1|]. intros ->. congruence.
Qed.

(** It only ever writes the two name fields. *)
Lemma fill_names_frame (persons : list text) (res : Dict.dict (list Re.found))
    (field : string) :
  field <> "first_name" -> field <> "last_name" ->
  Dict.get (fill_names persons res) field = Dict.get res field.
Proof.
  intros Hf Hl. revert res. induction persons as [|p persons IH]; intros res;
    [reflexivity|].
  cbn [fill_names]. destruct (2 <=? length (split_ws p))%nat; [|apply IH].
  rewrite IH.
  destruct (Dict.has _ "last_name"); [|rewrite get_set_ne by exact Hl];
    (destruct (Dict.has res "first_name"); [|rewrite get_set_ne by exact Hf]);
    reflexivity.
Qed.

Lemma fill_names_first (persons : list text) (res : Dict.dict (list Re.found)) :
  Dict.get res "first_name" = None ->
  Dict.get (fill_names persons res) "first_name"
  = match first_full_name persons with
    | Some p => Some [Re.FStr (hd [] (split_ws p))]
    | None => None
    end.
Proof.
  revert res. induction persons as [|p persons IH]; intros res Hget; [exact Hget|].
  cbn [fill_names]. unfold first_full_name in *. cbn [List.find].
  destruct (2 <=? length (split_ws p))%nat eqn:E; [|now apply IH].
  apply fill_names_keeps. unfold Dict.has. rewrite Hget.
  assert (Hv : strs (firstn 1 (split_ws p)) = [Re.FStr (hd [] (split_ws p))]).
  { destruct (split_ws p) as [|a parts]; [discriminate|reflexivity]. }
  rewrite Hv.
  destruct (Dict.get (Dict.set res "first_name" _) "last_name");
    [|rewrite get_set_ne by discriminate]; apply get_set_eq.
Qed.

Lemma fill_names_last (persons : list text) (res : Dict.dict (list Re.found)) :
  Dict.get res "last_name" = None ->
  Dict.get (fill_names persons res) "last_name"
  = match first_full_name persons with
    | Some p => Some [Re.FStr (List.last (split_ws p) [])]
    | None => None
    end.
Proof.
  revert res. induction persons as [|p persons IH]; intros res Hget; [exact Hget|].
  cbn [fill_names]. unfold first_full_name in *. cbn [List.find].
  destruct (2 <=? length (split_ws p))%nat eqn:E; [|now apply IH].
  apply fill_names_keeps. unfold Dict.has.
  assert (H1 : Dict.get
                 (match Dict.get res "first_name" with
                  | Some _ => res
                  | None => Dict.set res "first_name" (strs (firstn 1 (split_ws p)))
                  end) "last_name" = None).
  { destruct (Dict.get res "first_name"); [exact Hget|].
    rewrite get_set_ne by discriminate. exact Hget. }
  destruct (Dict.get res "first_name"); rewrite H1; apply get_set_eq.
Qed.

(** X17: the entity recogniser never overrides a pattern: every field the
    invoice patterns found has in the result of [extract_invoice_details]
    the value [extract_with_patterns] gave it, and no field other than
    [first_name], [last_name] and [city] is added. *)
Theorem extract_invoice_details_keeps_patterns (t : text)
    (res : Dict.dict (list Re.found)) :
  extract_invoice_details t = Ok res ->
  forall field,
    (forall v, Dict.get (extract_with_patterns t (str "invoice")) field = Some v ->
               Dict.get res field = Some v) /\
    (field <> "first_name" -> field <> "last_name" -> field <> "city" ->
     Dict.get res field = Dict.get (extract_with_patterns t (str "invoice")) field).
Proof.
  unfold extract_invoice_details. destruct (nlp_ents t) as [ents|e]; [|discriminate].
  cbn [bind]. intros [= <-] field.
  set (pats := extract_with_patterns t (str "invoice")).
  set (filled := fill_names (ents_with ["PERSON"] ents) pats).
  split.
  - intros v Hv. apply (fill_names_keeps (ents_with ["PERSON"] ents)) in Hv.
    fold filled in Hv.
    destruct (ents_with ["GPE"; "LOC"] ents); [exact Hv|].
    rewrite has_get. destruct (Dict.get filled "city") eqn:E; [exact Hv|].
    rewrite get_set_ne; [exact Hv|]. intros ->. congruence.
  - intros Hf Hl Hc.
    assert (Hfr : Dict.get filled field = Dict.get pats field)
      by now apply fill_names_frame.
    destruct (ents_with ["GPE"; "LOC"] ents); [exact Hfr|].
    destruct (Dict.has filled "city"); [exact Hfr|].
    now rewrite get_set_ne.
Qed.

(** X18: what the patterns left open is taken from the entities:
    [first_name] and [last_name] are the first and the last word of the
    first PERSON entity that has two words at least, and [city] is the list
    of all GPE and LOC entities; without such an entity the field stays
    absent. *)
Theorem extract_invoice_details_fills (t : text) (ents : list (text * text))
    (res : Dict.dict (list Re.found)) :
  nlp_ents t = Ok ents ->
  extract_invoice_details t = Ok res ->
  let pats := extract_with_patterns t (str "invoice") in
  let person := first_full_name (ents_with ["PERSON"] ents) in
  (Dict.get pats "first_name" = None ->
   Dict.get res "first_name"
   = option_map (fun p => [Re.FStr (hd [] (split_ws p))]) person) /\
  (Dict.get pats "last_name" = None ->
   Dict.get res "last_name"
   = option_map (fun p => [Re.FStr (List.last (split_ws p) [])]) person) /\
  (Dict.get pats "city" = None ->
   Dict.get res "city"
   = match ents_with ["GPE"; "LOC"] ents with
     | [] => None
     | places => Some (List.map Re.FStr places)
     end).
Proof.
  intros Hn Hres pats person. unfold extract_invoice_details in Hres.
  rewrite Hn in Hres. cbn [bind] in Hres. injection Hres as <-. fold pats.
  set (filled := fill_names (ents_with ["PERSON"] ents) pats).
  assert (Hcity : forall field, field <> "city" ->
            Dict.get
              match ents_with ["GPE"; "LOC"] ents with
              | [] => filled
              | _ :: _ =>
                  if Dict.has filled "city" then filled
                  else Dict.set filled "city" (strs (ents_with ["GPE"; "LOC"] ents))
              end field = Dict.get filled field).
  { intros field Hne. destruct (ents_with ["GPE"; "LOC"] ents); [reflexivity|].
    destruct (Dict.has filled "city"); [reflexivity|]. now rewrite get_set_ne. }
  split; [|split].
  - intros H. rewrite Hcity by discriminate. unfold filled.
    rewrite fill_names_first by exact H. fold person. now destruct person.
  - intros H. rewrite Hcity by discriminate. unfold filled.
    rewrite fill_names_last by exact H. fold person. now destruct person.
  - intros H.
    assert (Hf : Dict.get filled "city" = None).
    { unfold filled. rewrite fill_names_frame by discriminate. exact H. }
    destruct (ents_with ["GPE"; "LOC"] ents) as [|g places] eqn:E; [exact Hf|].
    rewrite has_get, Hf. apply get_set_eq.
Qed.

End InvoiceDetails.

(** ** Contact information *)

Section ContactInfo.
Import DocumentParser Claims Shapes.
Context {W : World}.
Local Open Scope string_scope.
Local Open Scope list_scope.

#[local] Transparent extract_contact_info.

Lemma contact_table : selected_table (str "contact") = contact_patterns.
Proof. vm_compute. reflexivity. Qed.

Lemma contact_has_no_blocks (t : text) :
  Dict.get (extract_with_patterns t (str "contact")) "contact_blocks" = None.
Proof.
  rewrite extract_with_patterns_unfold, contact_table.
  apply get_entries_absent. vm_compute. intuition discriminate.
Qed.

Lemma enhance_phones_invalid (phones : list Re.found) :
  (forall phone, List.In phone phones ->
     phone_international (found_text phone) = Ok None) ->
  enhance_phones phones = [].
Proof.
  induction phones as [|p phones IH]; intros H; [reflexivity|].
  cbn [enhance_phones]. rewrite (H p) by now left.
  apply IH. intros q Hq. apply H. now right.
Qed.

(** [extract_contact_info] as two writes on the contact patterns. *)
Lemma extract_contact_info_unfold (t : text) :
  let contact := extract_with_patterns t (str "contact") in
  let phones := enhance_phones (Dict.get_default contact "phone" []) in
  let blocks :=
    List.filter (fun block => (10 <? length (found_text block))%nat)
      (List.map (fun block =>
                   Re.FStr (strip (Re.sub Re.no_flags whitespace_run (str " ")
                                     (found_text block))))
         (flat_map (fun pattern => Re.findall Re.IGNORECASE_DOTALL pattern t)
            contact_block_patterns)) in
  extract_contact_info t
  = match blocks with
    | _ :: _ =>
        Dict.set match phones with
                 | _ :: _ => Dict.set contact "phone" phones
                 | [] => contact
                 end "contact_blocks" blocks
    | [] => match phones with
            | _ :: _ => Dict.set contact "phone" phones
            | [] => contact
            end
    end.
Proof. reflexivity. Qed.

(** X19: when the phone library finds none of the matched numbers valid,
    none is dropped: the [phone] field keeps the numbers as the pattern
    matched them. *)
Theorem extract_contact_info_invalid_phones (t : text) :
  (forall phone,
     List.In phone
       (Dict.get_default (extract_with_patterns t (str "contact")) "phone" []) ->
     phone_international (found_text phone) = Ok None) ->
  Dict.get (extract_contact_info t) "phone"
  = Dict.get (extract_with_patterns t (str "contact")) "phone".
Proof.
  intros H. rewrite extract_contact_info_unfold. cbv zeta.
  rewrite (enhance_phones_invalid _ H).
  match goal with
  | |- Dict.get (match ?blocks with _ => _ end) _ = _ => destruct blocks
  end; [reflexivity|].
  now rewrite get_set_ne.
Qed.

(** X20: every entry of [contact_blocks] is a text longer than 10 code
    points, without whitespace at its margins and with no whitespace inside
    but the space; the key is present only with an entry. *)
Theorem extract_contact_info_blocks (t : text) (blocks : list Re.found) :
  Dict.get (extract_contact_info t) "contact_blocks" = Some blocks ->
  blocks <> [] /\
  List.Forall
    (fun block =>
       exists s, block = Re.FStr s /\ 10 < length s /\ strip s = s /\
                 List.Forall (fun c => isspace c = true -> c = 32%N) s)
    blocks.
Proof.
  rewrite extract_contact_info_unfold. cbv zeta.
  set (contact := extract_with_patterns t (str "contact")).
  set (phones := enhance_phones (Dict.get_default contact "phone" [])).
  set (raw := flat_map (fun pattern => Re.findall Re.IGNORECASE_DOTALL pattern t)
                contact_block_patterns).
  set (cleaned := List.map _ raw).
  assert (Hno : Dict.get match phones with
                         | _ :: _ => Dict.set contact "phone" phones
                         | [] => contact
                         end "contact_blocks" = None).
  { destruct phones; [|rewrite get_set_ne by discriminate];
      apply contact_has_no_blocks. }
  destruct (List.filter _ cleaned) as [|b bs] eqn:E.
  - rewrite Hno. discriminate.
  - rewrite get_set_eq. intros [= <-]. split; [discriminate|].
    rewrite <- E. apply List.Forall_forall. intros block Hin.
    apply List.filter_In in Hin as [Hin Hlen].
    unfold cleaned in Hin. apply List.in_map_iff in Hin as (x & <- & _).
    cbn [found_text] in Hlen. eexists. split; [reflexivity|].
    split; [now apply Nat.ltb_lt|]. split; [apply strip_idem|].
    apply strip_forall.
    assert (Hsp : str " " = [32%N]) by (vm_compute; reflexivity).
    rewrite Hsp. apply collapse_spaces.
Qed.

(** X21: apart from [phone] and [contact_blocks], the result of
    [extract_contact_info] is that of [extract_with_patterns] for the type
    [contact], field by field. *)
Theorem extract_contact_info_frame (t : text) (field : string) :
  field <> "phone" ->
  field <> "contact_blocks" ->
  Dict.get (extract_contact_info t) field
  = Dict.get (extract_with_patterns t (str "contact")) field.
Proof.
  intros Hp Hb. rewrite extract_contact_info_unfold. cbv zeta.
  match goal with
  | |- Dict.get (match ?blocks with _ => _ end) _ = _ => destruct blocks
  end; [|rewrite get_set_ne by exact Hb];
    (match goal with
     | |- Dict.get (match ?phones with _ => _ end) _ = _ => destruct phones
     end; [|rewrite get_set_ne by exact Hp]); reflexivity.
Qed.

End ContactInfo.

(** ** The name of the holder *)

Section HolderName.
Import DocumentParser Claims Shapes.
Context {W : World}.
Local Open Scope string_scope.
Local Open Scope list_scope.

Lemma insert_by_score_perm (t x : text) (sorted : list text) :
  Permutation (insert_by_score t x sorted) (x :: sorted).
Proof.
  induction sorted as [|y sorted IH]; cbn [insert_by_score]; [reflexivity|].
  destruct (name_score t x <? name_score t y)%nat; [|reflexivity].
  rewrite IH. apply perm_swap.
Qed.

Lemma sort_by_score_perm (t : text) (names : list text) :
  Permutation (fold_right (insert_by_score t) [] names) names.
Proof.
  induction names as [|x names IH]; cbn [fold_right]; [reflexivity|].
  rewrite insert_by_score_perm. now constructor.
Qed.

(** X22: the candidates [extract_document_holder_name] returns are
    distinct, each has two words at least and more than four code points,
    and each is a PERSON entity or the group of a match of one of the
    holder patterns; [primary_name] is the first candidate, and [None]
    exactly when there is no candidate. *)
Theorem holder_name_candidates (t : text) (ents : list (text * text)) :
  nlp_ents t = Ok ents ->
  exists info,
    extract_document_holder_name t = Ok info /\
    List.NoDup (candidate_names info) /\
    List.Forall (fun name => 2 <= length (split_ws name) /\ 4 < length name)
      (candidate_names info) /\
    (forall name, List.In name (candidate_names info) ->
       List.In (name, str "PERSON") ents \/
       exists pattern found,
         List.In pattern holder_patterns /\
         List.In found (Re.findall Re.IGNORECASE pattern t) /\
         name = found_text found) /\
    primary_name info = hd_error (candidate_names info) /\
    (primary_name info = None <-> candidate_names info = []).
Proof.
  intros Hn. unfold extract_document_holder_name. rewrite Hn. cbn [bind].
  eexists. split; [reflexivity|]. cbn [candidate_names primary_name].
  set (names := flat_map _ holder_patterns).
  set (all := list_set text_eqb (names ++ ents_with ["PERSON"] ents)).
  set (filtered := List.filter _ all).
  destruct (list_set_spec text_eqb (names ++ ents_with ["PERSON"] ents) text_eqb_eq)
    as [Hnd Hin]. fold all in Hnd, Hin.
  pose proof (sort_by_score_perm t filtered) as Hperm.
  split; [|split; [|split; [|split]]].
  - eapply Permutation_NoDup; [symmetry; exact Hperm|].
    now apply List.NoDup_filter.
  - eapply Permutation_Forall; [symmetry; exact Hperm|].
    apply List.Forall_forall. intros name Hname.
    apply List.filter_In in Hname as [_ Hname].
    apply andb_true_iff in Hname as [H2 H4].
    split; [now apply Nat.leb_le|now apply Nat.ltb_lt].
  - intros name Hname.
    apply (Permutation_in _ Hperm) in Hname.
    apply List.filter_In in Hname as [Hname _].
    apply Hin, List.in_app_iff in Hname as [Hname|Hname].
    + right. unfold names in Hname.
      apply List.in_flat_map in Hname as (pattern & Hp & Hname).
      apply List.in_map_iff in Hname as (found & <- & Hf).
      now exists pattern, found.
    + left. unfold ents_with in Hname.
      apply List.in_map_iff in Hname as ([n l] & <- & Hname).
      apply List.filter_In in Hname as [Hname Hl].
      cbn [existsb snd orb] in Hl. rewrite orb_false_r in Hl.
      apply text_eqb_eq in Hl. cbn [fst]. now rewrite Hl.
  - reflexivity.
  - destruct (fold_right (insert_by_score t) [] filtered); cbn [hd_error];
      split; congruence.
Qed.

End HolderName.

(** ** Empty text, and when a parse succeeds *)

Section EdgeCases.
Import DocumentParser Claims Shapes.
Context {SK : Sklearn} {W : World}.
Local Open Scope string_scope.
Local Open Scope list_scope.

#[local] Transparent extract_entities extract_features.

(** X23: on the empty text [extract_with_patterns] returns the empty
    dictionary, whatever the document type: no pattern of any table matches
    the empty text. *)
Theorem extract_with_patterns_empty_text (doc_type : text) :
  extract_with_patterns [] doc_type = [].
Proof.
  rewrite extract_with_patterns_unfold. unfold selected_table, patterns.
  cbn [patterns_get].
  repeat match goal with
         | |- context [text_eqb ?k doc_type] =>
             destruct (text_eqb k doc_type); [vm_compute; reflexivity|]
         end.
  vm_compute. reflexivity.
Qed.

(** X24: a parse succeeds exactly when the extractor returned some text and
    the entity recogniser does not raise on the cleaned text; nothing else
    can make it fail, whatever the document type and the classifier. *)
Theorem parse_document_success_iff (self : parser) (path doc_type raw : text)
    (use_ml : bool) :
  extract_text path = Ok raw ->
  (exists res, parse_document self path doc_type use_ml = Ok res /\
               success res = true)
  <-> raw <> [] /\ exists ents, nlp_ents (clean_text raw) = Ok ents.
Proof.
  intros Hraw. split.
  - intros (res & H & Hs).
    destruct res as [ty pe ci nm en ft c tm|]; [|discriminate].
    apply parse_document_parsed in H
      as (raw' & Hraw' & Hne & _ & _ & _ & _ & Hen & _).
    rewrite Hraw in Hraw'. injection Hraw' as <-. split; [exact Hne|].
    unfold extract_entities in Hen.
    destruct (nlp_ents (clean_text raw)) as [ents|e]; [now exists ents|discriminate].
  - intros (Hne & ents & Hn). unfold parse_document, parse_body.
    rewrite Hraw. cbn [bind]. destruct raw as [|c0 raw]; [contradiction|].
    unfold extract_invoice_details, extract_document_holder_name,
      extract_entities, extract_features.
    rewrite Hn. cbn [bind].
    destruct (text_eqb _ (str "invoice")); cbn [bind try_except];
      eexists; split; reflexivity.
Qed.

End EdgeCases.

(** ** Training data from images *)

Section ImageData.
Import DocumentParser ParserData.
Context {W : World} {F : ImageFolder}.

Lemma image_rows_spec (document_type : text) (f : image_file) (r : image_sample) :
  HAS_OCR = true ->
  List.In r (image_rows document_type f) ->
  image_to_string (image_path f) = Ok (sample_text r) /\
  strip (sample_text r) <> [] /\
  sample_document_type r = document_type /\
  sample_source_file r = image_name f.
Proof.
  intros Hocr. unfold image_rows, extract_text_from_image. rewrite Hocr.
  cbn [negb]. destruct (image_to_string (image_path f)) as [t|e];
    cbn [try_except].
  - destruct (strip t) as [|c s] eqn:E; [intros []|].
    intros [<-|[]]. cbn [sample_text sample_document_type sample_source_file].
    rewrite E. repeat split. discriminate.
  - change (strip []) with (@nil N). intros [].
Qed.

Lemma flat_map_length_le {A B : Type} (f : A -> list B) (l : list A) :
  (forall a, length (f a) <= 1) -> length (flat_map f l) <= length l.
Proof.
  intros H. induction l as [|a l IH]; cbn [flat_map length]; [lia|].
  rewrite length_app. specialize (H a). lia.
Qed.

(** X25: every row [load_training_data_from_images] returns carries the
    requested document type, the name of an image found under one of the
    five extensions, and the text OCR read from that image, which is not
    blank; an image on which OCR raises or reads nothing gives no row and
    does not stop the load.  Without OCR, or without the directory, there is
    no row. *)
Theorem load_training_data_from_images_rows (image_dir document_type : text) :
  (forall r, List.In r (load_training_data_from_images image_dir document_type) ->
     sample_document_type r = document_type /\
     strip (sample_text r) <> [] /\
     exists extension f,
       List.In extension image_extensions /\
       List.In f (folder_glob image_dir extension) /\
       sample_source_file r = image_name f /\
       image_to_string (image_path f) = Ok (sample_text r)) /\
  (HAS_OCR = false \/ folder_exists image_dir = false ->
   load_training_data_from_images image_dir document_type = []) /\
  length (load_training_data_from_images image_dir document_type)
  <= length (flat_map (folder_glob image_dir) image_extensions).
Proof.
  unfold load_training_data_from_images. split; [|split].
  - destruct HAS_OCR eqn:Hocr; cbn [negb]; [|intros r []].
    destruct (folder_exists image_dir); cbn [negb]; [|intros r []].
    intros r Hr. apply List.in_flat_map in Hr as (extension & Hext & Hr).
    apply List.in_flat_map in Hr as (f & Hf & Hr).
    destruct (image_rows_spec document_type f r Hocr Hr) as (Ho & Hs & Ht & Hn).
    split; [exact Ht|]. split; [exact Hs|]. now exists extension, f.
  - intros [-> | ->]; [reflexivity|]. now destruct (negb HAS_OCR).
  - destruct (negb HAS_OCR); [apply Nat.le_0_l|].
    destruct (negb (folder_exists image_dir)); [apply Nat.le_0_l|].
    induction image_extensions as [|extension exts IH]; cbn [flat_map];
      [apply Nat.le_0_l|].
    rewrite !length_app.
    assert (length (flat_map (image_rows document_type)
                      (folder_glob image_dir extension))
            <= length (folder_glob image_dir extension)); [|lia].
    apply flat_map_length_le. intros f. unfold image_rows.
    destruct (extract_text_from_image (image_path f)) as [t|e]; [|cbn; lia].
    destruct (strip t); cbn; lia.
Qed.

End ImageData.

(** ** The training pipeline *)

Section PipelineProperties.
Import DocumentParser Claims TrainingPipeline.
Context {SK : Sklearn} {W : World} {D : Directory}.
Local Open Scope string_scope.
Local Open Scope list_scope.

Lemma startswith_app (p l l' : text) :
  startswith p l = true -> startswith p (l ++ l') = true.
Proof.
  revert l. induction p as [|a p IH]; intros l H; [reflexivity|].
  destruct l as [|b l]; [discriminate|]. cbn [startswith app] in *.
  apply andb_true_iff in H as [Hab H]. rewrite Hab. now apply IH.
Qed.

Lemma endswith_app (x t suffix : text) :
  endswith t suffix = true -> endswith (x ++ t) suffix = true.
Proof.
  unfold endswith. rewrite rev_app_distr. apply startswith_app.
Qed.

Lemma endswith_join (folder_path filename suffix : text) :
  endswith filename suffix = true ->
  endswith (os_path_join folder_path filename) suffix = true.
Proof.
  intros H. unfold os_path_join.
  destruct (startswith [slash] filename); [exact H|].
  destruct folder_path as [|c folder_path]; [exact H|].
  destruct (endswith (c :: folder_path) [slash]).
  - now apply endswith_app.
  - rewrite app_assoc. now apply endswith_app.
Qed.

Lemma folder_rows_ok (dir : text) (folder doc_type : string) (filenames : list text) :
  List.In (folder, doc_type) type_mapping ->
  os_listdir (os_path_join dir (str folder)) = Ok filenames ->
  List.Forall (Shapes.labeled_row_ok dir)
    (folder_rows (os_path_join dir (str folder)) doc_type filenames).
Proof.
  intros Hmap Hls. apply List.Forall_forall. intros r Hr. unfold folder_rows in Hr.
  apply List.in_flat_map in Hr as (filename & Hf & Hr).
  destruct (endswith filename (str ".pdf")) eqn:Epdf; [|destruct Hr].
  cbv zeta in Hr.
  destruct (extract_text_from_pdf _) as [t|e] eqn:Et; [|destruct Hr].
  destruct (50 <? length t)%nat eqn:Elen; [|destruct Hr].
  destruct Hr as [<-|[]]. unfold Shapes.labeled_row_ok.
  cbn [row_text row_document_type row_file_path].
  split; [now apply Nat.ltb_lt|]. split; [now apply endswith_join|].
  split; [exact Et|]. now exists folder, doc_type, filenames, filename.
Qed.

Lemma load_folders_ok (dir : text) (mapping : list (string * string))
    (acc rows : list labeled_row) :
  (forall entry, List.In entry mapping -> List.In entry type_mapping) ->
  List.Forall (Shapes.labeled_row_ok dir) acc ->
  load_folders dir mapping acc = Ok rows ->
  List.Forall (Shapes.labeled_row_ok dir) rows.
Proof.
  revert acc. induction mapping as [|[folder doc_type] mapping IH];
    intros acc Hsub Hacc; cbn [load_folders].
  - now intros [= <-].
  - assert (Hsub' : forall entry, List.In entry mapping -> List.In entry type_mapping)
      by (intros entry H; apply Hsub; now right).
    destruct (negb (os_path_exists _)); [now apply IH|].
    destruct (os_listdir _) as [filenames|e] eqn:Els; [|discriminate].
    cbn [bind]. apply IH; [exact Hsub'|].
    apply List.Forall_app. split; [exact Hacc|].
    apply folder_rows_ok; [|exact Els]. apply Hsub. now left.
Qed.

(** X26: every row [load_labeled_data] returns comes from a file with the
    extension [.pdf] listed in one of the folders [invoices], [receipts],
    [contracts] and [letters] of the data directory, is labelled with the
    type of its folder, and holds the text of the file, which is longer
    than 50 code points; shorter and unreadable files give no row. *)
Theorem load_labeled_data_rows (self : pipeline) (rows : list labeled_row) :
  load_labeled_data self = Ok rows ->
  List.Forall (Shapes.labeled_row_ok (data_dir self)) rows.
Proof.
  unfold load_labeled_data. apply load_folders_ok; [auto|constructor].
Qed.



End PipelineProperties.

(** ** The batch processor *)

Section BatchProperties.
Import DocumentParser Claims BatchProcessor.
Context {SK : Sklearn} {W : World} {B : Directories}.




(** X30: the entries [process_directory] returns do not depend on the model
    path: the parser it constructs is never asked for a prediction, since
    every file is parsed without [use_ml]. *)
Theorem process_directory_ignores_model (input_dir output_dir : text)
    (model_path other_path : option text) (fs other_fs : filesystem) :
  process_directory input_dir output_dir model_path fs
  = process_directory input_dir output_dir other_path other_fs.
Proof. reflexivity. Qed.

End BatchProperties.

(** ** The further properties on concrete inputs *)

Section MoreExamples.
Import DocumentParser Claims Shapes ParserData TrainingPipeline BatchProcessor.
Import Scenario Scenario2.
Local Open Scope string_scope.
Local Open Scope list_scope.

Lemma parse_document_image_without_ocr_witness :
  is_image_path (str "scans/page.PNG") = true /\
  @HAS_OCR world = false /\
  @parse_document keyword_sklearn world new_parser (str "scans/page.PNG")
    (str "general") false
  = Ok (Failed (str "No text could be extracted from the document") None).
Proof.
  assert (H : is_image_path (str "scans/page.PNG") = true)
    by (vm_compute; reflexivity).
  split; [exact H|]. split; [reflexivity|].
  exact (@parse_document_image_without_ocr keyword_sklearn world new_parser
           (str "scans/page.PNG") (str "general") false H (or_introl eq_refl)).
Defined.

Lemma parse_document_requested_type_witness :
  exists res,
    @parse_document keyword_sklearn world new_parser (str "docs/a.pdf")
      (str "memo") false = Ok res /\
    success res = true /\
    get_document_type res = Some (str "memo").
Proof.
  destruct (@parse_document_total keyword_sklearn world new_parser
              (str "docs/a.pdf") (str "memo") false) as [res H].
  assert (Hs : success res = true).
  { vm_compute in H. injection H as <-. reflexivity. }
  exists res. split; [exact H|]. split; [exact Hs|].
  exact (proj1 (parse_document_requested_type new_parser (str "docs/a.pdf")
                  (str "memo") res H Hs)).
Defined.

Lemma parse_document_cleaned_text_bound_witness :
  exists res c,
    @parse_document keyword_sklearn world new_parser (str "docs/b.pdf")
      (str "receipt") false = Ok res /\
    get_cleaned_text res = Some c /\
    length c <= 1003.
Proof.
  destruct (@parse_document_total keyword_sklearn world new_parser
              (str "docs/b.pdf") (str "receipt") false) as [res H].
  destruct (get_cleaned_text res) as [c|] eqn:Hc.
  - exists res, c. split; [exact H|]. split; [exact Hc|].
    exact (proj1 (parse_document_cleaned_text_bound new_parser (str "docs/b.pdf")
                    (str "receipt") false res c H Hc)).
  - exfalso. vm_compute in H. injection H as <-. discriminate.
Defined.


Lemma train_model_falls_back_witness :
  @clf_fit fragile_sklearn RandomForestClassifier (List.map fst training_set)
    (List.map snd training_set) = (0, Raise FitError) /\
  let trained := @train_model fragile_sklearn world new_parser (Some training_set) in
  is_trained trained = true /\ classifier trained = 2.
Proof.
  split; [reflexivity|]. intros trained.
  assert (Hd : training_set <> []) by discriminate.
  pose proof (@train_model_falls_back fragile_sklearn world new_parser training_set
                true (List.map fst training_set) (List.map fst training_set)
                (List.map fst training_set)
                (list_set text_eqb (List.map snd training_set))
                (List.map snd training_set) (List.map snd training_set)
                (List.map snd training_set) 0 2 FitError
                Hd eq_refl eq_refl eq_refl eq_refl eq_refl) as E.
  split; [exact (f_equal is_trained E)|exact (f_equal classifier E)].
Defined.

Lemma train_model_fallback_fails_witness :
  @clf_fit broken_sklearn RandomForestClassifier (List.map fst training_set)
    (List.map snd training_set) = (0, Raise FitError) /\
  let after := @train_model broken_sklearn world new_parser (Some training_set) in
  is_trained after = false /\ classifier after = 1 /\ vectorizer after = true.
Proof.
  split; [reflexivity|]. intros after.
  assert (Hd : training_set <> []) by discriminate.
  pose proof (@train_model_fallback_fails broken_sklearn world new_parser training_set
                true (List.map fst training_set) (List.map fst training_set)
                (List.map fst training_set)
                (list_set text_eqb (List.map snd training_set))
                (List.map snd training_set) (List.map snd training_set)
                (List.map snd training_set) 0 1 FitError FitError
                Hd eq_refl eq_refl eq_refl eq_refl eq_refl) as E.
  split; [exact (f_equal is_trained E)|].
  split; [exact (f_equal classifier E)|exact (f_equal vectorizer E)].
Defined.

Lemma save_model_bare_name_witness :
  is_trained (trained_parser keyword_sklearn) = true /\
  @save_model keyword_sklearn (trained_parser keyword_sklearn)
    (str "classifier.joblib") ∅
  = (∅, Raise (FileNotFoundError [])).
Proof.
  split; [reflexivity|].
  apply save_model_bare_name; [reflexivity|].
  intros H. vm_compute in H. intuition discriminate.
Defined.

Lemma load_model_overwrites_witness :
  let fs : @filesystem keyword_sklearn :=
    <[str "models/old.joblib" := legacy_artifact]> ∅ in
  fs !! str "models/old.joblib" = Some legacy_artifact /\
  load_model (trained_parser keyword_sklearn) (str "models/old.joblib") fs
  = (@Build_parser keyword_sklearn true true [str "invoice"; str "receipt"]
       true [] 0, Ok tt).
Proof.
  intros fs.
  assert (H : fs !! str "models/old.joblib" = Some legacy_artifact).
  { unfold fs, filesystem. apply lookup_insert_eq. }
  split; [exact H|].
  exact (@load_model_overwrites keyword_sklearn (trained_parser keyword_sklearn)
           (str "models/old.joblib") fs _ true true
           [str "invoice"; str "receipt"] true H eq_refl eq_refl eq_refl eq_refl).
Defined.


Lemma training_info_after_failed_load_witness :
  let self := trained_parser keyword_sklearn in
  let fs : @filesystem keyword_sklearn := <[str "models/bad.joblib" := Garbage]> ∅ in
  fs !! str "models/bad.joblib" = Some Garbage /\
  get_training_info (fst (load_model self (str "models/bad.joblib") fs))
  = Ok {| info_training_samples := 2;
          info_training_history := training_history self;
          info_is_trained := false;
          info_classes := [] |}.
Proof.
  intros self fs.
  assert (H : fs !! str "models/bad.joblib" = Some Garbage).
  { unfold fs, filesystem. apply lookup_insert_eq. }
  split; [exact H|].
  exact (training_info_after_failed_load self (str "models/bad.joblib") fs Garbage
           H eq_refl).
Defined.

Lemma extract_entities_complete_witness :
  @nlp_ents entity_world (str "Widget for Ada")
  = Ok [ (str "Ada", str "PERSON"); (str "Grace Brewster Hopper", str "PERSON");
         (str "Paris", str "GPE"); (str "Widget", str "PRODUCT");
         (str "Widget", str "PRODUCT"); (str "Tuesday", str "TIME") ] /\
  exists d,
    @extract_entities entity_world (str "Widget for Ada") = Ok d /\
    List.map fst d = ["PERSON"; "ORG"; "GPE"; "DATE"; "MONEY"; "PRODUCT"] /\
    Dict.get d "PRODUCT" = Some [str "Widget"].
Proof.
  split; [reflexivity|].
  destruct (@extract_entities_complete entity_world (str "Widget for Ada") _ eq_refl)
    as (d & Hd & Hkeys & _).
  exists d. split; [exact Hd|]. split; [exact Hkeys|].
  vm_compute in Hd. injection Hd as <-. vm_compute. reflexivity.
Defined.

Lemma extract_invoice_details_keeps_patterns_witness :
  exists res,
    @extract_invoice_details entity_world (str "Invoice #INV-7 Total: $10.00") = Ok res /\
    Dict.get res "invoice_number"
    = Dict.get (extract_with_patterns (str "Invoice #INV-7 Total: $10.00")
                  (str "invoice")) "invoice_number".
Proof.
  destruct (@extract_invoice_details entity_world (str "Invoice #INV-7 Total: $10.00"))
    as [res|e] eqn:E; [|vm_compute in E; discriminate].
  exists res. split; [reflexivity|].
  apply (extract_invoice_details_keeps_patterns _ res E "invoice_number");
    discriminate.
Defined.

Lemma extract_invoice_details_fills_witness :
  exists res,
    @extract_invoice_details entity_world (str "Invoice #INV-7 Total: $10.00") = Ok res /\
    Dict.get res "first_name" = Some [Re.FStr (str "Grace")] /\
    Dict.get res "last_name" = Some [Re.FStr (str "Hopper")] /\
    Dict.get res "city" = Some [Re.FStr (str "Paris")].
Proof.
  destruct (@extract_invoice_details entity_world (str "Invoice #INV-7 Total: $10.00"))
    as [res|e] eqn:E; [|vm_compute in E; discriminate].
  exists res. split; [reflexivity|].
  destruct (@extract_invoice_details_fills entity_world
              (str "Invoice #INV-7 Total: $10.00") _ res eq_refl E)
    as (Hf & Hl & Hc).
  split; [|split].
  - rewrite Hf by (vm_compute; reflexivity). vm_compute. reflexivity.
  - rewrite Hl by (vm_compute; reflexivity). vm_compute. reflexivity.
  - rewrite Hc by (vm_compute; reflexivity). vm_compute. reflexivity.
Defined.

Lemma extract_contact_info_invalid_phones_witness :
  Dict.get (@extract_contact_info world (str "Phone: 1-555-123-4567")) "phone"
  = Some [Re.FStr (str "1-555-123-4567")].
Proof.
  rewrite (@extract_contact_info_invalid_phones world (str "Phone: 1-555-123-4567")).
  - vm_compute. reflexivity.
  - intros phone _. reflexivity.
Defined.

Lemma extract_contact_info_blocks_witness :
  exists blocks,
    Dict.get (@extract_contact_info world
                (str "Contact information:   write to   Ada Lovelace"))
      "contact_blocks" = Some blocks /\
    blocks <> [].
Proof.
  destruct (Dict.get (@extract_contact_info world
                        (str "Contact information:   write to   Ada Lovelace"))
              "contact_blocks") as [blocks|] eqn:E;
    [|vm_compute in E; discriminate].
  exists blocks. split; [reflexivity|].
  exact (proj1 (extract_contact_info_blocks _ blocks E)).
Defined.

Lemma extract_contact_info_frame_witness :
  Dict.get (@extract_contact_info world (str "Mail ada@example.com")) "email"
  = Some [Re.FStr (str "ada@example.com")].
Proof.
  rewrite (@extract_contact_info_frame world (str "Mail ada@example.com") "email");
    [vm_compute; reflexivity|discriminate|discriminate].
Defined.

Lemma holder_name_candidates_witness :
  exists info,
    @extract_document_holder_name entity_world
      (str "Prepared by: Alan Turing") = Ok info /\
    List.NoDup (candidate_names info) /\
    primary_name info = hd_error (candidate_names info).
Proof.
  destruct (@holder_name_candidates entity_world (str "Prepared by: Alan Turing")
              _ eq_refl) as (info & Hi & Hnd & _ & _ & Hp & _).
  exists info. split; [exact Hi|]. split; [exact Hnd|exact Hp].
Defined.

Lemma parse_document_success_iff_witness :
  @extract_text world (str "docs/a.pdf")
  = Ok (str "Invoice #INV-1001 Total: $1500.00 Tax: $120.00" ++ [10%N]) /\
  exists res,
    @parse_document keyword_sklearn world new_parser (str "docs/a.pdf")
      (str "invoice") true = Ok res /\
    success res = true.
Proof.
  assert (H : @extract_text world (str "docs/a.pdf")
              = Ok (str "Invoice #INV-1001 Total: $1500.00 Tax: $120.00" ++ [10%N]))
    by (vm_compute; reflexivity).
  split; [exact H|].
  apply (proj2 (@parse_document_success_iff keyword_sklearn world new_parser
                  (str "docs/a.pdf") (str "invoice") _ true H)).
  split; [vm_compute; discriminate|]. now exists [].
Defined.

Lemma load_labeled_data_rows_witness :
  exists rows,
    @load_labeled_data keyword_sklearn entity_world labeled_tree
      (new_pipeline (str "data")) = Ok rows /\
    length rows = 1 /\
    List.Forall (@labeled_row_ok entity_world labeled_tree (str "data")) rows.
Proof.
  destruct (@load_labeled_data keyword_sklearn entity_world labeled_tree
              (new_pipeline (str "data"))) as [rows|e] eqn:E;
    [|vm_compute in E; discriminate].
  exists rows. split; [reflexivity|]. split.
  - vm_compute in E. injection E as <-. reflexivity.
  - exact (load_labeled_data_rows (new_pipeline (str "data")) rows E).
Defined.



End MoreExamples.
